(** * VeilCams: credential validation, digest authentication, RTSP owner
      election, bounded parallelism and the pipeline workflow.

    A shallow embedding of the TypeScript sources.  JavaScript strings are
    modelled by [string]: a sequence of code units below 256.  Numbers that
    hold status codes, ports, lengths and counters are integers ([Z]).
    Asynchronous code is sequential between two [await]s; network calls are
    answered by an oracle that sees the whole history of requests. *)

From Stdlib Require Import ZArith Lia Bool List Ascii String DecimalString DecimalPos Sorted.
From stdpp Require Import base option list gmap strings.

Local Open Scope string_scope.
Local Open Scope Z_scope.

(* ===================================================================== *)
(** * Part I: definitions                                                  *)
(* ===================================================================== *)

(** ** JavaScript strings *)

Module Js.

(** The double quote character, as a one-character string. *)
Definition dq : string := String (ascii_of_nat 34) EmptyString.

Definition code (c : ascii) : Z := Z.of_nat (nat_of_ascii c).

(** [str.length] as a number. *)
Definition strlen (s : string) : Z := Z.of_nat (String.length s).

Definition is_upper (c : ascii) : bool := (65 <=? code c) && (code c <=? 90).
Definition is_lower (c : ascii) : bool := (97 <=? code c) && (code c <=? 122).
Definition is_digit (c : ascii) : bool := (48 <=? code c) && (code c <=? 57).

(** Lower-casing of one code unit.  Besides the ASCII letters, the Latin-1
    capitals U+00C0..U+00DE (but the multiplication sign U+00D7) have a
    lower-case form 32 places further. *)
Definition lower_char (c : ascii) : ascii :=
  if is_upper c then ascii_of_nat (nat_of_ascii c + 32)
  else if (192 <=? code c) && (code c <=? 222) && negb (code c =? 215)
       then ascii_of_nat (nat_of_ascii c + 32)
  else c.

(** [str.toLowerCase()]. *)
Fixpoint toLowerCase (s : string) : string :=
  match s with
  | EmptyString => EmptyString
  | String c s' => String (lower_char c) (toLowerCase s')
  end.

(** [\w] of a regular expression. *)
Definition is_word (c : ascii) : bool :=
  is_upper c || is_lower c || is_digit c || (code c =? 95).

(** [\s] of a regular expression (the white space and line terminators that
    exist below 256). *)
Definition is_space (c : ascii) : bool :=
  ((9 <=? code c) && (code c <=? 13)) || (code c =? 32) || (code c =? 160).

(** Line terminators, which [.] does not match. *)
Definition is_line_terminator (c : ascii) : bool :=
  (code c =? 10) || (code c =? 13).

(** [s.startsWith(p)]. *)
Fixpoint startsWith (p s : string) : bool :=
  match p, s with
  | EmptyString, _ => true
  | String a p', String b s' => Ascii.eqb a b && startsWith p' s'
  | String _ _, EmptyString => false
  end.

(** [s.includes(p)]. *)
Fixpoint includes (p s : string) : bool :=
  startsWith p s ||
  match s with
  | EmptyString => false
  | String _ s' => includes p s'
  end.

(** Template-literal rendering of an integer number. *)
Definition string_of_Z (z : Z) : string := NilZero.string_of_int (Z.to_int z).

(** Template-literal rendering of a natural number. *)
Definition string_of_nat (n : nat) : string := string_of_Z (Z.of_nat n).

(** The longest prefix whose code units satisfy [p], and the rest. *)
Fixpoint span (p : ascii -> bool) (s : string) : string * string :=
  match s with
  | EmptyString => (EmptyString, EmptyString)
  | String c s' =>
      if p c then let '(a, b) := span p s' in (String c a, b)
      else (EmptyString, s)
  end.

(** [s.split(sep)] for a separator of one code unit. *)
Fixpoint split (sep : ascii) (s : string) : list string :=
  match s with
  | EmptyString => [EmptyString]
  | String c s' =>
      if Ascii.eqb c sep then EmptyString :: split sep s'
      else match split sep s' with
           | [] => [String c EmptyString]
           | x :: xs => String c x :: xs
           end
  end.

Fixpoint trimStart (s : string) : string :=
  match s with
  | EmptyString => EmptyString
  | String c s' => if is_space c then trimStart s' else s
  end.

(** The string without its trailing white space. *)
Fixpoint trimEnd (s : string) : string :=
  match s with
  | EmptyString => EmptyString
  | String c s' =>
      match trimEnd s' with
      | EmptyString => if is_space c then EmptyString else String c EmptyString
      | t => String c t
      end
  end.

(** [s.trim()] *)
Definition trim (s : string) : string := trimEnd (trimStart s).

(** [s.substring(n)] *)
Fixpoint substring_from (n : nat) (s : string) : string :=
  match n, s with
  | O, _ => s
  | S n', String _ s' => substring_from n' s'
  | S _, EmptyString => EmptyString
  end.

(** The value of a digit in a radix up to 16. *)
Definition digit_value (c : ascii) : option Z :=
  if is_digit c then Some (code c - 48)
  else if (97 <=? code c) && (code c <=? 102) then Some (code c - 87)
  else if (65 <=? code c) && (code c <=? 70) then Some (code c - 55)
  else None.

(** The number read from the longest prefix of digits of the radix; [None]
    when there is no digit at all. *)
Fixpoint read_digits (radix : Z) (acc : option Z) (s : string) : option Z :=
  match s with
  | EmptyString => acc
  | String c s' =>
      match digit_value c with
      | Some d =>
          if d <? radix
          then read_digits radix (Some (radix * default 0 acc + d)) s'
          else acc
      | None => acc
      end
  end.

(** The digits after the sign: hexadecimal after [0x] or [0X], decimal
    otherwise. *)
Definition parse_unsigned (s : string) : option Z :=
  let '(radix, digits) :=
    if startsWith "0x" s || startsWith "0X" s
    then (16, substring_from 2 s)
    else (10, s) in
  read_digits radix None digits.

(** [parseInt(s)] without a radix; [None] is [NaN]. *)
Definition parseInt (s : string) : option Z :=
  let s1 := trimStart s in
  let '(negative, s2) :=
    match s1 with
    | String c r =>
        if Ascii.eqb c "-" then (true, r)
        else if Ascii.eqb c "+" then (false, r)
        else (false, s1)
    | EmptyString => (false, s1)
    end in
  match parse_unsigned s2 with
  | Some n => Some (if negative then - n else n)
  | None => None
  end.

End Js.

(** ** Regular expressions

    The patterns of the sources are translated constructor by constructor;
    [test] is [RegExp.prototype.test] for a pattern without anchors: some
    substring of the subject is in the language of the pattern. *)

Module Regex.

Inductive regex : Type :=
| Fail : regex                          (* matches nothing *)
| Eps : regex                           (* the empty string *)
| Class (p : ascii -> bool) : regex     (* one code unit satisfying [p] *)
| Cat (r1 r2 : regex) : regex
| Alt (r1 r2 : regex) : regex
| Star (r : regex) : regex.

Fixpoint nullable (r : regex) : bool :=
  match r with
  | Fail => false
  | Eps => true
  | Class _ => false
  | Cat r1 r2 => nullable r1 && nullable r2
  | Alt r1 r2 => nullable r1 || nullable r2
  | Star _ => true
  end.

(** Brzozowski derivative with respect to one code unit. *)
Fixpoint deriv (c : ascii) (r : regex) : regex :=
  match r with
  | Fail => Fail
  | Eps => Fail
  | Class p => if p c then Eps else Fail
  | Cat r1 r2 =>
      if nullable r1 then Alt (Cat (deriv c r1) r2) (deriv c r2)
      else Cat (deriv c r1) r2
  | Alt r1 r2 => Alt (deriv c r1) (deriv c r2)
  | Star r1 => Cat (deriv c r1) (Star r1)
  end.

(** Some prefix of [s] is in the language of [r]. *)
Fixpoint matches_prefix (r : regex) (s : string) : bool :=
  nullable r ||
  match s with
  | EmptyString => false
  | String c s' => matches_prefix (deriv c r) s'
  end.

(** All of [s] is in the language of [r]. *)
Fixpoint matches_all (r : regex) (s : string) : bool :=
  match s with
  | EmptyString => nullable r
  | String c s' => matches_all (deriv c r) s'
  end.

(** [r.test(s)]: a match starts at some position of [s]. *)
Fixpoint test (r : regex) (s : string) : bool :=
  matches_prefix r s ||
  match s with
  | EmptyString => false
  | String _ s' => test r s'
  end.

(** The declarative meaning of a pattern. *)
Inductive lang : regex -> string -> Prop :=
| lang_eps : lang Eps EmptyString
| lang_class p c : p c = true -> lang (Class p) (String c EmptyString)
| lang_cat r1 r2 s1 s2 : lang r1 s1 -> lang r2 s2 -> lang (Cat r1 r2) (s1 ++ s2)
| lang_alt_l r1 r2 s : lang r1 s -> lang (Alt r1 r2) s
| lang_alt_r r1 r2 s : lang r2 s -> lang (Alt r1 r2) s
| lang_star_nil r : lang (Star r) EmptyString
| lang_star_cons r s1 s2 : lang r s1 -> lang (Star r) s2 -> lang (Star r) (s1 ++ s2).

(** A literal code unit under the [i] flag. *)
Definition ichar (c : ascii) : regex :=
  Class (fun x => Ascii.eqb (Js.lower_char x) (Js.lower_char c)).

(** A literal word under the [i] flag. *)
Fixpoint iword (w : string) : regex :=
  match w with
  | EmptyString => Eps
  | String c w' => Cat (ichar c) (iword w')
  end.

(** [.], [\s], [\d], [x?], [x*] and an alternation of several branches. *)
Definition dot : regex := Class (fun x => negb (Js.is_line_terminator x)).
Definition space : regex := Class Js.is_space.
Definition digit : regex := Class Js.is_digit.
Definition opt (r : regex) : regex := Alt r Eps.
Definition alts (rs : list regex) : regex := fold_right Alt Fail rs.
Definition seq (rs : list regex) : regex := fold_right Cat Eps rs.

End Regex.

(** ** Baseline-differential validation (credential tester with baseline) *)

(** A response reduced to what the comparison reads. *)
Record Snapshot : Type := mkSnapshot { status : Z; body : string }.

(** [/(logout|sign.?out|dashboard|welcome|session|authenticated|token)/i] *)
Definition authIndicators : Regex.regex :=
  Regex.alts
    [ Regex.iword "logout";
      Regex.seq [Regex.iword "sign"; Regex.opt Regex.dot; Regex.iword "out"];
      Regex.iword "dashboard";
      Regex.iword "welcome";
      Regex.iword "session";
      Regex.iword "authenticated";
      Regex.iword "token" ].

(** [sizeDiff / maxSize < 0.1].  Both operands are string lengths, so the
    quotient of doubles is below the double [0.1] exactly when ten times the
    difference is below the maximum. *)
Definition below_tenth (sizeDiff maxSize : Z) : bool := 10 * sizeDiff <? maxSize.

Definition isAuthenticatedResponseDifferent (baseline authed : Snapshot) : bool :=
  if ((status baseline =? 401) || (status baseline =? 403))
       && (200 <=? status authed) && (status authed <? 400)
  then true
  else if (status baseline =? -1) && (200 <=? status authed) && (status authed <? 400)
  then true
  else if status baseline =? status authed then
    if String.eqb (body baseline) (body authed) then false
    else
      let sizeDiff := Z.abs (Js.strlen (body baseline) - Js.strlen (body authed)) in
      let maxSize := Z.max (Z.max (Js.strlen (body baseline)) (Js.strlen (body authed))) 1 in
      if below_tenth sizeDiff maxSize then
        if Regex.test authIndicators (body authed)
           && negb (Regex.test authIndicators (body baseline))
        then true
        else false
      else true
  else if (200 <=? status authed) && (status authed <? 400) && (400 <=? status baseline)
  then true
  else false.

(** ** Data model (the fields that the modelled code reads) *)

Inductive CameraVendor : Type :=
| V_hikvision | V_dahua | V_axis | V_reolink | V_amcrest | V_foscam
| V_tp_link | V_uniview | V_vivotek | V_hanwha | V_bosch | V_unknown.

Inductive ProtocolType : Type :=
| P_http | P_https | P_rtsp | P_onvif | P_telnet | P_ssh.

Inductive AuthType : Type :=
| A_none | A_basic | A_digest | A_form | A_bearer | A_unknown.

#[global] Instance CameraVendor_eq_dec : EqDecision CameraVendor.
Proof. solve_decision. Defined.
#[global] Instance ProtocolType_eq_dec : EqDecision ProtocolType.
Proof. solve_decision. Defined.
#[global] Instance AuthType_eq_dec : EqDecision AuthType.
Proof. solve_decision. Defined.

Record Credential : Type := mkCredential { username : string; password : string }.

Record FingerprintResult : Type := mkFingerprint {
  ip : string;
  port : Z;
  vendor : CameraVendor;
  protocols : list ProtocolType;
  authType : AuthType
}.

Record CredentialTestResult : Type := mkResult {
  r_ip : string;
  r_port : Z;
  r_vendor : CameraVendor;
  r_protocol : string;
  r_credential : Credential;
  success : bool;
  responseCode : option Z;
  evidence : string;
  timestamp : string
}.

(** [target.protocols.includes(p)] *)
Definition protocols_include (p : ProtocolType) (t : FingerprintResult) : bool :=
  bool_decide (p ∈ protocols t).

(** ** The network and the state shared by the calls of one activity *)

(** What a promise settles to. *)
Inductive Outcome (A : Type) : Type :=
| Returned (a : A)
| Thrown (message : string).
Arguments Returned {A} a.
Arguments Thrown {A} message.

(** [resp.data] of an axios response: a string, a falsy value that is not a
    string, or any other value together with its [JSON.stringify] text. *)
Inductive AxiosData : Type :=
| DataString (s : string)
| DataFalsy
| DataJson (rendered : string).

Record HttpResponse : Type := mkHttpResponse {
  resp_status : Z;
  resp_data : AxiosData;
  resp_headers : list (string * string)
}.

Record RtspReply : Type := mkRtspReply { statusCode : Z; raw : string }.

Inductive HttpCall : Type :=
| Get (url : string) (auth : option Credential) (headers : list (string * string))
| Post (url : string) (fields : list (string * string)).

Inductive RtspCall : Type :=
| Describe (host : string) (rtsp_port : Z) (streamPath : string) (auth : option Credential).

Inductive Call : Type :=
| CallHttp (c : HttpCall)
| CallRtsp (c : RtspCall).

(** The hosts: every answer may depend on all calls made before.  [random]
    is the source of [randomBytes(8).toString('hex')] and [clock] the one of
    [new Date().toISOString()]. *)
Record Network : Type := mkNetwork {
  http_reply : list Call -> HttpCall -> Outcome HttpResponse;
  rtsp_reply : list Call -> RtspCall -> Outcome RtspReply;
  random : nat -> string;
  clock : list Call -> string
}.

(** The module-level state: the calls made so far (oldest first), the
    number of random draws, and the two caches. *)
Record World : Type := mkWorld {
  calls : list Call;
  draws : nat;
  baselineCache : gmap string Snapshot;
  rtspUnauthCache : gmap string bool
}.

Definition initial_world : World :=
  {| calls := []; draws := 0; baselineCache := ∅; rtspUnauthCache := ∅ |}.

(** State passing, for any type of state. *)
Definition St (S A : Type) : Type := S -> A * S.

Definition ret {S A : Type} (a : A) : St S A := fun w => (a, w).

Definition bind {S A B : Type} (m : St S A) (k : A -> St S B) : St S B :=
  fun w => let '(a, w') := m w in k a w'.

Notation "'let*' x ':=' m 'in' k" := (bind m (fun x => k))
  (at level 10, x name, m at level 100, k at level 200).

(** Code inside a [try] block: the first throw skips the rest. *)
Definition bindT {S A B : Type} (m : St S (Outcome A)) (k : A -> St S (Outcome B))
    : St S (Outcome B) :=
  let* o := m in
  match o with
  | Returned a => k a
  | Thrown msg => ret (Thrown msg)
  end.

Notation "'try*' x ':=' m 'in' k" := (bindT m (fun x => k))
  (at level 10, x name, m at level 100, k at level 200).

(** [try { body } catch (error) { handler(error.message) }] *)
Definition try_catch {S A : Type} (body : St S (Outcome A)) (handler : string -> A)
    : St S A :=
  let* o := body in
  match o with
  | Returned a => ret a
  | Thrown msg => ret (handler msg)
  end.

(** The computations of the credential testers. *)
Definition M (A : Type) : Type := St World A.

Definition record_call (c : Call) : M unit :=
  fun w => (tt, {| calls := (calls w ++ [c])%list; draws := draws w;
                   baselineCache := baselineCache w;
                   rtspUnauthCache := rtspUnauthCache w |}).

(** [httpGet(url, { auth, headers, timeout })]: never throws on a status,
    only on a transport failure. *)
Definition httpGet (net : Network) (url : string) (auth : option Credential)
    (headers : list (string * string)) : M (Outcome HttpResponse) :=
  fun w =>
    let c := Get url auth headers in
    (http_reply net (calls w) c, snd (record_call (CallHttp c) w)).

(** [httpPost(url, body, { timeout })] *)
Definition httpPost (net : Network) (url : string) (fields : list (string * string))
    : M (Outcome HttpResponse) :=
  fun w =>
    let c := Post url fields in
    (http_reply net (calls w) c, snd (record_call (CallHttp c) w)).

(** [rtspDescribe(host, port, streamPath, auth, 5000)] *)
Definition rtspDescribe (net : Network) (host : string) (p : Z) (streamPath : string)
    (auth : option Credential) : M (Outcome RtspReply) :=
  fun w =>
    let c := Describe host p streamPath auth in
    (rtsp_reply net (calls w) c, snd (record_call (CallRtsp c) w)).

(** [randomBytes(8).toString('hex')] *)
Definition randomHex (net : Network) : M string :=
  fun w => (random net (draws w),
            {| calls := calls w; draws := S (draws w);
               baselineCache := baselineCache w;
               rtspUnauthCache := rtspUnauthCache w |}).

(** [typeof resp.data === 'string' ? resp.data : JSON.stringify(resp.data || '')] *)
Definition body_text (d : AxiosData) : string :=
  match d with
  | DataString s => s
  | DataFalsy => Js.dq ++ Js.dq
  | DataJson rendered => rendered
  end.

(** [typeof resp.data === 'string' ? resp.data : ''] *)
Definition string_or_empty (d : AxiosData) : string :=
  match d with
  | DataString s => s
  | _ => ""
  end.

(** ** MD5

    Modelled from RFC 1321: [createHash('md5')] comes from [node:crypto],
    which is not part of the repository.  Words are 32-bit, little-endian. *)

Module Md5.
Local Open Scope N_scope.

Definition add32 (x y : N) : N := (x + y) mod 4294967296.
Definition not32 (x : N) : N := N.lxor x 0xFFFFFFFF.
Definition rotl32 (x n : N) : N :=
  N.lor (N.shiftl x n mod 4294967296) (N.shiftr x (32 - n)).

Definition shifts : list N :=
  [7; 12; 17; 22; 7; 12; 17; 22; 7; 12; 17; 22; 7; 12; 17; 22;
   5; 9; 14; 20; 5; 9; 14; 20; 5; 9; 14; 20; 5; 9; 14; 20;
   4; 11; 16; 23; 4; 11; 16; 23; 4; 11; 16; 23; 4; 11; 16; 23;
   6; 10; 15; 21; 6; 10; 15; 21; 6; 10; 15; 21; 6; 10; 15; 21].

Definition K : list N :=
  [0xd76aa478; 0xe8c7b756; 0x242070db; 0xc1bdceee;
   0xf57c0faf; 0x4787c62a; 0xa8304613; 0xfd469501;
   0x698098d8; 0x8b44f7af; 0xffff5bb1; 0x895cd7be;
   0x6b901122; 0xfd987193; 0xa679438e; 0x49b40821;
   0xf61e2562; 0xc040b340; 0x265e5a51; 0xe9b6c7aa;
   0xd62f105d; 0x02441453; 0xd8a1e681; 0xe7d3fbc8;
   0x21e1cde6; 0xc33707d6; 0xf4d50d87; 0x455a14ed;
   0xa9e3e905; 0xfcefa3f8; 0x676f02d9; 0x8d2a4c8a;
   0xfffa3942; 0x8771f681; 0x6d9d6122; 0xfde5380c;
   0xa4beea44; 0x4bdecfa9; 0xf6bb4b60; 0xbebfbc70;
   0x289b7ec6; 0xeaa127fa; 0xd4ef3085; 0x04881d05;
   0xd9d4d039; 0xe6db99e5; 0x1fa27cf8; 0xc4ac5665;
   0xf4292244; 0x432aff97; 0xab9423a7; 0xfc93a039;
   0x655b59c3; 0x8f0ccc92; 0xffeff47d; 0x85845dd1;
   0x6fa87e4f; 0xfe2ce6e0; 0xa3014314; 0x4e0811a1;
   0xf7537e82; 0xbd3af235; 0x2ad7d2bb; 0xeb86d391].

Definition round (block : list N) (st : N * N * N * N) (i : nat) : N * N * N * N :=
  let '(a, b, c, d) := st in
  let '(f, g) :=
    if (i <? 16)%nat then (N.lor (N.land b c) (N.land (not32 b) d), i)
    else if (i <? 32)%nat then
      (N.lor (N.land d b) (N.land (not32 d) c), ((5 * i + 1) mod 16)%nat)
    else if (i <? 48)%nat then (N.lxor (N.lxor b c) d, ((3 * i + 5) mod 16)%nat)
    else (N.lxor c (N.lor b (not32 d)), ((7 * i) mod 16)%nat) in
  let f' := add32 (add32 (add32 f a) (nth i K 0)) (nth g block 0) in
  (d, add32 b (rotl32 f' (nth i shifts 0)), b, c).

(** Sixteen little-endian words out of 64 bytes. *)
Fixpoint words (n : nat) (bytes : list N) : list N :=
  match n, bytes with
  | S n', b0 :: b1 :: b2 :: b3 :: rest =>
      (b0 + 256 * b1 + 65536 * b2 + 16777216 * b3) :: words n' rest
  | _, _ => []
  end.

Definition compress (st : N * N * N * N) (chunk : list N) : N * N * N * N :=
  let '(a0, b0, c0, d0) := st in
  let '(a, b, c, d) := fold_left (round (words 16 chunk)) (seq 0 64) st in
  (add32 a0 a, add32 b0 b, add32 c0 c, add32 d0 d).

Fixpoint le_bytes (n : nat) (x : N) : list N :=
  match n with
  | O => []
  | S n' => (x mod 256) :: le_bytes n' (x / 256)
  end.

(** The message, one [0x80], zeros up to 56 modulo 64, the bit length. *)
Definition pad (msg : list N) : list N :=
  let len := length msg in
  let zeros := ((55 + 64 - len mod 64) mod 64)%nat in
  msg ++ [128] ++ repeat 0 zeros ++ le_bytes 8 (8 * N.of_nat len).

Fixpoint blocks (n : nat) (st : N * N * N * N) (bytes : list N) : N * N * N * N :=
  match n with
  | O => st
  | S n' => blocks n' (compress st (firstn 64 bytes)) (skipn 64 bytes)
  end.

Definition hex_digit (x : N) : ascii :=
  if x <? 10 then ascii_of_N (48 + x) else ascii_of_N (87 + x).

Definition hex_byte (x : N) : string :=
  String (hex_digit (x / 16)) (String (hex_digit (x mod 16)) EmptyString).

Definition hex (bytes : list N) : string := String.concat "" (map hex_byte bytes).

Definition digest (msg : list N) : list N :=
  let padded := pad msg in
  let '(a, b, c, d) :=
    blocks (length padded / 64)
           (0x67452301, 0xefcdab89, 0x98badcfe, 0x10325476) padded in
  le_bytes 4 a ++ le_bytes 4 b ++ le_bytes 4 c ++ le_bytes 4 d.

(** [update(str)] hashes the UTF-8 encoding of the string. *)
Fixpoint utf8 (s : string) : list N :=
  match s with
  | EmptyString => []
  | String c s' =>
      let x := N_of_ascii c in
      if x <? 128 then x :: utf8 s'
      else (192 + x / 64) :: (128 + x mod 64) :: utf8 s'
  end.

End Md5.

(** [createHash('md5').update(s).digest('hex')] *)
Definition md5hex (s : string) : string := Md5.hex (Md5.digest (Md5.utf8 s)).

(** ** Digest authentication *)

Record DigestParams : Type := mkDigestParams {
  d_username : string;
  d_password : string;
  d_method : string;
  d_uri : string;
  d_realm : string;
  d_nonce : string;
  d_qop : option string;
  d_nc : option string;
  d_cnonce : option string;
  d_algorithm : option string
}.

(** [x || d] for an optional string: [undefined] and [''] are falsy. *)
Definition or_default (x : option string) (d : string) : string :=
  match x with
  | Some s => if String.eqb s "" then d else s
  | None => d
  end.

(** [if (x)] for an optional string. *)
Definition truthy (x : option string) : bool :=
  match x with
  | Some s => negb (String.eqb s "")
  | None => false
  end.

(** [computeDigestAuth(params)]; [rnd] is what
    [randomBytes(8).toString('hex')] gives when it is evaluated. *)
Definition computeDigestAuth (rnd : string) (params : DigestParams) : string :=
  let username := d_username params in
  let password := d_password params in
  let method := d_method params in
  let uri := d_uri params in
  let realm := d_realm params in
  let nonce := d_nonce params in
  let algorithm := d_algorithm params in
  let qop := or_default (d_qop params) "" in
  let nc := or_default (d_nc params) "00000001" in
  let cnonce := or_default (d_cnonce params) rnd in
  let isMd5Sess :=
    match algorithm with
    | Some a => String.eqb (Js.toLowerCase a) "md5-sess"
    | None => false
    end in
  let ha1 := md5hex (username ++ ":" ++ realm ++ ":" ++ password) in
  let ha1 := if isMd5Sess then md5hex (ha1 ++ ":" ++ nonce ++ ":" ++ cnonce) else ha1 in
  let ha2 := md5hex (method ++ ":" ++ uri) in
  let response :=
    if String.eqb qop "auth" || String.eqb qop "auth-int"
    then md5hex (ha1 ++ ":" ++ nonce ++ ":" ++ nc ++ ":" ++ cnonce ++ ":" ++ qop ++ ":" ++ ha2)
    else md5hex (ha1 ++ ":" ++ nonce ++ ":" ++ ha2) in
  let header :=
    "Digest username=" ++ Js.dq ++ username ++ Js.dq
    ++ ", realm=" ++ Js.dq ++ realm ++ Js.dq
    ++ ", nonce=" ++ Js.dq ++ nonce ++ Js.dq
    ++ ", uri=" ++ Js.dq ++ uri ++ Js.dq
    ++ ", response=" ++ Js.dq ++ response ++ Js.dq in
  let header :=
    if negb (String.eqb qop "")
    then header ++ ", qop=" ++ qop ++ ", nc=" ++ nc ++ ", cnonce=" ++ Js.dq ++ cnonce ++ Js.dq
    else header in
  let header :=
    match algorithm with
    | Some a => if negb (String.eqb a "") then header ++ ", algorithm=" ++ a else header
    | None => header
    end in
  header.

(** The call as the testers make it: the random bytes are drawn only when
    no client nonce is supplied. *)
Definition computeDigestAuthM (net : Network) (params : DigestParams) : M string :=
  if truthy (d_cnonce params)
  then ret (computeDigestAuth "" params)
  else let* rnd := randomHex net in ret (computeDigestAuth rnd params).

(** The reference computation of RFC 2617, section 3.2.2, written from the
    specification: [A1], [A2], the request digest and the header fields. *)
Module Rfc2617.

Definition is_md5_sess (algorithm : option string) : bool :=
  match algorithm with
  | Some a => String.eqb (Js.toLowerCase a) "md5-sess"
  | None => false
  end.

Definition HA1 (user realm pass nonce cnonce : string) (algorithm : option string) : string :=
  if is_md5_sess algorithm
  then md5hex (md5hex (user ++ ":" ++ realm ++ ":" ++ pass) ++ ":" ++ nonce ++ ":" ++ cnonce)
  else md5hex (user ++ ":" ++ realm ++ ":" ++ pass).

Definition HA2 (method uri : string) : string := md5hex (method ++ ":" ++ uri).

Definition is_auth_qop (qop : string) : bool :=
  String.eqb qop "auth" || String.eqb qop "auth-int".

Definition request_digest (ha1 nonce nc cnonce qop ha2 : string) : string :=
  if is_auth_qop qop
  then md5hex (ha1 ++ ":" ++ nonce ++ ":" ++ nc ++ ":" ++ cnonce ++ ":" ++ qop ++ ":" ++ ha2)
  else md5hex (ha1 ++ ":" ++ nonce ++ ":" ++ ha2).

Definition quoted (s : string) : string := Js.dq ++ s ++ Js.dq.

(** The credentials line: the five mandatory fields, then the [qop] group
    when a [qop] is in use, then the algorithm when one was given. *)
Definition authorization (user realm nonce uri response qop nc cnonce : string)
    (algorithm : option string) : string :=
  String.concat ""
    ([ "Digest username="; quoted user;
       ", realm="; quoted realm;
       ", nonce="; quoted nonce;
       ", uri="; quoted uri;
       ", response="; quoted response ]
     ++ (if String.eqb qop "" then []
         else [", qop="; qop; ", nc="; nc; ", cnonce="; quoted cnonce])
     ++ (match algorithm with
         | Some a => if String.eqb a "" then [] else [", algorithm="; a]
         | None => []
         end)).

(** The reference header for fully given values. *)
Definition reference (user pass realm nonce method uri qop nc cnonce : string)
    (algorithm : option string) : string :=
  let ha1 := HA1 user realm pass nonce cnonce algorithm in
  let ha2 := HA2 method uri in
  let response := request_digest ha1 nonce nc cnonce qop ha2 in
  authorization user realm nonce uri response qop nc cnonce algorithm.

End Rfc2617.

(** ** Parsing of [WWW-Authenticate] *)

(** [[\w.,_-]] *)
Definition is_token_char (c : ascii) : bool :=
  Js.is_word c || (Js.code c =? 46) || (Js.code c =? 44) || (Js.code c =? 45).

Definition is_not_quote (c : ascii) : bool := negb (Js.code c =? 34).

(** One attempt, at the start of [s], of the pattern of the parser: a run of
    word characters, an equals sign, and either a value between two double
    quotes or a run of token characters.  Gives the key, the value and what
    follows the match. *)
Definition match_param (s : string) : option (string * string * string) :=
  let '(key, r) := Js.span Js.is_word s in
  if String.eqb key "" then None
  else
    match r with
    | String "=" r1 =>
        let quoted :=
          match r1 with
          | String q r2 =>
              if Js.code q =? 34 then
                let '(v, r3) := Js.span is_not_quote r2 in
                match r3 with
                | String _ r4 => Some (key, v, r4)
                | EmptyString => None
                end
              else None
          | EmptyString => None
          end in
        match quoted with
        | Some m => Some m
        | None =>
            let '(v, r2) := Js.span is_token_char r1 in
            if String.eqb v "" then None else Some (key, v, r2)
        end
    | _ => None
    end.

(** The [while ((match = regex.exec(rest)) !== null)] loop: the leftmost
    match, then on from its end. *)
Fixpoint scan_params (fuel : nat) (s : string) (params : gmap string string)
    : gmap string string :=
  match fuel with
  | O => params
  | S fuel' =>
      match match_param s with
      | Some (key, v, r) => scan_params fuel' r (<[key := v]> params)
      | None =>
          match s with
          | EmptyString => params
          | String _ s' => scan_params fuel' s' params
          end
      end
  end.

Definition parseWwwAuthenticate (header : string) : gmap string string :=
  let type := Js.toLowerCase (hd "" (Js.split " " header)) in
  let params : gmap string string := {[ "type" := type ]} in
  let rest := Js.trim (Js.substring_from (String.length type) header) in
  scan_params (S (String.length rest)) rest params.

(** [headers[name] || ''] *)
Fixpoint header_or_empty (name : string) (headers : list (string * string)) : string :=
  match headers with
  | [] => ""
  | (k, v) :: rest => if String.eqb k name then v else header_or_empty name rest
  end.

(** [new Date().toISOString()] *)
Definition isoNow (net : Network) : M string := fun w => (clock net (calls w), w).

(** ** Tables of [constants.ts] *)

Definition cred (u p : string) : Credential := {| username := u; password := p |}.

Definition DEFAULT_CREDENTIALS (v : CameraVendor) : list Credential :=
  match v with
  | V_hikvision =>
      [cred "admin" "12345"; cred "admin" "admin"; cred "admin" "Admin12345";
       cred "admin" "hiklinux"; cred "admin" ""; cred "admin" "admin123";
       cred "admin" "password"]
  | V_dahua =>
      [cred "admin" "admin"; cred "admin" "admin123"; cred "admin" "";
       cred "admin" "123456"; cred "888888" "888888"; cred "default" "default"]
  | V_axis =>
      [cred "root" "root"; cred "root" "pass"; cred "root" "";
       cred "admin" "admin"; cred "operator" "operator"]
  | V_reolink => [cred "admin" ""; cred "admin" "admin"; cred "admin" "123456"]
  | V_amcrest => [cred "admin" "admin"; cred "admin" "admin123"; cred "admin" ""]
  | V_foscam => [cred "admin" ""; cred "admin" "admin"; cred "admin" "foscam"]
  | V_tp_link => [cred "admin" "admin"; cred "admin" "2211"; cred "admin" ""]
  | V_uniview => [cred "admin" "123456"; cred "admin" "admin"]
  | V_vivotek => [cred "root" ""; cred "root" "root"; cred "admin" "admin"]
  | V_hanwha => [cred "admin" "4321"; cred "admin" "admin"; cred "admin" ""]
  | V_bosch => [cred "admin" ""; cred "admin" "admin"; cred "service" "service"]
  | V_unknown =>
      [cred "admin" "admin"; cred "admin" ""; cred "admin" "12345";
       cred "admin" "123456"; cred "admin" "password"; cred "root" "root";
       cred "root" ""; cred "user" "user"; cred "admin" "1234";
       cred "admin" "admin123"]
  end.

Definition RTSP_PATHS (v : CameraVendor) : list string :=
  match v with
  | V_hikvision =>
      ["/Streaming/Channels/101"; "/Streaming/Channels/102";
       "/Streaming/Channels/201"; "/h264/ch1/main/av_stream";
       "/h264/ch1/sub/av_stream"; "/ISAPI/Streaming/channels/101"]
  | V_dahua =>
      ["/cam/realmonitor?channel=1&subtype=0";
       "/cam/realmonitor?channel=1&subtype=1"; "/live"; "/MediaInput/h264"]
  | V_axis =>
      ["/axis-media/media.amp"; "/mpeg4/media.amp"; "/mjpg/video.mjpg";
       "/axis-media/media.amp?videocodec=h264"]
  | V_reolink => ["/h264Preview_01_main"; "/h264Preview_01_sub"; "/Preview_01_main"]
  | V_amcrest =>
      ["/cam/realmonitor?channel=1&subtype=0";
       "/cam/realmonitor?channel=1&subtype=1"]
  | V_foscam => ["/videoMain"; "/videoSub"; "/video1"]
  | V_tp_link => ["/stream1"; "/stream2"]
  | V_uniview => ["/unicast/c1/s0/live"; "/unicast/c1/s1/live"]
  | V_vivotek => ["/live.sdp"; "/live2.sdp"; "/video.mp4"]
  | V_hanwha => ["/profile2/media.smp"; "/profile1/media.smp"]
  | V_bosch => ["/rtsp_tunnel"; "/video"]
  | V_unknown =>
      ["/live"; "/stream"; "/stream1"; "/ch1"; "/ch01.264"; "/0"; "/1";
       "/video"; "/media/video1"; "/live/ch0"; "/live/ch1"; "/live.sdp";
       "/h264"; "/mpeg4"; "/cam1"]
  end.

(** [CAMERA_PORTS.RTSP], also written out where it is used. *)
Definition rtspPorts : list Z := [554; 8554; 8555; 10554].

(** ** Configuration (the fields that the modelled code reads) *)

Record VeilcamsConfig : Type := mkConfig {
  use_defaults : bool;
  custom : list Credential;
  max_attempts_per_host : Z;
  delay_ms : Z;
  protocols_rtsp : bool;
  protocols_http : bool
}.

(** ** Credential list *)

(** The closure state of [buildCredentialList]: the list built so far and
    the set of keys seen. *)
Record CredAcc : Type := mkCredAcc { creds : list Credential; seen : gset string }.

Definition cred_key (c : Credential) : string := username c ++ ":" ++ password c.

Definition addCred (acc : CredAcc) (c : Credential) : CredAcc :=
  let key := cred_key c in
  if bool_decide (key ∈ seen acc) then acc
  else {| creds := (creds acc ++ [c])%list; seen := {[ key ]} ∪ seen acc |}.

(** [list.forEach(addCred)] *)
Definition forEach_addCred (l : list Credential) (acc : CredAcc) : CredAcc :=
  fold_left addCred l acc.

Definition buildCredentialList (target : FingerprintResult) (config : VeilcamsConfig)
    : list Credential :=
  let acc := {| creds := []; seen := ∅ |} in
  let acc :=
    if use_defaults config then
      let vendorCreds := DEFAULT_CREDENTIALS (vendor target) in
      let acc := forEach_addCred vendorCreds acc in
      if bool_decide (vendor target ≠ V_unknown)
      then forEach_addCred (DEFAULT_CREDENTIALS V_unknown) acc
      else acc
    else acc in
  let acc := forEach_addCred (custom config) acc in
  creds acc.

(** ** What both credential testers share *)

Definition scheme_of (target : FingerprintResult) : string :=
  if protocols_include P_https target then "https" else "http".

Definition baseUrl_of (target : FingerprintResult) : string :=
  scheme_of target ++ "://" ++ ip target ++ ":" ++ Js.string_of_Z (port target).

Definition http_result (target : FingerprintResult) (c : Credential) (ok : bool)
    (code : option Z) (ev ts : string) : CredentialTestResult :=
  {| r_ip := ip target; r_port := port target; r_vendor := vendor target;
     r_protocol := scheme_of target; r_credential := c; success := ok;
     responseCode := code; evidence := ev; timestamp := ts |}.

Definition rtsp_result (target : FingerprintResult) (rtspPort : Z) (c : Credential)
    (ok : bool) (code : option Z) (ev ts : string) : CredentialTestResult :=
  {| r_ip := ip target; r_port := rtspPort; r_vendor := vendor target;
     r_protocol := "rtsp"; r_credential := c; success := ok;
     responseCode := code; evidence := ev; timestamp := ts |}.

(** [resp.status >= 200 && resp.status < 400] *)
Definition in_2xx_3xx (st : Z) : bool := (200 <=? st) && (st <? 400).

Definition words_regex (ws : list string) : Regex.regex :=
  Regex.alts (map Regex.iword ws).

(** [/(error|fail|invalid|wrong|denied)/i] *)
Definition formFailure : Regex.regex :=
  words_regex ["error"; "fail"; "invalid"; "wrong"; "denied"].

(** [/(success|ok|true|token|session)/i] *)
Definition formSuccess : Regex.regex :=
  words_regex ["success"; "ok"; "true"; "token"; "session"].

Definition loginEndpoints : list string :=
  ["/RPC2_Login"; "/ISAPI/Security/userCheck"; "/cgi-bin/global.login";
   "/api.cgi?cmd=Login"; "/login.cgi"; "/login"].

(** The [for (const endpoint of loginEndpoints)] loop of the form branch:
    the result that it returns, if it returns one. *)
Fixpoint formLogin (net : Network) (target : FingerprintResult) (c : Credential)
    (ts : string) (endpoints : list string) : M (option CredentialTestResult) :=
  match endpoints with
  | [] => ret None
  | endpoint :: rest =>
      let* o := httpPost net (baseUrl_of target ++ endpoint)
                  [("userName", username c); ("password", password c)] in
      match o with
      | Returned resp =>
          let body := body_text (resp_data resp) in
          let ok :=
            (resp_status resp =? 200)
            && negb (Regex.test formFailure body)
            && (Regex.test formSuccess body || (100 <? Js.strlen body)) in
          if ok then
            ret (Some (http_result target c true (Some (resp_status resp))
                   ("HTTP " ++ Js.string_of_Z (resp_status resp) ++ " via " ++ endpoint
                    ++ " — form login successful") ts))
          else formLogin net target c ts rest
      | Thrown _ => formLogin net target c ts rest
      end
  end.

(** The port that [testRtspAuth] dials. *)
Definition rtspPort_of (target : FingerprintResult) : Z :=
  if protocols_include P_rtsp target
  then (if bool_decide (port target ∈ rtspPorts) then port target else 554)
  else 554.

(** [paths[0] || '/'] for the paths of the vendor. *)
Definition testPath_of (target : FingerprintResult) : string :=
  match RTSP_PATHS (vendor target) with
  | p :: _ => if String.eqb p "" then "/" else p
  | [] => "/"
  end.

(** The loop of [testHost]; the rate limiter and the delay between two
    attempts only pace it. *)
Fixpoint testHost_loop (testHttpAuth testRtspAuth : FingerprintResult -> Credential -> M CredentialTestResult)
    (target : FingerprintResult) (config : VeilcamsConfig)
    (todo : list Credential) (attempts : Z) (foundValid : bool)
    (results : list CredentialTestResult) : M (list CredentialTestResult) :=
  match todo with
  | [] => ret results
  | c :: rest =>
      if max_attempts_per_host config <=? attempts then ret results
      else if foundValid then ret results
      else
        let rtsp_part (attempts : Z) (results : list CredentialTestResult) :=
          if protocols_include P_rtsp target && protocols_rtsp config then
            let* rtspResult := testRtspAuth target c in
            testHost_loop testHttpAuth testRtspAuth target config rest (attempts + 1)
              (success rtspResult) (results ++ [rtspResult])%list
          else
            testHost_loop testHttpAuth testRtspAuth target config rest attempts false results in
        if protocols_include P_http target || protocols_include P_https target then
          let* httpResult := testHttpAuth target c in
          if success httpResult then
            testHost_loop testHttpAuth testRtspAuth target config rest (attempts + 1)
              true (results ++ [httpResult])%list
          else rtsp_part (attempts + 1) (results ++ [httpResult])%list
        else rtsp_part attempts results
  end.

(** The parameters that both testers hand to [computeDigestAuth]. *)
Definition digest_params (c : Credential) (params : gmap string string) : DigestParams :=
  {| d_username := username c;
     d_password := password c;
     d_method := "GET";
     d_uri := "/";
     d_realm := or_default (params !! "realm") "";
     d_nonce := or_default (params !! "nonce") "";
     d_qop := params !! "qop";
     d_nc := None;
     d_cnonce := None;
     d_algorithm := params !! "algorithm" |}.

(** ** The credential tester of [src/modules/credential-tester.ts] *)

Module PlainTester.

Definition generic_attempt (net : Network) (target : FingerprintResult) (c : Credential)
    (ts : string) : M (Outcome CredentialTestResult) :=
  try* resp := httpGet net (baseUrl_of target) (Some c) [] in
  let ok := in_2xx_3xx (resp_status resp) && negb (resp_status resp =? 401) in
  ret (Returned (http_result target c ok (Some (resp_status resp))
         (if ok
          then "HTTP " ++ Js.string_of_Z (resp_status resp) ++ " — authenticated access granted"
          else "HTTP " ++ Js.string_of_Z (resp_status resp) ++ " — authentication failed")
         ts)).

Definition testHttpAuth (net : Network) (target : FingerprintResult) (c : Credential)
    : M CredentialTestResult :=
  let baseUrl := baseUrl_of target in
  let* ts := isoNow net in
  try_catch
    (match authType target with
     | A_basic | A_unknown =>
         try* resp := httpGet net baseUrl (Some c) [] in
         let ok := in_2xx_3xx (resp_status resp) && negb (resp_status resp =? 401) in
         ret (Returned (http_result target c ok (Some (resp_status resp))
                (if ok
                 then "HTTP " ++ Js.string_of_Z (resp_status resp)
                      ++ " — authenticated access granted via Basic auth"
                 else "HTTP " ++ Js.string_of_Z (resp_status resp)
                      ++ " — authentication failed")
                ts))
     | A_digest =>
         try* challengeResp := httpGet net baseUrl None [] in
         let wwwAuth := header_or_empty "www-authenticate" (resp_headers challengeResp) in
         let params := parseWwwAuthenticate wwwAuth in
         let* authHeader := computeDigestAuthM net (digest_params c params) in
         try* resp := httpGet net baseUrl None [("Authorization", authHeader)] in
         let ok := in_2xx_3xx (resp_status resp) in
         ret (Returned (http_result target c ok (Some (resp_status resp))
                (if ok
                 then "HTTP " ++ Js.string_of_Z (resp_status resp)
                      ++ " — authenticated access granted via Digest auth"
                 else "HTTP " ++ Js.string_of_Z (resp_status resp)
                      ++ " — Digest authentication failed")
                ts))
     | A_form =>
         let* found := formLogin net target c ts loginEndpoints in
         match found with
         | Some r => ret (Returned r)
         | None => generic_attempt net target c ts
         end
     | A_none | A_bearer => generic_attempt net target c ts
     end)
    (fun message =>
       http_result target c false None ("Connection error: " ++ message) ts).

Definition testRtspAuth (net : Network) (target : FingerprintResult) (c : Credential)
    : M CredentialTestResult :=
  let* ts := isoNow net in
  let rtspPort := rtspPort_of target in
  let testPath := testPath_of target in
  try_catch
    (try* result := rtspDescribe net (ip target) rtspPort testPath (Some c) in
     let ok := statusCode result =? 200 in
     ret (Returned (rtsp_result target rtspPort c ok (Some (statusCode result))
            (if ok
             then "RTSP " ++ Js.string_of_Z (statusCode result)
                  ++ " — stream access granted at " ++ testPath
             else "RTSP " ++ Js.string_of_Z (statusCode result)
                  ++ " — authentication failed")
            ts)))
    (fun message =>
       rtsp_result target rtspPort c false None ("RTSP error: " ++ message) ts).

Definition testHost (net : Network) (target : FingerprintResult) (config : VeilcamsConfig)
    : M (list CredentialTestResult) :=
  testHost_loop (testHttpAuth net) (testRtspAuth net) target config
    (buildCredentialList target config) 0 false [].

End PlainTester.

(** ** The credential tester with baseline validation ([src/unnamed/part_002]) *)

Module BaselineTester.

Definition set_baseline (url : string) (b : Snapshot) : M unit :=
  fun w => (tt, {| calls := calls w; draws := draws w;
                   baselineCache := <[url := b]> (baselineCache w);
                   rtspUnauthCache := rtspUnauthCache w |}).

Definition set_rtspUnauth (key : string) (b : bool) : M unit :=
  fun w => (tt, {| calls := calls w; draws := draws w;
                   baselineCache := baselineCache w;
                   rtspUnauthCache := <[key := b]> (rtspUnauthCache w) |}).

Definition getBaseline (net : Network) (baseUrl : string) : M Snapshot :=
  fun w =>
    match baselineCache w !! baseUrl with
    | Some cached => (cached, w)
    | None =>
        (let* o := httpGet net baseUrl None [] in
         let baseline :=
           match o with
           | Returned resp =>
               {| status := resp_status resp; body := body_text (resp_data resp) |}
           | Thrown _ => {| status := -1; body := "" |}
           end in
         let* _ := set_baseline baseUrl baseline in
         ret baseline) w
    end.

Definition getVendorLoginEndpoints (v : CameraVendor) : list string :=
  match v with
  | V_hikvision => ["/ISAPI/Security/userCheck"; "/ISAPI/Security/userValidate"]
  | V_dahua => ["/RPC2_Login"; "/cgi-bin/global.login"]
  | V_axis => ["/axis-cgi/param.cgi?action=list&group=root.Properties"]
  | V_reolink => ["/api.cgi?cmd=Login"]
  | V_amcrest => ["/RPC2_Login"]
  | V_foscam => ["/cgi-bin/CGIProxy.fcgi?cmd=logIn"]
  | _ => ["/ISAPI/Security/userCheck"; "/RPC2_Login"; "/api.cgi?cmd=Login";
          "/login"; "/cgi-bin/global.login"]
  end.

(** A JSON member: the name between double quotes, a colon with optional
    white space around it, and the value. *)
Definition json_member (name : string) (value : Regex.regex) : Regex.regex :=
  Regex.seq [Regex.iword Js.dq; Regex.iword name; Regex.iword Js.dq;
             Regex.Star Regex.space; Regex.iword ":"; Regex.Star Regex.space; value].

(** The pattern of [hasExplicitSuccess]. *)
Definition explicitSuccess : Regex.regex :=
  Regex.alts
    [ json_member "success" (Regex.iword "true");
      json_member "statusValue" (Regex.iword "200");
      json_member "result" (Regex.iword "true");
      json_member "authorized" (Regex.iword "true");
      Regex.iword "token";
      Regex.iword "sessionID" ].

(** The pattern of [hasErrorIndicators]. *)
Definition errorIndicators : Regex.regex :=
  Regex.alts
    [ Regex.iword "error"; Regex.iword "fail"; Regex.iword "invalid";
      Regex.iword "wrong"; Regex.iword "denied"; Regex.iword "unauthorized";
      json_member "success" (Regex.iword "false");
      json_member "statusValue"
        (Regex.seq [Regex.Class (fun x => (Js.code x =? 52) || (Js.code x =? 53));
                    Regex.digit; Regex.digit]) ].

(** The loop over the login endpoints of the vendor. *)
Fixpoint vendorLogin (net : Network) (target : FingerprintResult) (c : Credential)
    (ts : string) (endpoints : list string) : M (option CredentialTestResult) :=
  match endpoints with
  | [] => ret None
  | endpoint :: rest =>
      let* o := httpPost net (baseUrl_of target ++ endpoint)
                  [("userName", username c); ("password", password c);
                   ("username", username c)] in
      match o with
      | Returned resp =>
          let body := body_text (resp_data resp) in
          let hasExplicitSuccess := Regex.test explicitSuccess body in
          let hasErrorIndicators := Regex.test errorIndicators body in
          if (resp_status resp =? 200) && hasExplicitSuccess && negb hasErrorIndicators then
            ret (Some (http_result target c true (Some (resp_status resp))
                   ("HTTP " ++ Js.string_of_Z (resp_status resp) ++ " via " ++ endpoint
                    ++ " — vendor API login confirmed (explicit success response)") ts))
          else vendorLogin net target c ts rest
      | Thrown _ => vendorLogin net target c ts rest
      end
  end.

Definition generic_fallback (net : Network) (target : FingerprintResult) (c : Credential)
    (ts : string) (baseline : Snapshot) : M (Outcome CredentialTestResult) :=
  try* resp := httpGet net (baseUrl_of target) (Some c) [] in
  let authedBody := body_text (resp_data resp) in
  let statusOk := in_2xx_3xx (resp_status resp) && negb (resp_status resp =? 401) in
  let genuineAuth :=
    statusOk && isAuthenticatedResponseDifferent baseline
                  {| status := resp_status resp; body := authedBody |} in
  ret (Returned (http_result target c genuineAuth (Some (resp_status resp))
         (if genuineAuth
          then "HTTP " ++ Js.string_of_Z (resp_status resp)
               ++ " — authenticated access granted (verified against unauthenticated baseline)"
          else if statusOk
          then "HTTP " ++ Js.string_of_Z (resp_status resp)
               ++ " — server responds identically with and without credentials"
          else "HTTP " ++ Js.string_of_Z (resp_status resp) ++ " — authentication failed")
         ts)).

Definition testHttpAuth (net : Network) (target : FingerprintResult) (c : Credential)
    : M CredentialTestResult :=
  let baseUrl := baseUrl_of target in
  let* ts := isoNow net in
  try_catch
    (let* baseline := getBaseline net baseUrl in
     match authType target with
     | A_basic | A_unknown =>
         try* resp := httpGet net baseUrl (Some c) [] in
         let authedBody := body_text (resp_data resp) in
         let statusOk := in_2xx_3xx (resp_status resp) && negb (resp_status resp =? 401) in
         let genuineAuth :=
           statusOk && isAuthenticatedResponseDifferent baseline
                         {| status := resp_status resp; body := authedBody |} in
         ret (Returned (http_result target c genuineAuth (Some (resp_status resp))
                (if genuineAuth
                 then "HTTP " ++ Js.string_of_Z (resp_status resp)
                      ++ " — authenticated access granted via Basic auth (verified against unauthenticated baseline)"
                 else if statusOk
                 then "HTTP " ++ Js.string_of_Z (resp_status resp)
                      ++ " — server responds identically with and without credentials (no auth enforced on root page)"
                 else "HTTP " ++ Js.string_of_Z (resp_status resp) ++ " — authentication failed")
                ts))
     | A_digest =>
         try* challengeResp := httpGet net baseUrl None [] in
         let wwwAuth := header_or_empty "www-authenticate" (resp_headers challengeResp) in
         let params := parseWwwAuthenticate wwwAuth in
         let* authHeader := computeDigestAuthM net (digest_params c params) in
         try* resp := httpGet net baseUrl None [("Authorization", authHeader)] in
         let authedBody := body_text (resp_data resp) in
         let statusOk := in_2xx_3xx (resp_status resp) in
         let genuineAuth :=
           statusOk && isAuthenticatedResponseDifferent
                         {| status := resp_status challengeResp;
                            body := string_or_empty (resp_data challengeResp) |}
                         {| status := resp_status resp; body := authedBody |} in
         ret (Returned (http_result target c genuineAuth (Some (resp_status resp))
                (if genuineAuth
                 then "HTTP " ++ Js.string_of_Z (resp_status resp)
                      ++ " — authenticated access granted via Digest auth (challenge was "
                      ++ Js.string_of_Z (resp_status challengeResp) ++ ")"
                 else "HTTP " ++ Js.string_of_Z (resp_status resp)
                      ++ " — Digest authentication failed")
                ts))
     | A_form =>
         let* found := formLogin net target c ts loginEndpoints in
         match found with
         | Some r => ret (Returned r)
         | None => generic_fallback net target c ts baseline
         end
     | A_none =>
         let* found := vendorLogin net target c ts (getVendorLoginEndpoints (vendor target)) in
         match found with
         | Some r => ret (Returned r)
         | None =>
             ret (Returned (http_result target c false (Some (status baseline))
                    "No authentication enforced on root page — tested vendor API endpoints, no valid login confirmed"
                    ts))
         end
     | A_bearer => generic_fallback net target c ts baseline
     end)
    (fun message =>
       http_result target c false None ("Connection error: " ++ message) ts).

Definition rtsp_key (host : string) (p : Z) (streamPath : string) : string :=
  host ++ ":" ++ Js.string_of_Z p ++ ":" ++ streamPath.

Definition isRtspUnauthenticated (net : Network) (host : string) (p : Z)
    (streamPath : string) : M bool :=
  fun w =>
    let key := rtsp_key host p streamPath in
    match rtspUnauthCache w !! key with
    | Some cached => (cached, w)
    | None =>
        (let* o := rtspDescribe net host p streamPath None in
         let isOpen :=
           match o with
           | Returned result => statusCode result =? 200
           | Thrown _ => false
           end in
         let* _ := set_rtspUnauth key isOpen in
         ret isOpen) w
    end.

Definition unauth_evidence (testPath : string) : string :=
  "RTSP stream at " ++ testPath
  ++ " is accessible without any credentials — credential test not applicable (unauthenticated access is the real finding)".

Definition testRtspAuth (net : Network) (target : FingerprintResult) (c : Credential)
    : M CredentialTestResult :=
  let* ts := isoNow net in
  let rtspPort := rtspPort_of target in
  let testPath := testPath_of target in
  try_catch
    (let* unauthOpen := isRtspUnauthenticated net (ip target) rtspPort testPath in
     if unauthOpen then
       ret (Returned (rtsp_result target rtspPort c false (Some 200)
              (unauth_evidence testPath) ts))
     else
       try* result := rtspDescribe net (ip target) rtspPort testPath (Some c) in
       let ok := statusCode result =? 200 in
       ret (Returned (rtsp_result target rtspPort c ok (Some (statusCode result))
              (if ok
               then "RTSP " ++ Js.string_of_Z (statusCode result)
                    ++ " — stream access granted at " ++ testPath
                    ++ " (unauthenticated access was denied, credential is valid)"
               else "RTSP " ++ Js.string_of_Z (statusCode result)
                    ++ " — authentication failed")
              ts)))
    (fun message =>
       rtsp_result target rtspPort c false None ("RTSP error: " ++ message) ts).

Definition testHost (net : Network) (target : FingerprintResult) (config : VeilcamsConfig)
    : M (list CredentialTestResult) :=
  testHost_loop (testHttpAuth net) (testRtspAuth net) target config
    (buildCredentialList target config) 0 false [].

End BaselineTester.

(** ** The case analysis of the specification, read literally

    A second definition of the comparison, written from the words of the
    specification, to be compared with [isAuthenticatedResponseDifferent]. *)

Module SpecReading.

Definition markers : list string :=
  ["logout"; "sign-out"; "dashboard"; "welcome"; "session"; "authenticated"; "token"].

(** The body contains the marker; letters are compared without regard to
    case, the least demanding reading. *)
Definition contains (marker text : string) : bool :=
  Js.includes (Js.toLowerCase marker) (Js.toLowerCase text).

(** The authenticated body contains a marker that the baseline lacks. *)
Definition new_marker (baseline authed : string) : bool :=
  existsb (fun m => contains m authed && negb (contains m baseline)) markers.

Definition isDifferent (baseline authed : Snapshot) : bool :=
  let sizeDiff := Z.abs (Js.strlen (body baseline) - Js.strlen (body authed)) in
  let larger := Z.max (Js.strlen (body baseline)) (Js.strlen (body authed)) in
  (((status baseline =? 401) || (status baseline =? 403)) && in_2xx_3xx (status authed))
  || ((status baseline =? -1) && in_2xx_3xx (status authed))
  || ((status baseline =? status authed)
      && negb (String.eqb (body baseline) (body authed))
      && (larger <=? 10 * sizeDiff))
  || ((status baseline =? status authed)
      && (10 * sizeDiff <? larger)
      && new_marker (body baseline) (body authed))
  || (in_2xx_3xx (status authed) && (400 <=? status baseline)).

End SpecReading.

(** [for (const x of xs) await f(x)], collecting the results. *)
Fixpoint for_each {A B : Type} (f : A -> M B) (xs : list A) : M (list B) :=
  match xs with
  | [] => ret []
  | x :: rest =>
      let* y := f x in
      let* ys := for_each f rest in
      ret (y :: ys)
  end.

(** ** Protocol fuzzer: who fuzzes RTSP for an address *)

(** [`${target.ip}:${target.port}`] *)
Definition targetKey (target : FingerprintResult) : string :=
  ip target ++ ":" ++ Js.string_of_Z (port target).

(** [parseInt(existingOwner.split(':')[1])]; a missing element is
    [undefined], which [parseInt] reads as the text [undefined]. *)
Definition owner_port (existingOwner : string) : option Z :=
  Js.parseInt (nth 1 (Js.split ":" existingOwner) "undefined").

(** [rtspPorts.includes(n)] for a number that may be [NaN]. *)
Definition rtspPorts_include (n : option Z) : bool :=
  match n with
  | Some p => bool_decide (p ∈ rtspPorts)
  | None => false
  end.

(** One turn of the loop that fills [rtspFuzzOwner]. *)
Definition elect (config : VeilcamsConfig) (owners : gmap string string)
    (target : FingerprintResult) : gmap string string :=
  if protocols_rtsp config && protocols_include P_rtsp target then
    let ownerKey := ip target in
    let key := targetKey target in
    match owners !! ownerKey with
    | None => <[ownerKey := key]> owners
    | Some existingOwner =>
        if String.eqb existingOwner "" then <[ownerKey := key]> owners
        else if bool_decide (port target ∈ rtspPorts)
                && negb (rtspPorts_include (owner_port existingOwner))
        then <[ownerKey := key]> owners
        else owners
    end
  else owners.

(** The map [rtspFuzzOwner] after the loop over the targets. *)
Definition rtspFuzzOwner (config : VeilcamsConfig) (targets : list FingerprintResult)
    : gmap string string :=
  fold_left (elect config) targets ∅.

(** [rtspFuzzOwner.get(target.ip) !== targetKey] *)
Definition skipRtsp (owners : gmap string string) (target : FingerprintResult) : bool :=
  negb (bool_decide (owners !! ip target = Some (targetKey target))).

(** The condition under which [fuzzHost] runs [fuzzRtspPaths]. *)
Definition fuzzes_rtsp (config : VeilcamsConfig) (targets : list FingerprintResult)
    (target : FingerprintResult) : bool :=
  protocols_rtsp config && protocols_include P_rtsp target
  && negb (skipRtsp (rtspFuzzOwner config targets) target).

(** ** Bounded parallel execution ([parallelLimit])

    JavaScript runs one piece of code at a time and switches only at an
    [await].  A worker is therefore either at the head of its loop, or
    waiting for the task that it started, or done; one step moves one worker
    to its next stop.  Which worker moves next is not determined. *)

Module Pool.

(** [PromiseSettledResult<T>] *)
Inductive Settled (T : Type) : Type :=
| fulfilled (value : T)
| rejected (reason : string).
Arguments fulfilled {T} value.
Arguments rejected {T} reason.

(** What [try { value = await task() } catch (reason) { }] records. *)
Definition settle {T : Type} (o : Outcome T) : Settled T :=
  match o with
  | Returned value => fulfilled value
  | Thrown reason => rejected reason
  end.

Inductive Worker : Type :=
| AtLoopHead
| Awaiting (currentIndex : nat)
| Finished.

#[global] Instance Worker_eq_dec : EqDecision Worker.
Proof. solve_decision. Defined.

(** The variables of one call: the shared [index], the [results] array
    (with its empty slots) and the workers. *)
Record State (T : Type) : Type := mkState {
  index : nat;
  results : list (option (Settled T));
  workers : list Worker
}.
Arguments mkState {T} index results workers.
Arguments index {T} s.
Arguments results {T} s.
Arguments workers {T} s.

(** [results[i] = x]: an assignment past the end extends the array. *)
Definition array_set {A : Type} (i : nat) (x : A) (l : list (option A)) : list (option A) :=
  if (i <? length l)%nat then <[i := Some x]> l
  else (l ++ replicate (i - length l) None ++ [Some x])%list.

Section Run.

Context {T : Type}.
Variable tasks : list (Outcome T).

(** [Math.min(concurrency, tasks.length)] workers; a length that is not
    positive gives no worker. *)
Definition worker_count (concurrency : Z) : nat :=
  Z.to_nat (Z.min concurrency (Z.of_nat (length tasks))).

(** Before any worker has run. *)
Definition init (concurrency : Z) : State T :=
  {| index := 0;
     results := replicate (length tasks) None;
     workers := replicate (worker_count concurrency) AtLoopHead |}.

(** Worker [k] runs to its next stop. *)
Definition step_worker (k : nat) (s : State T) : option (State T) :=
  match workers s !! k with
  | Some AtLoopHead =>
      if (index s <? length tasks)%nat
      then Some {| index := S (index s); results := results s;
                   workers := <[k := Awaiting (index s)]> (workers s) |}
      else Some {| index := index s; results := results s;
                   workers := <[k := Finished]> (workers s) |}
  | Some (Awaiting i) =>
      let settled :=
        match tasks !! i with
        | Some o => settle o
        | None => rejected "TypeError: tasks[currentIndex] is not a function"
        end in
      Some {| index := index s; results := array_set i settled (results s);
              workers := <[k := AtLoopHead]> (workers s) |}
  | Some Finished => None
  | None => None
  end.

Definition step (s s' : State T) : Prop := exists k, step_worker k s = Some s'.

(** [Promise.all(workers)] is resolved. *)
Definition terminal (s : State T) : Prop := Forall (fun w => w = Finished) (workers s).

Definition is_awaiting (w : Worker) : bool :=
  match w with Awaiting _ => true | _ => false end.

Definition is_finished (w : Worker) : bool :=
  match w with Finished => true | _ => false end.

(** The number of tasks that have been started and have not settled. *)
Definition in_flight (s : State T) : nat := length (List.filter is_awaiting (workers s)).

(** The first worker that is not done. *)
Fixpoint first_active (ws : list Worker) : option nat :=
  match ws with
  | [] => None
  | w :: rest => if is_finished w then option_map S (first_active rest) else Some 0%nat
  end.

(** The run in which the first worker that can move always moves. *)
Fixpoint run (fuel : nat) (s : State T) : State T :=
  match fuel with
  | O => s
  | S fuel' =>
      match first_active (workers s) with
      | Some k =>
          match step_worker k s with
          | Some s' => run fuel' s'
          | None => s
          end
      | None => s
      end
  end.

(** The array that [parallelLimit] resolves with in that run, when the fuel
    suffices for all workers to be done. *)
Definition parallelLimit (concurrency : Z) (fuel : nat) : option (list (option (Settled T))) :=
  let s := run fuel (init concurrency) in
  if forallb is_finished (workers s) then Some (results s) else None.

End Run.

End Pool.

(** ** Module results (the fields that the workflow and the audit read) *)

Record DiscoveredHost : Type := mkHost {
  dh_ip : string; dh_port : Z; dh_service : string; dh_banner : string
}.

Record DiscoveryResult : Type := mkDiscovery {
  hosts : list DiscoveredHost; scanDurationMs : Z; targetsScanned : Z
}.

Record CredentialModuleResult : Type := mkCredentialModule {
  cr_results : list CredentialTestResult;
  cr_totalAttempts : Z;
  successfulLogins : Z;
  hostsCompromised : Z;
  cr_durationMs : Z
}.

Record CveTestResult : Type := mkCveTest { cveId : string; vulnerable : bool }.

Record CveModuleResult : Type := mkCveModule {
  cve_results : list CveTestResult;
  totalChecks : Z;
  vulnerabilitiesFound : Z;
  criticalCount : Z;
  highCount : Z;
  cve_durationMs : Z
}.

Record ProtocolFinding : Type := mkFinding {
  pf_path : string; pf_severity : string; pf_authenticated : bool
}.

Record ProtocolModuleResult : Type := mkProtocolModule {
  findings : list ProtocolFinding;
  pathsTested : Z;
  findingsCount : Z;
  pr_durationMs : Z
}.

Record ExploitationModuleResult : Type := mkExploitationModule {
  ex_results : list string;
  ex_totalAttempts : Z;
  successfulExploits : Z;
  failedExploits : Z;
  skippedNoModule : Z;
  ex_durationMs : Z
}.

Record TargetSpec : Type := mkTargetSpec {
  ts_host : option string; ts_range : option string; ts_ports : list Z
}.

Record PipelineInput : Type := mkPipelineInput {
  targets : list TargetSpec;
  outputPath : string;
  configPath : option string;
  pipelineTestingMode : bool
}.

(** [baseInput] of the workflow. *)
Record BaseInput : Type := mkBaseInput {
  b_sessionId : string;
  b_outputPath : string;
  b_configPath : option string;
  b_pipelineTestingMode : bool
}.

Record ReportActivityInput : Type := mkReportInput {
  ri_base : BaseInput;
  ri_discoveryResult : DiscoveryResult;
  ri_fingerprints : list FingerprintResult;
  ri_credentialResult : CredentialModuleResult;
  ri_cveResult : CveModuleResult;
  ri_protocolResult : ProtocolModuleResult;
  ri_exploitationResult : option ExploitationModuleResult;
  ri_startTime : string;
  ri_totalDurationMs : Z
}.

(** The results that the workflow puts in the place of a failed module. *)
Definition zero_credential : CredentialModuleResult :=
  {| cr_results := []; cr_totalAttempts := 0; successfulLogins := 0;
     hostsCompromised := 0; cr_durationMs := 0 |}.

Definition zero_cve : CveModuleResult :=
  {| cve_results := []; totalChecks := 0; vulnerabilitiesFound := 0;
     criticalCount := 0; highCount := 0; cve_durationMs := 0 |}.

Definition zero_protocol : ProtocolModuleResult :=
  {| findings := []; pathsTested := 0; findingsCount := 0; pr_durationMs := 0 |}.

Definition zero_exploitation : ExploitationModuleResult :=
  {| ex_results := []; ex_totalAttempts := 0; successfulExploits := 0;
     failedExploits := 0; skippedNoModule := 0; ex_durationMs := 0 |}.

(** ** The pipeline workflow ([temporal/workflows.ts]) *)

Module Workflow.

Record WorkflowState : Type := mkWorkflowState {
  currentPhase : string;
  currentModule : option string;
  completedModules : list string;
  failedModules : list string;
  moduleStatuses : gmap string string;
  startTime : string
}.

(** The activities behind [proxyActivities]: each call acts on the session
    directory and settles, after the retries of the engine, with a result
    or a failure. *)
Record Activities (Session : Type) : Type := mkActivities {
  runDiscoveryActivity :
    BaseInput -> list TargetSpec -> St Session (Outcome DiscoveryResult);
  runFingerprintActivity :
    BaseInput -> DiscoveryResult -> St Session (Outcome (list FingerprintResult));
  runCredentialTesterActivity :
    BaseInput -> list FingerprintResult -> St Session (Outcome CredentialModuleResult);
  runCveScannerActivity :
    BaseInput -> list FingerprintResult -> St Session (Outcome CveModuleResult);
  runProtocolFuzzerActivity :
    BaseInput -> list FingerprintResult -> St Session (Outcome ProtocolModuleResult);
  runExploitationActivity :
    BaseInput -> list FingerprintResult -> CveModuleResult ->
    St Session (Outcome ExploitationModuleResult);
  runReportActivity : ReportActivityInput -> St Session (Outcome string)
}.
Arguments runDiscoveryActivity {Session} a.
Arguments runFingerprintActivity {Session} a.
Arguments runCredentialTesterActivity {Session} a.
Arguments runCveScannerActivity {Session} a.
Arguments runProtocolFuzzerActivity {Session} a.
Arguments runExploitationActivity {Session} a.
Arguments runReportActivity {Session} a.

(** What one run of the workflow has: its state, the session directory, and
    the activities that it has invoked so far, oldest first. *)
Record Run (Session : Type) : Type := mkRun {
  state : WorkflowState;
  session : Session;
  invoked : list string
}.
Arguments mkRun {Session} state session invoked.
Arguments state {Session} r.
Arguments session {Session} r.
Arguments invoked {Session} r.

Section Pipeline.

Context {Session : Type}.
Variable acts : Activities Session.

Local Abbreviation W := (St (Run Session)).

Definition update (f : WorkflowState -> WorkflowState) : W unit :=
  fun r => (tt, {| state := f (state r); session := session r; invoked := invoked r |}).

(** [await activity(input)] *)
Definition invoke {A : Type} (name : string) (activity : St Session (Outcome A))
    : W (Outcome A) :=
  fun r =>
    let '(o, s') := activity (session r) in
    (o, {| state := state r; session := s'; invoked := (invoked r ++ [name])%list |}).

Definition set_phase (phase : string) (module : option string) : W unit :=
  update (fun st =>
    {| currentPhase := phase; currentModule := module;
       completedModules := completedModules st; failedModules := failedModules st;
       moduleStatuses := moduleStatuses st; startTime := startTime st |}).

(** [state.moduleStatuses[module] = status] *)
Definition set_status (module status : string) : W unit :=
  update (fun st =>
    {| currentPhase := currentPhase st; currentModule := currentModule st;
       completedModules := completedModules st; failedModules := failedModules st;
       moduleStatuses := <[module := status]> (moduleStatuses st);
       startTime := startTime st |}).

(** [state.completedModules.push(module)] and the status [completed] *)
Definition mark_completed (module : string) : W unit :=
  let* _ := update (fun st =>
    {| currentPhase := currentPhase st; currentModule := currentModule st;
       completedModules := (completedModules st ++ [module])%list;
       failedModules := failedModules st;
       moduleStatuses := moduleStatuses st; startTime := startTime st |}) in
  set_status module "completed".

(** [state.failedModules.push(module)] and the status [failed] *)
Definition mark_failed (module : string) : W unit :=
  let* _ := update (fun st =>
    {| currentPhase := currentPhase st; currentModule := currentModule st;
       completedModules := completedModules st;
       failedModules := (failedModules st ++ [module])%list;
       moduleStatuses := moduleStatuses st; startTime := startTime st |}) in
  set_status module "failed".

(** A branch of [Promise.allSettled]: the value when fulfilled, the zeroed
    result when rejected, with the bookkeeping of the module. *)
Definition settle_branch {A : Type} (module : string) (zero : A) (settled : Outcome A)
    : W A :=
  match settled with
  | Returned value => let* _ := mark_completed module in ret value
  | Thrown _ => let* _ := mark_failed module in ret zero
  end.

(** [veilcamsPipelineWorkflow(input)].  [sessionId], [now] and [elapsed]
    stand for [Date.now()] and [new Date()] as the workflow reads them. *)
Definition veilcamsPipelineWorkflow (input : PipelineInput)
    (sessionId now : string) (elapsed : Z) : W (Outcome unit) :=
  let* _ := update (fun _ =>
    {| currentPhase := "discovery"; currentModule := None;
       completedModules := []; failedModules := [];
       moduleStatuses := ∅; startTime := now |}) in
  let baseInput :=
    {| b_sessionId := sessionId; b_outputPath := outputPath input;
       b_configPath := configPath input;
       b_pipelineTestingMode := pipelineTestingMode input |} in
  (* Phase 1: discovery *)
  let* _ := set_phase "discovery" (Some "discovery") in
  let* _ := set_status "discovery" "running" in
  let* discovery := invoke "discovery"
                      (runDiscoveryActivity acts baseInput (targets input)) in
  match discovery with
  | Thrown message =>
      let* _ := mark_failed "discovery" in
      ret (Thrown ("Discovery phase failed: " ++ message))
  | Returned discoveryResult =>
      let* _ := mark_completed "discovery" in
      if bool_decide (hosts discoveryResult = []) then
        let* _ := set_phase "reporting" (Some "report") in
        let* report := invoke "report"
          (runReportActivity acts
             {| ri_base := baseInput; ri_discoveryResult := discoveryResult;
                ri_fingerprints := []; ri_credentialResult := zero_credential;
                ri_cveResult := zero_cve; ri_protocolResult := zero_protocol;
                ri_exploitationResult := None; ri_startTime := now;
                ri_totalDurationMs := elapsed |}) in
        match report with
        | Returned _ => ret (Returned tt)
        | Thrown message => ret (Thrown message)
        end
      else
        (* Phase 2: fingerprinting *)
        let* _ := set_phase "fingerprinting" (Some "fingerprint") in
        let* _ := set_status "fingerprint" "running" in
        let* fingerprint := invoke "fingerprint"
                              (runFingerprintActivity acts baseInput discoveryResult) in
        match fingerprint with
        | Thrown message =>
            let* _ := mark_failed "fingerprint" in
            ret (Thrown ("Fingerprinting phase failed: " ++ message))
        | Returned fingerprints =>
            let* _ := mark_completed "fingerprint" in
            (* Phase 3: the three testers.  They run at the same time; their
               effects on the session directory are taken in this order. *)
            let* _ := set_phase "testing" None in
            let* _ := set_status "credential-tester" "running" in
            let* _ := set_status "cve-scanner" "running" in
            let* _ := set_status "protocol-fuzzer" "running" in
            let* credentialSettled := invoke "credential-tester"
                (runCredentialTesterActivity acts baseInput fingerprints) in
            let* cveSettled := invoke "cve-scanner"
                (runCveScannerActivity acts baseInput fingerprints) in
            let* protocolSettled := invoke "protocol-fuzzer"
                (runProtocolFuzzerActivity acts baseInput fingerprints) in
            let* credentialResult :=
              settle_branch "credential-tester" zero_credential credentialSettled in
            let* cveResult := settle_branch "cve-scanner" zero_cve cveSettled in
            let* protocolResult :=
              settle_branch "protocol-fuzzer" zero_protocol protocolSettled in
            (* Phase 3.5: exploitation *)
            let* exploitationResult :=
              if 0 <? vulnerabilitiesFound cveResult then
                let* _ := set_phase "exploitation" (Some "exploitation") in
                let* _ := set_status "exploitation" "running" in
                let* exploitation := invoke "exploitation"
                    (runExploitationActivity acts baseInput fingerprints cveResult) in
                match exploitation with
                | Returned value =>
                    let* _ := mark_completed "exploitation" in ret (Some value)
                | Thrown _ =>
                    let* _ := mark_failed "exploitation" in ret (Some zero_exploitation)
                end
              else
                let* _ := set_status "exploitation" "skipped" in ret None in
            (* Phase 4: reporting *)
            let* _ := set_phase "reporting" (Some "report") in
            let* _ := set_status "report" "running" in
            let* report := invoke "report"
              (runReportActivity acts
                 {| ri_base := baseInput; ri_discoveryResult := discoveryResult;
                    ri_fingerprints := fingerprints;
                    ri_credentialResult := credentialResult;
                    ri_cveResult := cveResult; ri_protocolResult := protocolResult;
                    ri_exploitationResult := exploitationResult;
                    ri_startTime := now; ri_totalDurationMs := elapsed |}) in
            match report with
            | Returned _ =>
                let* _ := mark_completed "report" in ret (Returned tt)
            | Thrown message =>
                let* _ := mark_failed "report" in
                ret (Thrown ("Report generation failed: " ++ message))
            end
        end
  end.

End Pipeline.

(** The run before the workflow starts. *)
Definition start {Session : Type} (s : Session) : Run Session :=
  {| state := {| currentPhase := ""; currentModule := None; completedModules := [];
                 failedModules := []; moduleStatuses := ∅; startTime := "" |};
     session := s; invoked := [] |}.

End Workflow.

(** ** The audit of a session ([audit/metrics-tracker.ts], [audit/index.ts],
       [audit/workflow-logger.ts]) *)

Module Audit.

Inductive SessionStatus : Type := S_running | S_completed | S_failed.

Inductive ModuleStatus : Type :=
| M_pending | M_running | M_completed | M_failed | M_skipped.

#[global] Instance SessionStatus_eq_dec : EqDecision SessionStatus.
Proof. solve_decision. Defined.

(** [MODULE_PHASE_MAP] *)
Definition MODULE_PHASE_MAP (module : string) : string :=
  if String.eqb module "discovery" then "discovery"
  else if String.eqb module "fingerprint" then "fingerprinting"
  else if String.eqb module "credential-tester" then "testing"
  else if String.eqb module "cve-scanner" then "testing"
  else if String.eqb module "protocol-fuzzer" then "testing"
  else if String.eqb module "exploitation" then "exploitation"
  else "reporting".

Record ModuleMetrics : Type := mkModuleMetrics {
  mm_name : string;
  mm_phase : string;
  mm_status : ModuleStatus;
  mm_startTime : option string;
  mm_endTime : option string;
  mm_attempt : Z;
  mm_error : option string
}.

Record Summary : Type := mkSummary {
  hostsScanned : Z;
  hostsIdentified : Z;
  credentialsFound : Z;
  sum_vulnerabilitiesFound : Z;
  protocolFindings : Z;
  exploitsSuccessful : Z
}.

Record SessionMetrics : Type := mkSessionMetrics {
  sessionId : string;
  sm_startTime : string;
  sm_endTime : option string;
  sm_status : SessionStatus;
  modules : gmap string ModuleMetrics;
  sm_error : option string;
  summary : option Summary
}.

(** The session directory: [session.json], when it exists, and the lines of
    [workflow.log] without their time stamps. *)
Record SessionDir : Type := mkSessionDir {
  session_json : option SessionMetrics;
  workflow_log : list string
}.

Definition empty_dir : SessionDir := {| session_json := None; workflow_log := [] |}.

(** An [AuditSession] at work: the metrics that its tracker holds in memory,
    and the directory. *)
Record AuditState : Type := mkAuditState {
  metrics : SessionMetrics;
  dir : SessionDir
}.

Local Abbreviation A := (St AuditState).

Definition set_metrics (f : SessionMetrics -> SessionMetrics) : A unit :=
  fun a => (tt, {| metrics := f (metrics a); dir := dir a |}).

(** [flushSync]: the file is replaced as a whole. *)
Definition flushSync : A unit :=
  fun a => (tt, {| metrics := metrics a;
                   dir := {| session_json := Some (metrics a);
                             workflow_log := workflow_log (dir a) |} |}).

(** [reload]: the metrics in memory become those of the file, if there is
    one. *)
Definition reload : A unit :=
  fun a => (tt, {| metrics := match session_json (dir a) with
                              | Some m => m
                              | None => metrics a
                              end;
                   dir := dir a |}).

(** [appendFileSync(workflow.log, line)] *)
Definition log_line (line : string) : A unit :=
  fun a => (tt, {| metrics := metrics a;
                   dir := {| session_json := session_json (dir a);
                             workflow_log := (workflow_log (dir a) ++ [line])%list |} |}).

(** [new MetricsTracker(outputDir, sessionId)] *)
Definition new_metrics (sessionId now : string) : SessionMetrics :=
  {| sessionId := sessionId; sm_startTime := now; sm_endTime := None;
     sm_status := S_running; modules := ∅; sm_error := None; summary := None |}.

(** [new AuditSession({ sessionId, outputDir })] over a directory. *)
Definition new_session (sessionId now : string) (d : SessionDir) : AuditState :=
  {| metrics := new_metrics sessionId now; dir := d |}.

Module MetricsTracker.

Definition startModule (moduleName : string) (attempt : Z) (now : string) : A unit :=
  let* _ := set_metrics (fun m =>
    {| sessionId := sessionId m; sm_startTime := sm_startTime m;
       sm_endTime := sm_endTime m; sm_status := sm_status m;
       modules := <[moduleName :=
                     {| mm_name := moduleName; mm_phase := MODULE_PHASE_MAP moduleName;
                        mm_status := M_running; mm_startTime := Some now;
                        mm_endTime := None; mm_attempt := attempt;
                        mm_error := None |}]> (modules m);
       sm_error := sm_error m; summary := summary m |}) in
  flushSync.

Definition endModule (moduleName : string) (ok : bool) (error : option string)
    (now : string) : A unit :=
  fun a =>
    match modules (metrics a) !! moduleName with
    | None => (tt, a)
    | Some md =>
        (let* _ := set_metrics (fun m =>
           {| sessionId := sessionId m; sm_startTime := sm_startTime m;
              sm_endTime := sm_endTime m; sm_status := sm_status m;
              modules := <[moduleName :=
                            {| mm_name := mm_name md; mm_phase := mm_phase md;
                               mm_status := if ok then M_completed else M_failed;
                               mm_startTime := mm_startTime md;
                               mm_endTime := Some now; mm_attempt := mm_attempt md;
                               mm_error := if truthy error then error else mm_error md |}]>
                         (modules m);
              sm_error := sm_error m; summary := summary m |}) in
         flushSync) a
    end.

Definition skipModule (moduleName : string) : A unit :=
  let* _ := set_metrics (fun m =>
    {| sessionId := sessionId m; sm_startTime := sm_startTime m;
       sm_endTime := sm_endTime m; sm_status := sm_status m;
       modules := <[moduleName :=
                     {| mm_name := moduleName; mm_phase := MODULE_PHASE_MAP moduleName;
                        mm_status := M_skipped; mm_startTime := None;
                        mm_endTime := None; mm_attempt := 0; mm_error := None |}]>
                  (modules m);
       sm_error := sm_error m; summary := summary m |}) in
  flushSync.

Definition finalize (s : Summary) (now : string) : A unit :=
  let* _ := set_metrics (fun m =>
    {| sessionId := sessionId m; sm_startTime := sm_startTime m;
       sm_endTime := Some now; sm_status := S_completed;
       modules := modules m; sm_error := sm_error m; summary := Some s |}) in
  flushSync.

Definition markFailed (error now : string) : A unit :=
  let* _ := set_metrics (fun m =>
    {| sessionId := sessionId m; sm_startTime := sm_startTime m;
       sm_endTime := Some now; sm_status := S_failed;
       modules := modules m; sm_error := Some error; summary := summary m |}) in
  flushSync.

End MetricsTracker.

(** The methods of [AuditSession].  The mutex around reload, change and
    flush leaves no trace in the directory. *)
Module AuditSession.

(** [initialize]: the tracker flushes its fresh metrics and the logger
    writes the header of [workflow.log]. *)
Definition initialize : A unit :=
  let* _ := flushSync in
  fun a => (tt, {| metrics := metrics a;
                   dir := {| session_json := session_json (dir a);
                             workflow_log := ["=== VeilCams Workflow Log ==="] |} |}).

Definition startModule (moduleName : string) (attempt : Z) (now : string) : A unit :=
  let* _ := reload in
  let* _ := MetricsTracker.startModule moduleName attempt now in
  log_line ("[" ++ moduleName ++ "] STARTED").

Definition endModule (moduleName : string) (ok : bool) (error : option string)
    (now : string) : A unit :=
  let* _ := reload in
  let* _ := MetricsTracker.endModule moduleName ok error now in
  log_line ("[" ++ moduleName ++ "] " ++ (if ok then "COMPLETED" else "FAILED")).

Definition skipModule (moduleName : string) : A unit :=
  let* _ := reload in
  let* _ := MetricsTracker.skipModule moduleName in
  log_line ("[" ++ moduleName ++ "] SKIPPED").

Definition finalize (s : Summary) (now : string) : A unit :=
  let* _ := reload in
  let* _ := MetricsTracker.finalize s now in
  log_line "=== Workflow completed ===".

Definition markFailed (error now : string) : A unit :=
  let* _ := reload in
  let* _ := MetricsTracker.markFailed error now in
  log_line ("=== Workflow FAILED: " ++ error ++ " ===").

End AuditSession.

End Audit.

(** ** The activities ([temporal/activities.ts]) *)

Module Activities.

Import Audit.

(** What the modules behind the activities settle to.  The scanners, the
    exploitation and the report generator are outside the model; a failure
    of [parseConfig] inside an activity counts as a failure of its module. *)
Record Modules : Type := mkModules {
  runDiscovery : list TargetSpec -> Outcome DiscoveryResult;
  runFingerprinting : DiscoveryResult -> Outcome (list FingerprintResult);
  runCredentialTester : list FingerprintResult -> Outcome CredentialModuleResult;
  runCveScanner : list FingerprintResult -> Outcome CveModuleResult;
  runProtocolFuzzer : list FingerprintResult -> Outcome ProtocolModuleResult;
  runExploitation :
    list FingerprintResult -> CveModuleResult -> Outcome ExploitationModuleResult;
  generateReport : ReportActivityInput -> Outcome string
}.

(** The frame that all seven activities share: a new [AuditSession] is
    initialized, the module is started, and it is ended as completed, then
    [after] runs, or it is ended as failed and the error is thrown again. *)
Definition activity {R : Type} (sessionId now module : string) (work : Outcome R)
    (after : R -> St AuditState unit) : St SessionDir (Outcome R) :=
  fun d =>
    let run : St AuditState (Outcome R) :=
      let* _ := AuditSession.initialize in
      let* _ := AuditSession.startModule module 1 now in
      match work with
      | Returned result =>
          let* _ := AuditSession.endModule module true None now in
          let* _ := after result in
          ret (Returned result)
      | Thrown message =>
          let* _ := AuditSession.endModule module false (Some message) now in
          ret (Thrown message)
      end in
    let '(o, a) := run (new_session sessionId now d) in
    (o, dir a).

Definition nothing {R : Type} (_ : R) : St AuditState unit := ret tt.

Section Wrappers.

Variable mods : Modules.
Variable now : string.

Definition runDiscoveryActivity (base : BaseInput) (targets : list TargetSpec) :=
  activity (b_sessionId base) now "discovery" (runDiscovery mods targets) nothing.

Definition runFingerprintActivity (base : BaseInput) (d : DiscoveryResult) :=
  activity (b_sessionId base) now "fingerprint" (runFingerprinting mods d) nothing.

Definition runCredentialTesterActivity (base : BaseInput) (fps : list FingerprintResult) :=
  activity (b_sessionId base) now "credential-tester" (runCredentialTester mods fps) nothing.

Definition runCveScannerActivity (base : BaseInput) (fps : list FingerprintResult) :=
  activity (b_sessionId base) now "cve-scanner" (runCveScanner mods fps) nothing.

Definition runProtocolFuzzerActivity (base : BaseInput) (fps : list FingerprintResult) :=
  activity (b_sessionId base) now "protocol-fuzzer" (runProtocolFuzzer mods fps) nothing.

Definition runExploitationActivity (base : BaseInput) (fps : list FingerprintResult)
    (cve : CveModuleResult) :=
  activity (b_sessionId base) now "exploitation" (runExploitation mods fps cve) nothing.

(** The report activity finalizes the audit after its module has ended. *)
Definition runReportActivity (input : ReportActivityInput) :=
  activity (b_sessionId (ri_base input)) now "report" (generateReport mods input)
    (fun _ =>
       AuditSession.finalize
         {| hostsScanned := Z.of_nat (length (hosts (ri_discoveryResult input)));
            hostsIdentified := Z.of_nat (length (ri_fingerprints input));
            credentialsFound := successfulLogins (ri_credentialResult input);
            sum_vulnerabilitiesFound := vulnerabilitiesFound (ri_cveResult input);
            protocolFindings := findingsCount (ri_protocolResult input);
            exploitsSuccessful :=
              match ri_exploitationResult input with
              | Some e => successfulExploits e
              | None => 0
              end |}
         now).

(** The activities as the worker registers them. *)
Definition activities : Workflow.Activities SessionDir :=
  {| Workflow.runDiscoveryActivity := runDiscoveryActivity;
     Workflow.runFingerprintActivity := runFingerprintActivity;
     Workflow.runCredentialTesterActivity := runCredentialTesterActivity;
     Workflow.runCveScannerActivity := runCveScannerActivity;
     Workflow.runProtocolFuzzerActivity := runProtocolFuzzerActivity;
     Workflow.runExploitationActivity := runExploitationActivity;
     Workflow.runReportActivity := runReportActivity |}.

End Wrappers.

(** The status in [session.json] after a run. *)
Definition final_status (d : SessionDir) : option SessionStatus :=
  option_map sm_status (session_json d).

End Activities.

(** ** The settled branches of the testing phase *)

(** The result that the workflow keeps for a settled branch: the value of a
    fulfilled branch, the zeroed result for a rejected one. *)
Definition value_or {A : Type} (zero : A) (settled : Outcome A) : A :=
  match settled with
  | Returned value => value
  | Thrown _ => zero
  end.

Definition is_Returned {A : Type} (o : Outcome A) : Prop :=
  match o with Returned _ => True | Thrown _ => False end.

(** How the workflow state records a settled branch. *)
Definition branch_recorded {A : Type} (module : string) (settled : Outcome A)
    (st : Workflow.WorkflowState) : Prop :=
  match settled with
  | Returned _ =>
      (module ∈ Workflow.completedModules st)
      /\ (module ∉ Workflow.failedModules st)
      /\ Workflow.moduleStatuses st !! module = Some "completed"
  | Thrown _ =>
      (module ∈ Workflow.failedModules st)
      /\ (module ∉ Workflow.completedModules st)
      /\ Workflow.moduleStatuses st !! module = Some "failed"
  end.

(** [baseInput] as the workflow builds it. *)
Definition base_of (input : PipelineInput) (sessionId : string) : BaseInput :=
  {| b_sessionId := sessionId; b_outputPath := outputPath input;
     b_configPath := configPath input;
     b_pipelineTestingMode := pipelineTestingMode input |}.

(** ** Sample runs of the pipeline *)

Definition sample_now : string := "2026-01-01T00:00:00.000Z".

Definition sample_input : PipelineInput :=
  {| targets := [ {| ts_host := Some "192.0.2.11"; ts_range := None; ts_ports := [80; 554] |} ];
     outputPath := "audit-logs/run"; configPath := None; pipelineTestingMode := false |}.

Definition sample_discovery : DiscoveryResult :=
  {| hosts := [ {| dh_ip := "192.0.2.11"; dh_port := 80; dh_service := "http";
                   dh_banner := "" |} ];
     scanDurationMs := 12; targetsScanned := 1 |}.

Definition sample_fingerprints : list FingerprintResult :=
  [ {| ip := "192.0.2.11"; port := 80; vendor := V_hikvision;
       protocols := [P_http; P_rtsp]; authType := A_digest |} ].

Definition sample_credentials : CredentialModuleResult :=
  {| cr_results := []; cr_totalAttempts := 15; successfulLogins := 1;
     hostsCompromised := 1; cr_durationMs := 40 |}.

Definition sample_protocol : ProtocolModuleResult :=
  {| findings := [ {| pf_path := "/Streaming/Channels/101"; pf_severity := "high";
                      pf_authenticated := false |} ];
     pathsTested := 60; findingsCount := 1; pr_durationMs := 55 |}.

(** A run in which the CVE scanner fails while the other two testers
    succeed. *)
Definition scanner_fails : Activities.Modules :=
  {| Activities.runDiscovery := fun _ => Returned sample_discovery;
     Activities.runFingerprinting := fun _ => Returned sample_fingerprints;
     Activities.runCredentialTester := fun _ => Returned sample_credentials;
     Activities.runCveScanner := fun _ => Thrown "scanner crashed";
     Activities.runProtocolFuzzer := fun _ => Returned sample_protocol;
     Activities.runExploitation := fun _ _ => Returned zero_exploitation;
     Activities.generateReport := fun _ => Returned "deliverables/report.md" |}.

(** A run in which the network scan itself fails. *)
Definition discovery_fails : Activities.Modules :=
  {| Activities.runDiscovery := fun _ => Thrown "nmap not found";
     Activities.runFingerprinting := fun _ => Returned sample_fingerprints;
     Activities.runCredentialTester := fun _ => Returned sample_credentials;
     Activities.runCveScanner := fun _ => Returned zero_cve;
     Activities.runProtocolFuzzer := fun _ => Returned sample_protocol;
     Activities.runExploitation := fun _ _ => Returned zero_exploitation;
     Activities.generateReport := fun _ => Returned "deliverables/report.md" |}.

(** The pipeline over the activities of the worker, from an empty session
    directory. *)
Definition pipeline_run (mods : Activities.Modules) (input : PipelineInput)
    (sessionId now : string) (elapsed : Z)
    : Outcome unit * Workflow.Run Audit.SessionDir :=
  Workflow.veilcamsPipelineWorkflow (Activities.activities mods now) input
    sessionId now elapsed (Workflow.start Audit.empty_dir).

(** The status that a session has when it is over, after [finalize] or
    [markFailed]. *)
Definition terminal_status (s : option Audit.SessionStatus) : bool :=
  match s with
  | Some Audit.S_completed | Some Audit.S_failed => true
  | _ => false
  end.

(** ** The terms in which the theorems are stated, and sample inputs *)

Definition sizeDiff_of (baseline authed : Snapshot) : Z :=
  Z.abs (Js.strlen (body baseline) - Js.strlen (body authed)).

Definition maxSize_of (baseline authed : Snapshot) : Z :=
  Z.max (Z.max (Js.strlen (body baseline)) (Js.strlen (body authed))) 1.

(** The five ways in which the comparison holds. *)
Definition different_cases (baseline authed : Snapshot) : Prop :=
  ((status baseline = 401 \/ status baseline = 403) /\ 200 <= status authed < 400)
  \/ (status baseline = -1 /\ 200 <= status authed < 400)
  \/ (status baseline = status authed /\ body baseline <> body authed
      /\ maxSize_of baseline authed <= 10 * sizeDiff_of baseline authed)
  \/ (status baseline = status authed
      /\ 10 * sizeDiff_of baseline authed < maxSize_of baseline authed
      /\ Regex.test authIndicators (body authed) = true
      /\ Regex.test authIndicators (body baseline) = false)
  \/ (200 <= status authed < 400 /\ 400 <= status baseline).

(** The call with which [getBaseline] fetches a baseline. *)
Definition baseline_fetch (url : string) : Call := CallHttp (Get url None []).

Definition outcome_success (o : Outcome CredentialTestResult) : bool :=
  match o with Returned r => success r | Thrown _ => false end.

Section SameRootTerms.

Variable net : Network.
Variable target : FingerprintResult.
Variable d : AxiosData.

Definition serves_same : Prop :=
  forall hist auth headers, exists hs,
    http_reply net hist (Get (baseUrl_of target) auth headers)
    = Returned {| resp_status := 200; resp_data := d; resp_headers := hs |}.

Definition posts_rejected : Prop :=
  forall hist url fields,
    match http_reply net hist (Post url fields) with
    | Returned resp => resp_status resp <> 200
    | Thrown _ => True
    end.

Definition cache_agrees (w : World) : Prop :=
  forall b, baselineCache w !! baseUrl_of target = Some b ->
            b = {| status := 200; body := body_text d |}.

End SameRootTerms.

(** Sample hosts and targets. *)
Definition sample_clock : list Call -> string := fun _ => "2026-01-01T00:00:00.000Z".

(** A host that serves the same page at its root whoever asks, refuses
    every POST and streams to anyone. *)
Definition open_host : Network :=
  {| http_reply := fun _ c =>
       match c with
       | Get _ _ _ =>
           Returned {| resp_status := 200; resp_data := DataString "<html>camera</html>";
                       resp_headers := [] |}
       | Post _ _ => Thrown "connect ECONNREFUSED"
       end;
     rtsp_reply := fun _ _ => Returned {| statusCode := 200; raw := "RTSP/1.0 200 OK" |};
     random := fun _ => "0123456789abcdef";
     clock := sample_clock |}.

(** The same root page, with a login endpoint that accepts the credential. *)
Definition form_host : Network :=
  {| http_reply := fun _ c =>
       match c with
       | Get _ _ _ =>
           Returned {| resp_status := 200; resp_data := DataString "<html>camera</html>";
                       resp_headers := [] |}
       | Post _ _ =>
           Returned {| resp_status := 200; resp_data := DataString "ok"; resp_headers := [] |}
       end;
     rtsp_reply := fun _ _ => Thrown "timeout";
     random := fun _ => "0123456789abcdef";
     clock := sample_clock |}.

Definition sample_target (a : AuthType) : FingerprintResult :=
  {| ip := "192.0.2.11"; port := 80; vendor := V_unknown;
     protocols := [P_http; P_rtsp]; authType := a |}.

Definition sample_config : VeilcamsConfig :=
  {| use_defaults := true; custom := [cred "operator" "secret"];
     max_attempts_per_host := 15; delay_ms := 0;
     protocols_rtsp := true; protocols_http := true |}.

(** The probe without credentials that [isRtspUnauthenticated] sends. *)
Definition unauth_probe (target : FingerprintResult) : RtspCall :=
  Describe (ip target) (rtspPort_of target) (testPath_of target) None.

Definition unauth_key (target : FingerprintResult) : string :=
  BaselineTester.rtsp_key (ip target) (rtspPort_of target) (testPath_of target).

(** The stream path answers 200 to every DESCRIBE without credentials. *)
Definition stream_open (net : Network) (target : FingerprintResult) : Prop :=
  forall hist, exists reply,
    rtsp_reply net hist (unauth_probe target) = Returned reply /\ statusCode reply = 200.

(** The cache holds nothing that contradicts an open stream. *)
Definition rtsp_cache_agrees (target : FingerprintResult) (w : World) : Prop :=
  forall b, rtspUnauthCache w !! unauth_key target = Some b -> b = true.

(** A host whose answers depend on the request only. *)
Definition stationary (net : Network) : Prop :=
  (forall h1 h2 c, http_reply net h1 c = http_reply net h2 c)
  /\ (forall h1 h2 c, rtsp_reply net h1 c = rtsp_reply net h2 c).

(** The parameters of the example of RFC 2617, section 3.5. *)
Definition rfc2617_example : DigestParams :=
  {| d_username := "Mufasa"; d_password := "Circle Of Life"; d_method := "GET";
     d_uri := "/dir/index.html"; d_realm := "testrealm@host.com";
     d_nonce := "dcd98b7102dd2f0e8b11d0f600bfb0c093";
     d_qop := Some "auth"; d_nc := Some "00000001"; d_cnonce := Some "0a4f113b";
     d_algorithm := None |}.

(** The credentials of [l] whose key is neither in [s] nor earlier in [l]. *)
Fixpoint first_by_key (s : gset string) (l : list Credential) : list Credential :=
  match l with
  | [] => []
  | c :: l' =>
      if bool_decide (cred_key c ∈ s) then first_by_key s l'
      else c :: first_by_key ({[ cred_key c ]} ∪ s) l'
  end.

(** The candidates in the order in which [buildCredentialList] offers them
    to [addCred]. *)
Definition candidates (target : FingerprintResult) (config : VeilcamsConfig)
    : list Credential :=
  ((if use_defaults config
    then DEFAULT_CREDENTIALS (vendor target)
         ++ (if bool_decide (vendor target ≠ V_unknown)
             then DEFAULT_CREDENTIALS V_unknown else [])
    else [])
   ++ custom config)%list.

Definition all_digits (s : string) : bool :=
  forallb Js.is_digit (list_ascii_of_string s).

Section OwnerTerms.

Variable config : VeilcamsConfig.

Definition advertises_rtsp (t : FingerprintResult) : bool :=
  protocols_rtsp config && protocols_include P_rtsp t.

End OwnerTerms.

(** Scenario F: two records of one address, on ports 80 and 554. *)
Definition scenario_F : list FingerprintResult :=
  [ {| ip := "192.0.2.20"; port := 80; vendor := V_hikvision;
       protocols := [P_http; P_rtsp]; authType := A_digest |};
    {| ip := "192.0.2.20"; port := 554; vendor := V_hikvision;
       protocols := [P_rtsp]; authType := A_unknown |} ].

Section PoolTerms.

Import Pool.

Context {T : Type}.
Variable tasks : list (Outcome T).
Variable concurrency : Z.

Local Abbreviation State := (Pool.State T).

(** What holds in every state that a run can reach. *)
Record pool_inv (s : State) : Prop := {
  inv_results_len : length (results s) = length tasks;
  inv_workers_len : length (workers s) = worker_count tasks concurrency;
  inv_index : (index s <= length tasks)%nat;
  inv_started : forall i o, (i < index s)%nat -> tasks !! i = Some o ->
      results s !! i = Some (Some (settle o))
      \/ exists k, workers s !! k = Some (Awaiting i);
  inv_waiting : forall i, (index s <= i)%nat -> (i < length tasks)%nat ->
      results s !! i = Some None;
  inv_filled : forall i x, results s !! i = Some (Some x) ->
      exists o, tasks !! i = Some o /\ x = settle o;
  inv_await : forall k i, workers s !! k = Some (Awaiting i) -> (i < index s)%nat;
  inv_finished : forall k, workers s !! k = Some Finished -> (length tasks <= index s)%nat
}.

Definition weight (w : Worker) : nat :=
  match w with
  | AtLoopHead => 1
  | Awaiting _ => 2
  | Finished => 0
  end.

(** The number of steps that remain. *)
Definition measure (s : State) : nat :=
  (2 * (length tasks - index s) + sum_list (map weight (workers s)))%nat.

End PoolTerms.

Definition sample_tasks : list (Outcome Z) :=
  [Returned 1; Thrown "boom"; Returned 3; Returned 4; Thrown "late"].

Definition sample_challenge (qop : string) : string :=
  "Digest realm=" ++ Js.dq ++ "IP Camera" ++ Js.dq ++ ", nonce=" ++ Js.dq ++ "abc123" ++ Js.dq
  ++ ", qop=" ++ qop ++ ", algorithm=MD5".

(** A host that guards its root page with Basic authentication and knows
    one account. *)
Definition guarded_host : Network :=
  {| http_reply := fun _ c =>
       match c with
       | Get _ (Some account) _ =>
           if String.eqb (cred_key account) "admin:12345" then
             Returned {| resp_status := 200;
                         resp_data := DataString "<html>live view, logout</html>";
                         resp_headers := [] |}
           else
             Returned {| resp_status := 401; resp_data := DataString "Unauthorized";
                         resp_headers := [] |}
       | Get _ None _ =>
           Returned {| resp_status := 401; resp_data := DataString "Unauthorized";
                       resp_headers := [] |}
       | Post _ _ => Thrown "connect ECONNREFUSED"
       end;
     rtsp_reply := fun _ _ => Thrown "timeout";
     random := fun _ => "0123456789abcdef";
     clock := fun _ => "2026-01-01T00:00:00.000Z" |}.

(** The statuses of a module whose part in the run is over. *)
Definition settled_status (status : string) : bool :=
  bool_decide (status ∈ ["completed"; "failed"; "skipped"]).

(** The report input of a run that found no host. *)
Definition empty_report_input (base : BaseInput) (d : DiscoveryResult)
    (now : string) (elapsed : Z) : ReportActivityInput :=
  {| ri_base := base; ri_discoveryResult := d; ri_fingerprints := [];
     ri_credentialResult := zero_credential; ri_cveResult := zero_cve;
     ri_protocolResult := zero_protocol; ri_exploitationResult := None;
     ri_startTime := now; ri_totalDurationMs := elapsed |}.

(** A run in which the scan finds no host. *)
Definition no_hosts : Activities.Modules :=
  {| Activities.runDiscovery := fun _ =>
       Returned {| hosts := []; scanDurationMs := 12; targetsScanned := 1 |};
     Activities.runFingerprinting := fun _ => Returned [];
     Activities.runCredentialTester := fun _ => Returned zero_credential;
     Activities.runCveScanner := fun _ => Returned zero_cve;
     Activities.runProtocolFuzzer := fun _ => Returned zero_protocol;
     Activities.runExploitation := fun _ _ => Returned zero_exploitation;
     Activities.generateReport := fun _ => Returned "deliverables/report.md" |}.

(** [MODULE_ORDER] *)
Definition MODULE_ORDER : list string :=
  ["discovery"; "fingerprint"; "credential-tester"; "cve-scanner"; "protocol-fuzzer";
   "exploitation"; "report"].

(** A run in which fingerprinting fails. *)
Definition fingerprint_fails : Activities.Modules :=
  {| Activities.runDiscovery := fun _ => Returned sample_discovery;
     Activities.runFingerprinting := fun _ => Thrown "probe timed out";
     Activities.runCredentialTester := fun _ => Returned sample_credentials;
     Activities.runCveScanner := fun _ => Returned zero_cve;
     Activities.runProtocolFuzzer := fun _ => Returned sample_protocol;
     Activities.runExploitation := fun _ _ => Returned zero_exploitation;
     Activities.generateReport := fun _ => Returned "deliverables/report.md" |}.

Definition sample_cves : CveModuleResult :=
  {| cve_results := [ {| cveId := "CVE-2017-7921"; vulnerable := true |};
                      {| cveId := "CVE-2021-36260"; vulnerable := true |} ];
     totalChecks := 9; vulnerabilitiesFound := 2; criticalCount := 2; highCount := 0;
     cve_durationMs := 30 |}.

(** A run in which two CVEs are confirmed and the exploitation fails. *)
Definition exploitation_fails : Activities.Modules :=
  {| Activities.runDiscovery := fun _ => Returned sample_discovery;
     Activities.runFingerprinting := fun _ => Returned sample_fingerprints;
     Activities.runCredentialTester := fun _ => Returned sample_credentials;
     Activities.runCveScanner := fun _ => Returned sample_cves;
     Activities.runProtocolFuzzer := fun _ => Returned sample_protocol;
     Activities.runExploitation := fun _ _ => Thrown "msfconsole not found";
     Activities.generateReport := fun _ => Returned "deliverables/report.md" |}.

(** Position [i] of [all] holds the first credential with its key. *)
Definition first_occurrence (all : list Credential) (i : nat) : Prop :=
  exists c, all !! i = Some c /\ cred_key c ∉ map cred_key (take i all).

Definition hikvision_target : FingerprintResult :=
  {| ip := "192.0.2.10"; port := 80; vendor := V_hikvision;
     protocols := [P_http]; authType := A_digest |}.

(** The records of scenario F at an IPv6 address whose second group reads
    as a port number. *)
Definition scenario_ipv6 : list FingerprintResult :=
  [ {| ip := "2001:554::1"; port := 80; vendor := V_hikvision;
       protocols := [P_http; P_rtsp]; authType := A_digest |};
    {| ip := "2001:554::1"; port := 554; vendor := V_hikvision;
       protocols := [P_rtsp]; authType := A_unknown |} ].

(** Only the last of the results can be a success. *)
Definition only_last_succeeds (rs : list CredentialTestResult) : Prop :=
  forall i r, rs !! i = Some r -> success r = true -> S i = length rs.

(** A host on which nothing answers. *)
Definition closed_host : Network :=
  {| http_reply := fun _ _ => Thrown "connect ECONNREFUSED";
     rtsp_reply := fun _ _ => Thrown "connect ECONNREFUSED";
     random := fun _ => "0123456789abcdef";
     clock := fun _ => "2026-01-01T00:00:00.000Z" |}.

(** A configuration that allows one attempt per host. *)
Definition one_attempt : VeilcamsConfig :=
  {| use_defaults := true; custom := []; max_attempts_per_host := 1; delay_ms := 0;
     protocols_rtsp := true; protocols_http := true |}.

(** Whether a call returned. *)
Definition returned {A : Type} (o : Outcome A) : bool :=
  match o with Returned _ => true | Thrown _ => false end.

(** [session.json] lists the module [name] and no other, as completed when
    [ok] and as failed otherwise. *)
Definition lists_only (name : string) (ok : bool) (d : Audit.SessionDir) : Prop :=
  exists m md,
    Audit.session_json d = Some m
    /\ Audit.modules m = {[ name := md ]}
    /\ Audit.mm_status md = (if ok then Audit.M_completed else Audit.M_failed).

(** Three credentials to try. *)
Definition sample_credentials_list : list Credential :=
  [cred "admin" "admin"; cred "admin" "12345"; cred "root" "root"].

(** A stream that is guarded: DESCRIBE answers 200 to the account
    [admin:12345] and 401 to everyone else. *)
Definition guarded_stream : Network :=
  {| http_reply := fun _ _ => Thrown "connect ECONNREFUSED";
     rtsp_reply := fun _ c =>
       match c with
       | Describe _ _ _ (Some account) =>
           if String.eqb (cred_key account) "admin:12345"
           then Returned {| statusCode := 200; raw := "RTSP/1.0 200 OK" |}
           else Returned {| statusCode := 401; raw := "RTSP/1.0 401 Unauthorized" |}
       | Describe _ _ _ None =>
           Returned {| statusCode := 401; raw := "RTSP/1.0 401 Unauthorized" |}
       end;
     random := fun _ => "0123456789abcdef";
     clock := fun _ => "2026-01-01T00:00:00.000Z" |}.

(** A configuration without the default credentials, in which one custom
    credential is given twice. *)
Definition custom_only : VeilcamsConfig :=
  {| use_defaults := false;
     custom := [cred "operator" "secret"; cred "viewer" "viewer"; cred "operator" "secret"];
     max_attempts_per_host := 15; delay_ms := 0;
     protocols_rtsp := true; protocols_http := true |}.

(** ** Protocol fuzzer: the passes of [fuzzHost] ([modules/protocol-fuzzer.ts]) *)

(** [SNAPSHOT_ENDPOINTS] *)
Definition SNAPSHOT_ENDPOINTS (v : CameraVendor) : list string :=
  match v with
  | V_hikvision =>
      ["/ISAPI/Streaming/channels/101/picture"; "/Streaming/channels/1/picture";
       "/cgi-bin/snapshot.cgi"; "/snap.jpg"]
  | V_dahua => ["/cgi-bin/snapshot.cgi"; "/cgi-bin/snapshot.cgi?channel=1"; "/snap.jpg"]
  | V_axis => ["/axis-cgi/jpg/image.cgi"; "/axis-cgi/bitmap/image.bmp"; "/jpg/image.jpg"]
  | V_reolink => ["/cgi-bin/api.cgi?cmd=Snap&channel=0"; "/snap.jpg"]
  | V_amcrest => ["/cgi-bin/snapshot.cgi"; "/snap.jpg"]
  | V_foscam => ["/cgi-bin/CGIProxy.fcgi?cmd=snapPicture2"; "/snapshot.cgi"]
  | V_tp_link => ["/snap.jpg"; "/stream/snapshot.jpg"]
  | V_uniview =>
      ["/LAPI/V1.0/Channels/0/Media/Video/Streams/0/snapshot"; "/snap.jpg"]
  | V_vivotek => ["/cgi-bin/viewer/video.jpg"; "/video.jpg"]
  | V_hanwha => ["/stw-cgi/video.cgi?msubmenu=snapshot"; "/snap.jpg"]
  | V_bosch => ["/snap.jpg"; "/snapshot.jpg"]
  | V_unknown =>
      ["/snap.jpg"; "/snapshot.jpg"; "/snapshot.cgi"; "/cgi-bin/snapshot.cgi";
       "/image.jpg"; "/image/jpeg.cgi"; "/tmpfs/auto.jpg"; "/webcapture.jpg"]
  end.

(** [CONFIG_DISCLOSURE_PATHS] *)
Definition CONFIG_DISCLOSURE_PATHS : list string :=
  ["/system.ini"; "/config/overlay.xml"; "/System/configurationFile?auth=YWRtaW46MTEK";
   "/conf/gateway"; "/cgi-bin/configManager.cgi?action=getConfig&name=All";
   "/device.rsp?opt=user&cmd=list"; "/goform/WEB_VMS_GET_CONFIG"; "/config/system.ini";
   "/backup/config.bin"; "/.htpasswd"; "/etc/passwd"; "/etc/shadow"; "/proc/kcore";
   "/current_config/passwd"; "/users.cgi"; "/credentials.json"; "/config/config.json"].

(** [[...new Set(xs)]]: the elements in the order of their first
    occurrence. *)
Definition unique (xs : list string) : list string :=
  fold_left (fun acc x => if bool_decide (x ∈ acc) then acc else (acc ++ [x])%list) xs [].

Module Fuzzer.

(** [ProtocolFinding], with all its fields. *)
Record Finding : Type := mkFinding {
  f_ip : string;
  f_port : Z;
  f_type : string;
  f_protocol : string;
  f_path : string;
  f_severity : string;
  f_description : string;
  f_evidence : string;
  f_authenticated : bool;
  f_timestamp : string
}.

(** [HostFuzzResult] *)
Record HostFuzzResult : Type := mkHostFuzzResult {
  hf_findings : list Finding;
  hf_pathsTested : Z
}.

(** The findings that were pushed, in the order of the loop. *)
Definition pushed (found : list (option Finding)) : list Finding := omap id found.

(** The body of the loop of [fuzzRtspPaths]; an error of the DESCRIBE is
    caught and gives nothing. *)
Definition probeRtspPath (net : Network) (target : FingerprintResult)
    (streamPath : string) : M (option Finding) :=
  let rtspPort := 554 in
  let* result := rtspDescribe net (ip target) rtspPort streamPath None in
  match result with
  | Returned reply =>
      if statusCode reply =? 200 then
        let* ts := isoNow net in
        ret (Some {| f_ip := ip target; f_port := rtspPort; f_type := "rtsp_stream";
                     f_protocol := "rtsp"; f_path := streamPath; f_severity := "high";
                     f_description := "RTSP stream accessible without authentication";
                     f_evidence := "RTSP DESCRIBE returned "
                                   ++ Js.string_of_Z (statusCode reply)
                                   ++ " for path " ++ streamPath;
                     f_authenticated := false; f_timestamp := ts |})
      else if statusCode reply =? 401 then
        let* ts := isoNow net in
        ret (Some {| f_ip := ip target; f_port := rtspPort; f_type := "rtsp_stream";
                     f_protocol := "rtsp"; f_path := streamPath; f_severity := "info";
                     f_description := "RTSP stream found (requires authentication)";
                     f_evidence := "RTSP DESCRIBE returned "
                                   ++ Js.string_of_Z (statusCode reply)
                                   ++ " — stream exists at " ++ streamPath;
                     f_authenticated := true; f_timestamp := ts |})
      else ret None
  | Thrown _ => ret None
  end.

Definition rtspPaths_of (target : FingerprintResult) : list string :=
  unique (RTSP_PATHS (vendor target) ++ RTSP_PATHS V_unknown).

Definition fuzzRtspPaths (net : Network) (target : FingerprintResult)
    : M HostFuzzResult :=
  let uniquePaths := rtspPaths_of target in
  let* found := for_each (probeRtspPath net target) uniquePaths in
  ret {| hf_findings := pushed found;
         hf_pathsTested := Z.of_nat (length uniquePaths) |}.

(** The body of the loop of [fuzzSnapshotEndpoints]. *)
Definition probeSnapshot (net : Network) (target : FingerprintResult)
    (endpoint : string) : M (option Finding) :=
  let scheme := scheme_of target in
  let* result := httpGet net (baseUrl_of target ++ endpoint) None [] in
  match result with
  | Returned resp =>
      let contentType := header_or_empty "content-type" (resp_headers resp) in
      if (resp_status resp =? 200)
         && (Js.includes "image/" contentType || Js.includes "octet-stream" contentType)
      then
        let* ts := isoNow net in
        ret (Some {| f_ip := ip target; f_port := port target;
                     f_type := "snapshot_endpoint";
                     f_protocol := scheme; f_path := endpoint; f_severity := "medium";
                     f_description := "Camera snapshot accessible without authentication";
                     f_evidence := "HTTP " ++ Js.string_of_Z (resp_status resp) ++ " at "
                                   ++ endpoint ++ " (Content-Type: " ++ contentType ++ ")";
                     f_authenticated := false; f_timestamp := ts |})
      else ret None
  | Thrown _ => ret None
  end.

Definition snapshotEndpoints_of (target : FingerprintResult) : list string :=
  unique (SNAPSHOT_ENDPOINTS (vendor target) ++ SNAPSHOT_ENDPOINTS V_unknown).

Definition fuzzSnapshotEndpoints (net : Network) (target : FingerprintResult)
    : M HostFuzzResult :=
  let uniqueEndpoints := snapshotEndpoints_of target in
  let* found := for_each (probeSnapshot net target) uniqueEndpoints in
  ret {| hf_findings := pushed found;
         hf_pathsTested := Z.of_nat (length uniqueEndpoints) |}.

(** [/(password|passwd|secret|token|key)/i] *)
Definition credentialWords : Regex.regex :=
  words_regex ["password"; "passwd"; "secret"; "token"; "key"].

(** The body of the loop of [fuzzConfigPaths]. *)
Definition probeConfigPath (net : Network) (target : FingerprintResult)
    (configPath : string) : M (option Finding) :=
  let scheme := scheme_of target in
  let* result := httpGet net (baseUrl_of target ++ configPath) None [] in
  match result with
  | Returned resp =>
      let body := string_or_empty (resp_data resp) in
      if (resp_status resp =? 200)
         && (20 <? Js.strlen body)
         && negb (Js.includes "<!DOCTYPE" body)
         && negb (Js.includes "<html" body)
      then
        let hasCredentials := Regex.test credentialWords body in
        let* ts := isoNow net in
        ret (Some {| f_ip := ip target; f_port := port target;
                     f_type := "config_disclosure";
                     f_protocol := scheme; f_path := configPath;
                     f_severity := if hasCredentials then "critical" else "high";
                     f_description :=
                       if hasCredentials
                       then "Configuration file with credentials exposed"
                       else "Configuration file exposed without authentication";
                     f_evidence := "HTTP " ++ Js.string_of_Z (resp_status resp) ++ " at "
                                   ++ configPath ++ " ("
                                   ++ Js.string_of_Z (Js.strlen body) ++ " bytes)"
                                   ++ (if hasCredentials
                                       then " — contains credential-like data" else "");
                     f_authenticated := false; f_timestamp := ts |})
      else ret None
  | Thrown _ => ret None
  end.

Definition fuzzConfigPaths (net : Network) (target : FingerprintResult)
    : M HostFuzzResult :=
  let* found := for_each (probeConfigPath net target) CONFIG_DISCLOSURE_PATHS in
  ret {| hf_findings := pushed found;
         hf_pathsTested := Z.of_nat (length CONFIG_DISCLOSURE_PATHS) |}.

(** [adminPaths] of [fuzzAdminEndpoints] *)
Definition adminPaths : list string :=
  ["/admin/"; "/admin.html"; "/cgi-bin/"; "/debug/"; "/test/"; "/phpinfo.php";
   "/server-status"; "/server-info"; "/actuator"; "/api/"; "/api/v1/";
   "/swagger-ui.html"; "/console/"; "/shell/"; "/telnet.cgi"; "/system/";
   "/maintenance/"; "/firmware/"; "/upgrade/"; "/backup/"; "/restore/"; "/reboot/";
   "/factory-reset/"; "/diag.cgi"; "/debug.cgi"].

(** The body of the loop of [fuzzAdminEndpoints]. *)
Definition probeAdminPath (net : Network) (target : FingerprintResult)
    (adminPath : string) : M (option Finding) :=
  let scheme := scheme_of target in
  let* result := httpGet net (baseUrl_of target ++ adminPath) None [] in
  match result with
  | Returned resp =>
      let body := string_or_empty (resp_data resp) in
      if (resp_status resp =? 200) && (50 <? Js.strlen body)
      then
        let* ts := isoNow net in
        ret (Some {| f_ip := ip target; f_port := port target;
                     f_type := "unauthenticated_access";
                     f_protocol := scheme; f_path := adminPath; f_severity := "medium";
                     f_description := "Admin/debug endpoint accessible at " ++ adminPath;
                     f_evidence := "HTTP " ++ Js.string_of_Z (resp_status resp) ++ " ("
                                   ++ Js.string_of_Z (Js.strlen body) ++ " bytes)";
                     f_authenticated := false; f_timestamp := ts |})
      else ret None
  | Thrown _ => ret None
  end.

Definition fuzzAdminEndpoints (net : Network) (target : FingerprintResult)
    : M HostFuzzResult :=
  let* found := for_each (probeAdminPath net target) adminPaths in
  ret {| hf_findings := pushed found;
         hf_pathsTested := Z.of_nat (length adminPaths) |}.

(** One pass of [fuzzHost], when its condition holds: its findings and its
    count are added to those so far. *)
Definition pass (condition : bool) (fuzz : M HostFuzzResult) (sofar : HostFuzzResult)
    : M HostFuzzResult :=
  if condition then
    let* r := fuzz in
    ret {| hf_findings := (hf_findings sofar ++ hf_findings r)%list;
           hf_pathsTested := hf_pathsTested sofar + hf_pathsTested r |}
  else ret sofar.

(** [fuzzHost(target, config, skipRtsp)]; the rate limiter only paces the
    requests. *)
Definition fuzzHost (net : Network) (target : FingerprintResult)
    (config : VeilcamsConfig) (skipRtsp : bool) : M HostFuzzResult :=
  let sofar := {| hf_findings := []; hf_pathsTested := 0 |} in
  let* sofar :=
    pass (protocols_rtsp config && protocols_include P_rtsp target && negb skipRtsp)
      (fuzzRtspPaths net target) sofar in
  let* sofar := pass (protocols_http config) (fuzzSnapshotEndpoints net target) sofar in
  let* sofar := pass (protocols_http config) (fuzzConfigPaths net target) sofar in
  pass (protocols_http config) (fuzzAdminEndpoints net target) sofar.

(** The requests of the four passes. *)
Definition rtspRequests (target : FingerprintResult) : list Call :=
  map (fun p => CallRtsp (Describe (ip target) 554 p None)) (rtspPaths_of target).

Definition httpRequests (target : FingerprintResult) : list Call :=
  map (fun p => CallHttp (Get (baseUrl_of target ++ p) None []))
    (snapshotEndpoints_of target ++ CONFIG_DISCLOSURE_PATHS ++ adminPaths).

End Fuzzer.

(** What every finding of [fuzzHost] for a target looks like, by the pass
    that pushed it. *)
Definition finding_of_pass (target : FingerprintResult) (f : Fuzzer.Finding) : Prop :=
  Fuzzer.f_ip f = ip target /\
  ((Fuzzer.f_type f = "rtsp_stream"
   /\ Fuzzer.f_port f = 554 /\ Fuzzer.f_protocol f = "rtsp"
   /\ (Fuzzer.f_path f ∈ Fuzzer.rtspPaths_of target)
   /\ ((Fuzzer.f_severity f = "high" /\ Fuzzer.f_authenticated f = false)
       \/ (Fuzzer.f_severity f = "info" /\ Fuzzer.f_authenticated f = true)))
  \/ (Fuzzer.f_port f = port target /\ Fuzzer.f_protocol f = scheme_of target
      /\ Fuzzer.f_authenticated f = false
      /\ ((Fuzzer.f_type f = "snapshot_endpoint" /\ Fuzzer.f_severity f = "medium"
           /\ (Fuzzer.f_path f ∈ Fuzzer.snapshotEndpoints_of target))
          \/ (Fuzzer.f_type f = "config_disclosure"
              /\ (Fuzzer.f_severity f = "critical" \/ Fuzzer.f_severity f = "high")
              /\ (Fuzzer.f_path f ∈ CONFIG_DISCLOSURE_PATHS))
          \/ (Fuzzer.f_type f = "unauthenticated_access"
              /\ Fuzzer.f_severity f = "medium"
              /\ (Fuzzer.f_path f ∈ Fuzzer.adminPaths))))).

(** What holds of the result of [fuzzHost] so far, after the passes that
    sent [requests] from the world [w0]. *)
Definition after_passes (target : FingerprintResult) (w0 : World) (requests : list Call)
    (sofar : Fuzzer.HostFuzzResult) (w : World) : Prop :=
  calls w = (calls w0 ++ requests)%list
  /\ Fuzzer.hf_pathsTested sofar = Z.of_nat (length requests)
  /\ Forall (finding_of_pass target) (Fuzzer.hf_findings sofar)
  /\ (length (Fuzzer.hf_findings sofar) <= length requests)%nat.

(** A target on an RTSP port that is not 554. *)
Definition rtsp_8554_target : FingerprintResult :=
  {| ip := "192.0.2.30"; port := 8554; vendor := V_dahua;
     protocols := [P_rtsp]; authType := A_unknown |}.

(** ** Discovery ([modules/discovery.ts]) *)

(** [ALL_CAMERA_PORTS]: the ports of [CAMERA_PORTS], each once, in
    increasing order. *)
Definition ALL_CAMERA_PORTS : list Z :=
  [22; 23; 80; 81; 82; 85; 443; 554; 2020; 8080; 8081; 8443; 8554; 8555; 8888; 9000;
   10554].

(** What the scans find: the hosts that [nmapScan] reports, or its failure,
    and whether a TCP connection to a port succeeds.  The first argument is
    the number of the target in the loop, so that two scans need not
    agree. *)
Record Scanner : Type := mkScanner {
  nmapScan : nat -> string -> list Z -> Outcome (list DiscoveredHost);
  tcpOpen : nat -> string -> Z -> bool
}.

(** [`${host.ip}:${host.port}`] *)
Definition hostKey (h : DiscoveredHost) : string :=
  dh_ip h ++ ":" ++ Js.string_of_Z (dh_port h).

(** The filter of [deduplicateHosts] with the set of keys seen so far. *)
Fixpoint dedup_from (seen : gset string) (hosts : list DiscoveredHost)
    : list DiscoveredHost :=
  match hosts with
  | [] => []
  | host :: rest =>
      if bool_decide (hostKey host ∈ seen) then dedup_from seen rest
      else host :: dedup_from ({[ hostKey host ]} ∪ seen) rest
  end.

Definition deduplicateHosts (hosts : list DiscoveredHost) : list DiscoveredHost :=
  dedup_from ∅ hosts.

(** [tcpConnectScan(target, ports)]: a range is not scanned. *)
Definition tcpConnectScan (sc : Scanner) (n : nat) (target : string) (ports : list Z)
    : list DiscoveredHost :=
  if Js.includes "/" target then []
  else map (fun p => {| dh_ip := target; dh_port := p; dh_service := "unknown";
                        dh_banner := "" |})
         (List.filter (tcpOpen sc n target) ports).

(** The hosts that one turn of the loop of [runDiscovery] pushes.  A target
    has a host or a range; an absent host reads as the empty text. *)
Definition scanTarget (sc : Scanner) (n : nat) (target : TargetSpec)
    : list DiscoveredHost :=
  let host := default "" (ts_host target) in
  let targetStr := or_default (ts_range target) host in
  let ports := if bool_decide (ts_ports target = []) then ALL_CAMERA_PORTS
               else ts_ports target in
  let isUserSpecifiedPorts :=
    truthy (ts_host target)
    && bool_decide (ts_ports target ≠ [])
    && (Z.of_nat (length (ts_ports target)) <=? 10) in
  if isUserSpecifiedPorts then
    map (fun p => {| dh_ip := host; dh_port := p;
                     dh_service := if bool_decide (p ∈ rtspPorts) then "rtsp" else "http";
                     dh_banner := "" |}) ports
  else
    match nmapScan sc n targetStr ports with
    | Returned hosts =>
        if bool_decide (hosts = []) && negb (Js.includes "/" targetStr)
        then tcpConnectScan sc n targetStr ports
        else hosts
    | Thrown _ => tcpConnectScan sc n targetStr ports
    end.

(** All the hosts pushed by the loop, in order. *)
Definition allHosts (sc : Scanner) (targets : list TargetSpec) : list DiscoveredHost :=
  concat (imap (scanTarget sc) targets).

(** The result of [runDiscovery], before it is saved; [elapsed] is the time
    that the scan took. *)
Definition runDiscovery (sc : Scanner) (targets : list TargetSpec) (elapsed : Z)
    : DiscoveryResult :=
  {| hosts := deduplicateHosts (allHosts sc targets);
     scanDurationMs := elapsed;
     targetsScanned := Z.of_nat (length targets) |}.

(** Position [i] of [all] holds the first host with its key. *)
Definition first_host_at (all : list DiscoveredHost) (i : nat) : Prop :=
  exists h, all !! i = Some h /\ hostKey h ∉ map hostKey (take i all).

(** A scanner that finds nothing. *)
Definition silent_scanner : Scanner :=
  {| nmapScan := fun _ _ _ => Thrown "spawn nmap ENOENT";
     tcpOpen := fun _ _ _ => false |}.

(** The same host given twice, with overlapping ports. *)
Definition overlapping_targets : list TargetSpec :=
  [ {| ts_host := Some "192.0.2.11"; ts_range := None; ts_ports := [80; 554] |};
    {| ts_host := Some "192.0.2.11"; ts_range := None; ts_ports := [554; 8080] |} ].

Arguments isAuthenticatedResponseDifferent : simpl never.
Arguments Js.string_of_Z : simpl never.

(* ===================================================================== *)
(** * Part II: theorems                                                    *)
(* ===================================================================== *)


(** Boolean tests as propositions. *)
Ltac bool_props :=
  repeat rewrite ?andb_true_iff, ?orb_true_iff, ?negb_true_iff, ?negb_false_iff,
    ?andb_false_iff, ?orb_false_iff, ?Z.eqb_eq, ?Z.eqb_neq, ?Z.leb_le, ?Z.ltb_lt,
    ?Z.leb_gt, ?Z.ltb_ge in *.

(** ** Baseline-differential validation *)

Section BaselineDecision.

Implicit Types baseline authed : Snapshot.

Lemma isAuthenticatedResponseDifferent_sound baseline authed :
  isAuthenticatedResponseDifferent baseline authed = true ->
  different_cases baseline authed.
Proof.
  unfold isAuthenticatedResponseDifferent, different_cases, below_tenth.
  fold (sizeDiff_of baseline authed) (maxSize_of baseline authed).
  destruct (((status baseline =? 401) || (status baseline =? 403))
              && (200 <=? status authed) && (status authed <? 400)) eqn:E1.
  { intros _. left. bool_props. lia. }
  destruct ((status baseline =? -1) && (200 <=? status authed) && (status authed <? 400)) eqn:E2.
  { intros _. right. left. bool_props. lia. }
  destruct (status baseline =? status authed) eqn:E3.
  - apply Z.eqb_eq in E3.
    destruct (String.eqb_spec (body baseline) (body authed)) as [Hb | Hb]; [done |].
    destruct (10 * sizeDiff_of baseline authed <? maxSize_of baseline authed) eqn:E4.
    + destruct (Regex.test authIndicators (body authed)
                && negb (Regex.test authIndicators (body baseline))) eqn:E5; [| done].
      intros _. right. right. right. left. bool_props.
      split; [done |]. split; [lia |]. tauto.
    + intros _. right. right. left. bool_props. split; [done |]. split; [done |]. lia.
  - destruct ((200 <=? status authed) && (status authed <? 400) && (400 <=? status baseline)) eqn:E4; [| done].
    intros _. right. right. right. right. bool_props. lia.
Qed.

Lemma isAuthenticatedResponseDifferent_complete baseline authed :
  different_cases baseline authed ->
  isAuthenticatedResponseDifferent baseline authed = true.
Proof.
  unfold isAuthenticatedResponseDifferent, different_cases, below_tenth.
  fold (sizeDiff_of baseline authed) (maxSize_of baseline authed).
  intros H.
  destruct (((status baseline =? 401) || (status baseline =? 403))
              && (200 <=? status authed) && (status authed <? 400)) eqn:E1; [done |].
  destruct ((status baseline =? -1) && (200 <=? status authed) && (status authed <? 400)) eqn:E2; [done |].
  destruct H as [H | [H | [H | [H | H]]]].
  - exfalso. bool_props. lia.
  - exfalso. bool_props. lia.
  - destruct H as (Hs & Hb & Hsz). rewrite Hs, Z.eqb_refl.
    destruct (String.eqb_spec (body baseline) (body authed)); [done |].
    destruct (10 * sizeDiff_of baseline authed <? maxSize_of baseline authed) eqn:E; [lia | done].
  - destruct H as (Hs & Hsz & Ha & Hbl). rewrite Hs, Z.eqb_refl.
    destruct (String.eqb_spec (body baseline) (body authed)) as [Hb | Hb].
    { rewrite Hb in Hbl. congruence. }
    destruct (10 * sizeDiff_of baseline authed <? maxSize_of baseline authed) eqn:E; [| done]. by rewrite Ha, Hbl.
  - destruct (status baseline =? status authed) eqn:E3; [lia |].
    destruct ((200 <=? status authed) && (status authed <? 400) && (400 <=? status baseline)) eqn:E4; [done |]. bool_props. lia.
Qed.

End BaselineDecision.

(** ** The baseline cache *)

Section BaselineCache.

Variable net : Network.

Lemma getBaseline_hit url w cached :
  baselineCache w !! url = Some cached ->
  BaselineTester.getBaseline net url w = (cached, w).
Proof. intros H. unfold BaselineTester.getBaseline. by rewrite H. Qed.

Lemma getBaseline_miss url w :
  baselineCache w !! url = None ->
  exists b,
    BaselineTester.getBaseline net url w
    = (b, {| calls := (calls w ++ [baseline_fetch url])%list; draws := draws w;
             baselineCache := <[url := b]> (baselineCache w);
             rtspUnauthCache := rtspUnauthCache w |})
    /\ b = match http_reply net (calls w) (Get url None []) with
           | Returned resp =>
               {| status := resp_status resp; body := body_text (resp_data resp) |}
           | Thrown _ => {| status := -1; body := "" |}
           end.
Proof.
  intros H. unfold BaselineTester.getBaseline. rewrite H.
  eexists. split; [| reflexivity]. reflexivity.
Qed.

(** What any sequence of [getBaseline] calls does to the world. *)
Lemma getBaseline_sequence urls : forall w,
  exists fetched,
    let '(bs, w') := for_each (BaselineTester.getBaseline net) urls w in
    calls w' = (calls w ++ map baseline_fetch fetched)%list
    /\ NoDup fetched
    /\ (forall u, u ∈ fetched -> u ∈ urls /\ baselineCache w !! u = None)
    /\ (forall u b, baselineCache w !! u = Some b -> baselineCache w' !! u = Some b)
    /\ Forall2 (fun u b => baselineCache w' !! u = Some b) urls bs.
Proof.
  induction urls as [| u urls IH]; intros w.
  - exists []. simpl. rewrite app_nil_r. repeat split; try constructor; set_solver.
  - simpl. unfold bind at 1.
    destruct (baselineCache w !! u) as [cached |] eqn:Hu.
    + rewrite (getBaseline_hit _ _ _ Hu).
      destruct (IH w) as [fetched IHw]. exists fetched.
      unfold bind at 1.
      destruct (for_each (BaselineTester.getBaseline net) urls w) as [bs w'].
      destruct IHw as (Hc & Hnd & Hin & Hmono & Hall). simpl.
      split; [done |]. split; [done |]. split; [| split; [done |]].
      * intros u0 Hu0. destruct (Hin u0 Hu0) as [? ?].
        split; [by apply elem_of_cons; right | done].
      * constructor; [by apply Hmono | done].
    + destruct (getBaseline_miss _ _ Hu) as (b & -> & _).
      set (w1 := {| calls := _ |}).
      destruct (IH w1) as [fetched IHw].
      unfold bind at 1.
      destruct (for_each (BaselineTester.getBaseline net) urls w1) as [bs w'].
      destruct IHw as (Hc & Hnd & Hin & Hmono & Hall). simpl in *.
      assert (Hfresh : u ∉ fetched).
      { intros Hf. apply Hin in Hf as [_ Hf]. by rewrite lookup_insert_eq in Hf. }
      exists (u :: fetched). simpl.
      split; [by rewrite Hc, <- app_assoc |].
      split; [by constructor |].
      split; [| split].
      * intros u0 Hu0. apply elem_of_cons in Hu0 as [-> | Hu0].
        { split; [by apply elem_of_cons; left | done]. }
        destruct (Hin u0 Hu0) as [Hu1 Hu2].
        split; [by apply elem_of_cons; right |].
        destruct (decide (u = u0)) as [-> | Hne]; [by rewrite lookup_insert_eq in Hu2 |].
        by rewrite lookup_insert_ne in Hu2.
      * intros u0 b0 H. apply Hmono.
        destruct (decide (u = u0)) as [-> | Hne]; [congruence |].
        by rewrite lookup_insert_ne.
      * constructor; [| done]. apply Hmono. by rewrite lookup_insert_eq.
Qed.

End BaselineCache.

(** C1 (as amended).  [isAuthenticatedResponseDifferent] holds exactly in
    the five cases of [different_cases]: a 401/403 baseline or an
    unreachable one with an authenticated status in [200, 400); equal
    statuses with bodies that differ by at least a tenth of the larger size;
    equal statuses, a smaller difference, and an authenticated body that
    matches the pattern [logout|sign.?out|dashboard|welcome|session|
    authenticated|token] without regard to case while the baseline body does
    not match it; an authenticated status in [200, 400) against a baseline
    of 400 or more.  Every sequence of [getBaseline] calls fetches each base
    URL at most once, only when it is not cached, and leaves each URL cached
    with the snapshot that was returned for it. *)
Theorem baseline_differential_decision :
  (forall baseline authed,
     isAuthenticatedResponseDifferent baseline authed = true
     <-> different_cases baseline authed)
  /\ (forall net urls w,
        exists fetched,
          let '(bs, w') := for_each (BaselineTester.getBaseline net) urls w in
          calls w' = (calls w ++ map baseline_fetch fetched)%list
          /\ NoDup fetched
          /\ (forall u, u ∈ fetched -> u ∈ urls /\ baselineCache w !! u = None)
          /\ Forall2 (fun u b => baselineCache w' !! u = Some b) urls bs).
Proof.
  split.
  - intros baseline authed. split.
    + apply isAuthenticatedResponseDifferent_sound.
    + apply isAuthenticatedResponseDifferent_complete.
  - intros net urls w.
    destruct (getBaseline_sequence net urls w) as [fetched H].
    exists fetched.
    destruct (for_each (BaselineTester.getBaseline net) urls w) as [bs w'].
    tauto.
Qed.

(** The claim as it is worded fails: with equal statuses and bodies of equal
    size, the authenticated body [signout] contains none of the seven listed
    markers, yet the code compares as different, because its pattern is
    [sign.?out]. *)
Lemma literal_markers_counterexample :
  let baseline := {| status := 200; body := "aaaaaaa" |} in
  let authed := {| status := 200; body := "signout" |} in
  isAuthenticatedResponseDifferent baseline authed = true
  /\ SpecReading.isDifferent baseline authed = false.
Proof. vm_compute. split; reflexivity. Qed.

(** ** A root page that does not depend on credentials *)

Lemma isAuthenticatedResponseDifferent_same (x : Snapshot) :
  isAuthenticatedResponseDifferent x x = false.
Proof.
  unfold isAuthenticatedResponseDifferent.
  destruct (((status x =? 401) || (status x =? 403)) && (200 <=? status x) && (status x <? 400)) eqn:E1.
  { bool_props. lia. }
  destruct ((status x =? -1) && (200 <=? status x) && (status x <? 400)) eqn:E2.
  { bool_props. lia. }
  rewrite Z.eqb_refl. by rewrite String.eqb_refl.
Qed.

Lemma bind_inv {S A B : Type} (m : St S A) (k : A -> St S B) w r w' :
  bind m k w = (r, w') -> exists a w1, m w = (a, w1) /\ k a w1 = (r, w').
Proof. unfold bind. destruct (m w) as [a w1]. eauto. Qed.

Lemma ret_inv {S A : Type} (a : A) (w : S) r w' : ret a w = (r, w') -> r = a /\ w' = w.
Proof. unfold ret. intros H. by inversion H. Qed.

Lemma testHost_loop_invariant
    (tH tR : FingerprintResult -> Credential -> M CredentialTestResult)
    (I : World -> Prop) (P : CredentialTestResult -> Prop)
    (target : FingerprintResult) (config : VeilcamsConfig) :
  (forall c w r w', I w -> tH target c w = (r, w') -> P r /\ I w') ->
  (forall c w r w', I w -> tR target c w = (r, w') -> P r /\ I w') ->
  forall todo attempts found results w rs w',
    I w -> Forall P results ->
    testHost_loop tH tR target config todo attempts found results w = (rs, w') ->
    Forall P rs /\ I w'.
Proof.
  intros HtH HtR todo.
  induction todo as [| c rest IH]; intros attempts found results w rs w' Hw Hres H.
  { apply ret_inv in H as [-> ->]. done. }
  simpl in H.
  destruct (max_attempts_per_host config <=? attempts).
  { apply ret_inv in H as [-> ->]. done. }
  destruct found.
  { apply ret_inv in H as [-> ->]. done. }
  assert (Hrtsp : forall attempts results w,
             I w -> Forall P results ->
             (if protocols_include P_rtsp target && protocols_rtsp config
              then
                let* rtspResult := tR target c in
                testHost_loop tH tR target config rest (attempts + 1)
                  (success rtspResult) (results ++ [rtspResult])%list
              else testHost_loop tH tR target config rest attempts false results) w
             = (rs, w') ->
             Forall P rs /\ I w').
  { clear H Hw Hres attempts results w. intros attempts results w Hw Hres H.
    destruct (protocols_include P_rtsp target && protocols_rtsp config).
    - apply bind_inv in H as (r & w1 & Hr & H).
      destruct (HtR _ _ _ _ Hw Hr) as [HP Hw1].
      eapply IH; [exact Hw1 | | exact H].
      apply Forall_app. split; [done |]. by constructor.
    - eapply IH; [exact Hw | exact Hres | exact H]. }
  destruct (protocols_include P_http target || protocols_include P_https target).
  - apply bind_inv in H as (r & w1 & Hr & H).
    destruct (HtH _ _ _ _ Hw Hr) as [HP Hw1].
    assert (Hres1 : Forall P (results ++ [r])).
    { apply Forall_app. split; [done |]. by constructor. }
    destruct (success r).
    + eapply IH; [exact Hw1 | exact Hres1 | exact H].
    + eapply Hrtsp; [exact Hw1 | exact Hres1 | exact H].
  - eapply Hrtsp; [exact Hw | exact Hres | exact H].
Qed.

Lemma isRtspUnauthenticated_baselineCache net host p path w b w' :
  BaselineTester.isRtspUnauthenticated net host p path w = (b, w') ->
  baselineCache w' = baselineCache w.
Proof.
  unfold BaselineTester.isRtspUnauthenticated.
  destruct (rtspUnauthCache w !! BaselineTester.rtsp_key host p path).
  - intros H. by inversion H.
  - unfold bind, rtspDescribe, BaselineTester.set_rtspUnauth, ret. simpl.
    intros H. by inversion H.
Qed.

Lemma BaselineTester_testRtspAuth_protocol net target c w r w' :
  BaselineTester.testRtspAuth net target c w = (r, w') ->
  r_protocol r = "rtsp" /\ baselineCache w' = baselineCache w.
Proof.
  unfold BaselineTester.testRtspAuth. intros H.
  apply bind_inv in H as (ts & w0 & Hts & H). unfold isoNow in Hts.
  inversion Hts; subst w0; clear Hts.
  unfold try_catch in H. apply bind_inv in H as (o & w2 & Ho & H).
  apply bind_inv in Ho as (open & w1 & Hopen & Ho).
  apply isRtspUnauthenticated_baselineCache in Hopen.
  destruct open.
  - apply ret_inv in Ho as [-> ->]. apply ret_inv in H as [-> ->]. done.
  - unfold bindT, bind, rtspDescribe in Ho. simpl in Ho.
    destruct (rtsp_reply net (calls w1) _) as [reply | msg];
      apply ret_inv in Ho as [-> ->]; apply ret_inv in H as [-> ->]; done.
Qed.

Section SameRoot.
Variable net : Network.
Variable target : FingerprintResult.
Variable d : AxiosData.

Hypothesis Hroot : serves_same net target d.

Lemma getBaseline_same w :
  cache_agrees target d w ->
  fst (BaselineTester.getBaseline net (baseUrl_of target) w)
  = {| status := 200; body := body_text d |}
  /\ cache_agrees target d (snd (BaselineTester.getBaseline net (baseUrl_of target) w)).
Proof.
  intros Hw. destruct (baselineCache w !! baseUrl_of target) as [b |] eqn:Hb.
  - rewrite (getBaseline_hit _ _ _ _ Hb). simpl. split; [by apply Hw | done].
  - destruct (getBaseline_miss net _ _ Hb) as (b & -> & Hbv). simpl.
    destruct (Hroot (calls w) None []) as [hs Hr]. rewrite Hr in Hbv. simpl in Hbv.
    split; [done |]. intros b'. simpl. rewrite lookup_insert_eq. congruence.
Qed.


Lemma formLogin_rejected c ts endpoints : forall w found w',
  posts_rejected net ->
  formLogin net target c ts endpoints w = (found, w') ->
  found = None /\ baselineCache w' = baselineCache w.
Proof.
  induction endpoints as [| e es IH]; intros w found w' Hp H.
  { apply ret_inv in H as [-> ->]. done. }
  simpl in H. apply bind_inv in H as (o & w1 & Ho & H).
  unfold httpPost in Ho. inversion Ho; subst o w1; clear Ho.
  pose proof (Hp (calls w) (baseUrl_of target ++ e)
                [("userName", username c); ("password", password c)]) as Hp1.
  destruct (http_reply net (calls w) _) as [resp | msg].
  - apply Z.eqb_neq in Hp1. rewrite Hp1 in H. simpl in H.
    apply IH in H as [-> ->]; done.
  - apply IH in H as [-> ->]; done.
Qed.

Lemma vendorLogin_rejected c ts endpoints : forall w found w',
  posts_rejected net ->
  BaselineTester.vendorLogin net target c ts endpoints w = (found, w') ->
  found = None /\ baselineCache w' = baselineCache w.
Proof.
  induction endpoints as [| e es IH]; intros w found w' Hp H.
  { apply ret_inv in H as [-> ->]. done. }
  simpl in H. apply bind_inv in H as (o & w1 & Ho & H).
  unfold httpPost in Ho. inversion Ho; subst o w1; clear Ho.
  pose proof (Hp (calls w) (baseUrl_of target ++ e)
                [("userName", username c); ("password", password c);
                 ("username", username c)]) as Hp1.
  destruct (http_reply net (calls w) _) as [resp | msg].
  - apply Z.eqb_neq in Hp1. rewrite Hp1 in H. simpl in H.
    apply IH in H as [-> ->]; done.
  - apply IH in H as [-> ->]; done.
Qed.

Lemma generic_fallback_same c ts w o w' :
  BaselineTester.generic_fallback net target c ts
    {| status := 200; body := body_text d |} w = (o, w') ->
  outcome_success o = false
  /\ (forall r, o = Returned r -> r_protocol r = scheme_of target)
  /\ baselineCache w' = baselineCache w.
Proof.
  unfold BaselineTester.generic_fallback, bindT, bind, httpGet. simpl.
  destruct (Hroot (calls w) (Some c) []) as [hs ->]. simpl.
  rewrite isAuthenticatedResponseDifferent_same. 
  intros H. apply ret_inv in H as [-> ->]. simpl.
  split; [done |]. split; [| done]. intros r Hr. by inversion Hr.
Qed.

Lemma testHttpAuth_same c w r w' :
  (authType target = A_digest -> exists s, d = DataString s) ->
  (authType target = A_form \/ authType target = A_none -> posts_rejected net) ->
  cache_agrees target d w ->
  BaselineTester.testHttpAuth net target c w = (r, w') ->
  success r = false /\ r_protocol r = scheme_of target /\ cache_agrees target d w'.
Proof.
  intros Hdig Hpost Hw H.
  unfold BaselineTester.testHttpAuth in H.
  apply bind_inv in H as (ts & w0 & Hts & H). unfold isoNow in Hts. inversion Hts; subst w0. clear Hts.
  unfold try_catch in H.
  apply bind_inv in H as (o & w2 & Ho & H).
  apply bind_inv in Ho as (b & w1 & Hb & Ho).
  destruct (getBaseline_same w Hw) as [Hb1 Hw1]. rewrite Hb in Hb1, Hw1. simpl in Hb1, Hw1.
  subst b.
  assert (Hgoal : outcome_success o = false
                  /\ (forall r, o = Returned r -> r_protocol r = scheme_of target)
                  /\ baselineCache w2 = baselineCache w1).
  { destruct (authType target) eqn:Hauth.
    - (* none *)
      apply bind_inv in Ho as (found & w3 & Hf & Ho).
      apply vendorLogin_rejected in Hf as [-> Hc]; [| by apply Hpost; right].
      apply ret_inv in Ho as [-> ->]. simpl. split; [done |]. split; [| done].
      intros r0 Hr0. by inversion Hr0.
    - (* basic *)
      unfold bindT, bind, httpGet in Ho. simpl in Ho.
      destruct (Hroot (calls w1) (Some c) []) as [hs Hr]. rewrite Hr in Ho. simpl in Ho.
      rewrite isAuthenticatedResponseDifferent_same in Ho.
      apply ret_inv in Ho as [-> ->]. simpl. split; [done |]. split; [| done].
      intros r0 Hr0. by inversion Hr0.
    - (* digest *)
      destruct (Hdig eq_refl) as [sd Hd].
      unfold bindT at 1 in Ho.
      apply bind_inv in Ho as (o1 & w3 & Ho1 & Ho).
      unfold httpGet in Ho1. simpl in Ho1.
      destruct (Hroot (calls w1) None []) as [hs Hr]. rewrite Hr in Ho1.
      inversion Ho1; subst o1 w3; clear Ho1.
      apply bind_inv in Ho as (hdr & w4 & Hh & Ho).
      assert (Hc4 : baselineCache w4 = baselineCache w1 ).
      { unfold computeDigestAuthM in Hh. simpl in Hh.
        apply bind_inv in Hh as (rnd & w5 & Hrnd & Hh). apply ret_inv in Hh as [_ ->].
        unfold randomHex in Hrnd. by inversion Hrnd. }
      unfold bindT, bind, httpGet in Ho. simpl in Ho.
      destruct (Hroot (calls w4) None [("Authorization", hdr)]) as [hs' Hr']. rewrite Hr' in Ho.
      simpl in Ho. rewrite Hd in Ho. simpl in Ho.
      rewrite isAuthenticatedResponseDifferent_same in Ho.
      apply ret_inv in Ho as [-> ->]. simpl. split; [done |]. split; [| done].
      intros r0 Hr0. by inversion Hr0.
    - (* form *)
      apply bind_inv in Ho as (found & w3 & Hf & Ho).
      apply formLogin_rejected in Hf as [-> Hc]; [| by apply Hpost; left].
      apply generic_fallback_same in Ho as (? & ? & ?). split; [done |]. split; [done |]. congruence.
    - (* bearer *)
      by apply generic_fallback_same in Ho.
    - (* unknown *)
      unfold bindT, bind, httpGet in Ho. simpl in Ho.
      destruct (Hroot (calls w1) (Some c) []) as [hs Hr]. rewrite Hr in Ho. simpl in Ho.
      rewrite isAuthenticatedResponseDifferent_same in Ho.
      apply ret_inv in Ho as [-> ->]. simpl. split; [done |]. split; [| done].
      intros r0 Hr0. by inversion Hr0. }
  destruct Hgoal as (Hs & Hp & Hc).
  assert (Hw2 : cache_agrees target d w2).
  { unfold cache_agrees. rewrite Hc. apply Hw1. }
  destruct o as [r0 | msg]; apply ret_inv in H as [-> ->].
  - split; [done |]. split; [by apply Hp | done].
  - done.
Qed.

Lemma testHost_same config w rs w' :
  (authType target = A_digest -> exists s, d = DataString s) ->
  (authType target = A_form \/ authType target = A_none -> posts_rejected net) ->
  cache_agrees target d w ->
  BaselineTester.testHost net target config w = (rs, w') ->
  Forall (fun r => r_protocol r <> "rtsp" -> success r = false) rs.
Proof.
  intros Hdig Hpost Hw H.
  unfold BaselineTester.testHost in H.
  eapply (testHost_loop_invariant _ _ (cache_agrees target d)) in H; [exact (proj1 H) | | | exact Hw | constructor].
  - intros c w0 r w0' Hw0 Hr.
    destruct (testHttpAuth_same _ _ _ _ Hdig Hpost Hw0 Hr) as (? & ? & ?). done.
  - intros c w0 r w0' Hw0 Hr.
    apply BaselineTester_testRtspAuth_protocol in Hr as [Hp Hc].
    split; [intros Hn; by rewrite Hp in Hn |].
    unfold cache_agrees. rewrite Hc. apply Hw0.
Qed.

End SameRoot.




(** ** RTSP: a stream that is open without credentials *)

Section RtspSuppression.

Variable net : Network.
Variable target : FingerprintResult.

Lemma isRtspUnauthenticated_cached w b :
  rtspUnauthCache w !! unauth_key target = Some b ->
  BaselineTester.isRtspUnauthenticated net (ip target) (rtspPort_of target)
    (testPath_of target) w = (b, w).
Proof.
  intros H. unfold BaselineTester.isRtspUnauthenticated.
  fold (unauth_key target). by rewrite H.
Qed.

Lemma isRtspUnauthenticated_probe w :
  rtspUnauthCache w !! unauth_key target = None ->
  exists b,
    BaselineTester.isRtspUnauthenticated net (ip target) (rtspPort_of target)
      (testPath_of target) w
    = (b, {| calls := (calls w ++ [CallRtsp (unauth_probe target)])%list;
             draws := draws w; baselineCache := baselineCache w;
             rtspUnauthCache := <[unauth_key target := b]> (rtspUnauthCache w) |})
    /\ b = match rtsp_reply net (calls w) (unauth_probe target) with
           | Returned result => statusCode result =? 200
           | Thrown _ => false
           end.
Proof.
  intros H. unfold BaselineTester.isRtspUnauthenticated.
  fold (unauth_key target). rewrite H. eexists. split; reflexivity.
Qed.

(** The result of the probe is in the cache afterwards, under the key of
    the address, the port and the path. *)
Lemma isRtspUnauthenticated_caches w b w' :
  BaselineTester.isRtspUnauthenticated net (ip target) (rtspPort_of target)
    (testPath_of target) w = (b, w') ->
  rtspUnauthCache w' !! unauth_key target = Some b.
Proof.
  destruct (rtspUnauthCache w !! unauth_key target) as [b0 |] eqn:Hk.
  - rewrite (isRtspUnauthenticated_cached _ _ Hk). intros H. inversion H; subst. done.
  - destruct (isRtspUnauthenticated_probe _ Hk) as (b1 & -> & _).
    intros H. inversion H; subst. simpl. apply lookup_insert_eq.
Qed.

Lemma isRtspUnauthenticated_open w b w' :
  stream_open net target ->
  rtsp_cache_agrees target w ->
  BaselineTester.isRtspUnauthenticated net (ip target) (rtspPort_of target)
    (testPath_of target) w = (b, w') ->
  b = true /\ rtsp_cache_agrees target w'.
Proof.
  intros Hopen Hw.
  destruct (rtspUnauthCache w !! unauth_key target) as [b0 |] eqn:Hk.
  - rewrite (isRtspUnauthenticated_cached _ _ Hk). intros H. inversion H; subst.
    split; [by apply Hw | done].
  - destruct (isRtspUnauthenticated_probe _ Hk) as (b1 & -> & Hb1).
    destruct (Hopen (calls w)) as (reply & Hr & Hst). rewrite Hr, Hst in Hb1.
    simpl in Hb1. intros H. inversion H; subst. split; [done |].
    intros b. simpl. rewrite lookup_insert_eq. congruence.
Qed.

Lemma testRtspAuth_open c w r w' :
  stream_open net target ->
  rtsp_cache_agrees target w ->
  BaselineTester.testRtspAuth net target c w = (r, w') ->
  success r = false
  /\ evidence r = BaselineTester.unauth_evidence (testPath_of target)
  /\ rtsp_cache_agrees target w'.
Proof.
  intros Hopen Hw H. unfold BaselineTester.testRtspAuth in H.
  apply bind_inv in H as (ts & w0 & Hts & H). unfold isoNow in Hts.
  inversion Hts; subst w0; clear Hts.
  unfold try_catch in H. apply bind_inv in H as (o & w2 & Ho & H).
  apply bind_inv in Ho as (b & w1 & Hb & Ho).
  apply (isRtspUnauthenticated_open _ _ _ Hopen Hw) in Hb as [-> Hw1].
  apply ret_inv in Ho as [-> ->]. apply ret_inv in H as [-> ->]. done.
Qed.

(** A success of [testRtspAuth] means that the probe without credentials
    was recorded as denied and that the DESCRIBE with the credential
    answered 200. *)
Lemma testRtspAuth_success c w r w' :
  BaselineTester.testRtspAuth net target c w = (r, w') ->
  success r = true ->
  rtspUnauthCache w' !! unauth_key target = Some false
  /\ responseCode r = Some 200.
Proof.
  intros H Hs. unfold BaselineTester.testRtspAuth in H.
  apply bind_inv in H as (ts & w0 & Hts & H). unfold isoNow in Hts.
  inversion Hts; subst w0; clear Hts.
  unfold try_catch in H. apply bind_inv in H as (o & w2 & Ho & H).
  apply bind_inv in Ho as (b & w1 & Hb & Ho).
  apply isRtspUnauthenticated_caches in Hb.
  destruct b.
  - apply ret_inv in Ho as [-> ->]. apply ret_inv in H as [-> ->]. done.
  - unfold bindT, bind, rtspDescribe in Ho. simpl in Ho.
    destruct (rtsp_reply net (calls w1) _) as [reply | msg];
      apply ret_inv in Ho as [-> ->]; apply ret_inv in H as [-> ->]; simpl in *; [| done].
    split; [done |]. apply Z.eqb_eq in Hs. by rewrite Hs.
Qed.

End RtspSuppression.

Lemma includes_app_r p a b :
  Js.includes p b = true -> Js.includes p (a ++ b) = true.
Proof.
  intros H. induction a as [| ch a IH]; [done |].
  simpl. rewrite IH. apply orb_true_r.
Qed.

(** The text of the evidence says what the finding is. *)
Lemma unauth_evidence_says path :
  Js.includes "unauthenticated access is the real finding"
    (BaselineTester.unauth_evidence path) = true.
Proof.
  unfold BaselineTester.unauth_evidence.
  apply includes_app_r, includes_app_r. vm_compute. reflexivity.
Qed.

(** X18.  With the probe without credentials, every credential that
    [testRtspAuth] tests against a stream that answers 200 to everyone is
    reported with [success = false] and with an evidence text that names
    unauthenticated access as the real finding. *)
Theorem rtsp_open_stream_suppressed net target cs : forall w rs w',
  stream_open net target ->
  rtsp_cache_agrees target w ->
  for_each (BaselineTester.testRtspAuth net target) cs w = (rs, w') ->
  Forall (fun r => success r = false
                   /\ Js.includes "unauthenticated access is the real finding"
                        (evidence r) = true) rs.
Proof.
  induction cs as [| c cs IH]; intros w rs w' Hopen Hw H.
  { apply ret_inv in H as [-> ->]. constructor. }
  simpl in H. apply bind_inv in H as (r & w1 & Hr & H).
  apply bind_inv in H as (rs1 & w2 & Hrs & H). apply ret_inv in H as [-> ->].
  destruct (testRtspAuth_open _ _ _ _ _ _ Hopen Hw Hr) as (Hs & He & Hw1).
  constructor.
  - split; [done |]. rewrite He. apply unauth_evidence_says.
  - by eapply IH.
Qed.

(** C3.  The tester of [src/modules/credential-tester.ts] sends no probe
    without credentials: against a stream that answers 200 to everyone, its
    [testRtspAuth] reports [success = true] for any credential, where the
    claim (and the tester with baseline validation) reports
    [success = false]. *)
Theorem plain_tester_accepts_open_stream :
  (forall hist auth,
     exists reply,
       rtsp_reply open_host hist
         (Describe "192.0.2.11" 554 (testPath_of (sample_target A_basic)) auth)
       = Returned reply /\ statusCode reply = 200)
  /\ success (fst (PlainTester.testRtspAuth open_host (sample_target A_basic)
                     (cred "admin" "not-the-password") initial_world)) = true
  /\ success (fst (BaselineTester.testRtspAuth open_host (sample_target A_basic)
                     (cred "admin" "not-the-password") initial_world)) = false.
Proof.
  split; [| split; vm_compute; reflexivity].
  intros hist auth. eexists. split; reflexivity.
Qed.

(** ** The two testers compared *)

Section Comparison.

Variable net : Network.
Variable target : FingerprintResult.
Hypothesis Hstat : stationary net.

Lemma http_reply_nil h c : http_reply net h c = http_reply net [] c.
Proof. apply Hstat. Qed.

Lemma rtsp_reply_nil h c : rtsp_reply net h c = rtsp_reply net [] c.
Proof. apply Hstat. Qed.

Lemma formLogin_stationary c ts1 ts2 endpoints : forall w1 w2,
  option_map success (fst (formLogin net target c ts1 endpoints w1))
  = option_map success (fst (formLogin net target c ts2 endpoints w2)).
Proof.
  induction endpoints as [| e es IH]; intros w1 w2; [done |].
  simpl. unfold bind, httpPost. simpl.
  rewrite (http_reply_nil (calls w1)), (http_reply_nil (calls w2)).
  destruct (http_reply net [] _) as [resp | msg].
  - destruct (_ && _ && _); [done |]. apply IH.
  - apply IH.
Qed.

Lemma formLogin_draws c ts endpoints : forall w,
  draws (snd (formLogin net target c ts endpoints w)) = draws w.
Proof.
  induction endpoints as [| e es IH]; intros w; [done |].
  simpl. unfold bind, httpPost. simpl.
  destruct (http_reply net (calls w) _) as [resp | msg].
  - destruct (_ && _ && _); [done |]. by rewrite IH.
  - by rewrite IH.
Qed.

Lemma getBaseline_draws url w b w' :
  BaselineTester.getBaseline net url w = (b, w') -> draws w' = draws w.
Proof.
  unfold BaselineTester.getBaseline.
  destruct (baselineCache w !! url); intros H; inversion H; done.
Qed.

Lemma fallback_stricter c ts1 ts2 b w1 w2 :
  outcome_success (fst (BaselineTester.generic_fallback net target c ts1 b w1)) = true ->
  outcome_success (fst (PlainTester.generic_attempt net target c ts2 w2)) = true.
Proof.
  unfold BaselineTester.generic_fallback, PlainTester.generic_attempt.
  unfold bindT, bind, httpGet, ret. simpl.
  rewrite (http_reply_nil (calls w1)), (http_reply_nil (calls w2)).
  destruct (http_reply net [] _) as [resp | msg]; simpl; [| done].
  intros H. by apply andb_prop in H as [H _].
Qed.

Lemma try_catch_success (body : M (Outcome CredentialTestResult)) handler w :
  (forall msg, success (handler msg) = false) ->
  success (fst (try_catch body handler w)) = outcome_success (fst (body w)).
Proof.
  intros Hh. unfold try_catch, bind. destruct (body w) as [[r | msg] w']; simpl; [done |].
  apply Hh.
Qed.

Lemma tester_success (body : string -> M (Outcome CredentialTestResult))
    (handler : string -> string -> CredentialTestResult) w :
  (forall ts msg, success (handler ts msg) = false) ->
  success (fst ((let* ts := isoNow net in try_catch (body ts) (handler ts)) w))
  = outcome_success (fst (body (clock net (calls w)) w)).
Proof. intros Hh. unfold bind at 1. unfold isoNow. by apply try_catch_success. Qed.

Lemma testHttpAuth_stricter c w1 w2 :
  authType target <> A_none ->
  draws w1 = draws w2 ->
  success (fst (BaselineTester.testHttpAuth net target c w1)) = true ->
  success (fst (PlainTester.testHttpAuth net target c w2)) = true.
Proof.
  intros Hnone Hd.
  unfold BaselineTester.testHttpAuth, PlainTester.testHttpAuth.
  rewrite (tester_success _ (fun ts message => http_result target c false None
                               ("Connection error: " ++ message) ts) w1) by done.
  rewrite (tester_success _ (fun ts message => http_result target c false None
                               ("Connection error: " ++ message) ts) w2) by done.
  unfold bind at 1.
  destruct (BaselineTester.getBaseline net (baseUrl_of target) w1) as [b w3] eqn:Hb.
  apply getBaseline_draws in Hb.
  set (ts1 := clock net (calls w1)). set (ts2 := clock net (calls w2)).
  destruct (authType target) eqn:Hauth; [done | | | | |].
  - (* basic *)
    unfold bindT, bind, httpGet, ret. simpl.
    rewrite (http_reply_nil (calls w3)), (http_reply_nil (calls w2)).
    destruct (http_reply net [] _) as [resp | msg]; simpl; [| done].
    intros H. by apply andb_prop in H as [H _].
  - (* digest *)
    unfold bindT, bind, httpGet, computeDigestAuthM, randomHex, ret. simpl.
    rewrite (http_reply_nil (calls w3)), (http_reply_nil (calls w2)).
    destruct (http_reply net [] (Get (baseUrl_of target) None [])) as [ch | msg]; simpl; [| done].
    rewrite Hb, Hd.
    rewrite (http_reply_nil (_ ++ _)), (http_reply_nil (calls w2 ++ _)).
    destruct (http_reply net [] _) as [resp | msg]; simpl; [| done].
    intros H. by apply andb_prop in H as [H _].
  - (* form *)
    unfold bind.
    pose proof (formLogin_stationary c ts1 ts2 loginEndpoints w3 w2) as Hf.
    destruct (formLogin net target c ts1 loginEndpoints w3) as [[r1 |] w4];
      destruct (formLogin net target c ts2 loginEndpoints w2) as [[r2 |] w5];
      simpl in Hf; try discriminate Hf.
    + unfold ret. simpl. congruence.
    + apply fallback_stricter.
  - apply fallback_stricter.
  - (* unknown *)
    unfold bindT, bind, httpGet, ret. simpl.
    rewrite (http_reply_nil (calls w3)), (http_reply_nil (calls w2)).
    destruct (http_reply net [] _) as [resp | msg]; simpl; [| done].
    intros H. by apply andb_prop in H as [H _].
Qed.

Lemma testRtspAuth_stricter c w1 w2 :
  success (fst (BaselineTester.testRtspAuth net target c w1)) = true ->
  success (fst (PlainTester.testRtspAuth net target c w2)) = true.
Proof.
  unfold BaselineTester.testRtspAuth, PlainTester.testRtspAuth.
  rewrite (tester_success _ (fun ts message => rtsp_result target (rtspPort_of target) c
                               false None ("RTSP error: " ++ message) ts) w1) by done.
  rewrite (tester_success _ (fun ts message => rtsp_result target (rtspPort_of target) c
                               false None ("RTSP error: " ++ message) ts) w2) by done.
  unfold bind at 1.
  destruct (BaselineTester.isRtspUnauthenticated net _ _ _ w1) as [[|] w3]; [done |].
  unfold bindT, bind, rtspDescribe, ret. simpl.
  rewrite (rtsp_reply_nil (calls w3)), (rtsp_reply_nil (calls w2)).
  destruct (rtsp_reply net [] _) as [reply | msg]; simpl; done.
Qed.

End Comparison.

(** X19.  The tester with baseline validation is the stricter one.  For
    a host whose answers depend on the request only, a target, a credential
    and two worlds with the same number of random draws: when
    [testHttpAuth] with baseline validation reports a success for a target
    whose [authType] is not [none], so does [testHttpAuth] of
    [src/modules/credential-tester.ts]; and when [testRtspAuth] with the
    probe without credentials reports a success, so does the one without
    the probe. *)
Theorem baseline_tester_stricter net target c w1 w2 :
  stationary net ->
  draws w1 = draws w2 ->
  (authType target <> A_none ->
   success (fst (BaselineTester.testHttpAuth net target c w1)) = true ->
   success (fst (PlainTester.testHttpAuth net target c w2)) = true)
  /\ (success (fst (BaselineTester.testRtspAuth net target c w1)) = true ->
      success (fst (PlainTester.testRtspAuth net target c w2)) = true).
Proof.
  intros Hstat Hd. split.
  - intros Hnone. by apply testHttpAuth_stricter.
  - by apply testRtspAuth_stricter.
Qed.

Lemma baseline_tester_stricter_witness :
  stationary guarded_host
  /\ success (fst (BaselineTester.testHttpAuth guarded_host (sample_target A_basic)
                     (cred "admin" "12345") initial_world)) = true
  /\ success (fst (PlainTester.testHttpAuth guarded_host (sample_target A_basic)
                     (cred "admin" "12345") initial_world)) = true.
Proof.
  assert (Hstat : stationary guarded_host) by (split; intros h1 h2 c; reflexivity).
  split; [exact Hstat |].
  split; [vm_compute; reflexivity |].
  apply (baseline_tester_stricter guarded_host (sample_target A_basic)
           (cred "admin" "12345") initial_world initial_world Hstat eq_refl).
  - simpl. discriminate.
  - vm_compute. reflexivity.
Defined.

(** C4.  The two testers are not equivalent.  On a Basic target whose root
    page answers 200 with the same page to everyone, and on an RTSP stream
    that answers 200 to everyone, [testHttpAuth] and [testRtspAuth] of
    [src/modules/credential-tester.ts] report [success = true] for a
    credential that the host never checked, while those of the variant with
    baseline validation report [success = false]: the former has neither
    the comparison with the baseline nor the probe without credentials. *)
Theorem testers_disagree_on_open_host :
  success (fst (PlainTester.testHttpAuth open_host (sample_target A_basic)
                  (cred "admin" "admin") initial_world)) = true
  /\ success (fst (BaselineTester.testHttpAuth open_host (sample_target A_basic)
                     (cred "admin" "admin") initial_world)) = false
  /\ success (fst (PlainTester.testRtspAuth open_host (sample_target A_basic)
                     (cred "admin" "admin") initial_world)) = true
  /\ success (fst (BaselineTester.testRtspAuth open_host (sample_target A_basic)
                     (cred "admin" "admin") initial_world)) = false.
Proof. vm_compute. repeat split; reflexivity. Qed.

(** ** Digest authentication *)

Lemma string_app_cons (ch : ascii) (a b : string) : String ch a ++ b = String ch (a ++ b).
Proof. reflexivity. Qed.

Lemma string_app_assoc (a b c : string) : (a ++ b) ++ c = a ++ (b ++ c).
Proof. induction a as [| ch a IH]; [done |]. rewrite !string_app_cons. by f_equal. Qed.

Lemma string_app_nil_r (a : string) : a ++ "" = a.
Proof. induction a as [| ch a IH]; [done |]. rewrite string_app_cons. by f_equal. Qed.

Lemma concat_nil_cons (x : string) (xs : list string) :
  String.concat "" (x :: xs) = x ++ String.concat "" xs.
Proof. destruct xs; simpl; [by rewrite string_app_nil_r | done]. Qed.

Lemma concat_nil_app (xs ys : list string) :
  String.concat "" (xs ++ ys) = String.concat "" xs ++ String.concat "" ys.
Proof.
  induction xs as [| x xs IH]; [done |].
  change ((x :: xs) ++ ys)%list with (x :: (xs ++ ys))%list.
  by rewrite !concat_nil_cons, IH, ?string_app_assoc.
Qed.


(** ** The credential list *)

Lemma forEach_addCred_creds l : forall acc,
  creds (forEach_addCred l acc) = (creds acc ++ first_by_key (seen acc) l)%list.
Proof.
  induction l as [| c l IH]; intros acc; simpl.
  - by rewrite app_nil_r.
  - unfold forEach_addCred in *. simpl. rewrite IH. unfold addCred.
    destruct (bool_decide (cred_key c ∈ seen acc)); simpl; [done |].
    by rewrite <- app_assoc.
Qed.

Lemma forEach_addCred_app l1 l2 acc :
  forEach_addCred (l1 ++ l2) acc = forEach_addCred l2 (forEach_addCred l1 acc).
Proof. unfold forEach_addCred. apply fold_left_app. Qed.

Lemma buildCredentialList_first_by_key target config :
  buildCredentialList target config = first_by_key ∅ (candidates target config).
Proof.
  unfold buildCredentialList, candidates.
  destruct (use_defaults config);
    [destruct (bool_decide (vendor target ≠ V_unknown)) |];
    rewrite <- ?forEach_addCred_app, forEach_addCred_creds;
    cbn [creds seen app]; by rewrite ?app_nil_r, <- ?app_assoc.
Qed.

Lemma first_by_key_sublist l : forall s, sublist (first_by_key s l) l.
Proof.
  induction l as [| c l IH]; intros s; simpl; [constructor |].
  destruct (bool_decide (cred_key c ∈ s)).
  - by apply sublist_cons.
  - by apply sublist_skip.
Qed.

Lemma first_by_key_fresh l : forall s c,
  c ∈ first_by_key s l -> cred_key c ∉ s.
Proof.
  induction l as [| x l IH]; intros s c Hc; simpl in Hc; [by apply elem_of_nil in Hc |].
  destruct (bool_decide_reflect (cred_key x ∈ s)) as [Hx | Hx].
  - by apply IH.
  - apply elem_of_cons in Hc as [-> | Hc]; [done |].
    apply IH in Hc. set_solver.
Qed.

Lemma first_by_key_NoDup l : forall s, NoDup (map cred_key (first_by_key s l)).
Proof.
  induction l as [| x l IH]; intros s; simpl; [constructor |].
  destruct (bool_decide (cred_key x ∈ s)); [apply IH |].
  simpl. constructor; [| apply IH].
  intros Hin. apply list_elem_of_fmap in Hin as (c & Hk & Hc).
  apply first_by_key_fresh in Hc. set_solver.
Qed.

Lemma first_by_key_complete l : forall s c,
  c ∈ l -> cred_key c ∈ s \/ cred_key c ∈ map cred_key (first_by_key s l).
Proof.
  induction l as [| x l IH]; intros s c Hc; [by apply elem_of_nil in Hc |].
  simpl. apply elem_of_cons in Hc as [-> | Hc].
  - destruct (bool_decide_reflect (cred_key x ∈ s)); [by left |].
    right. simpl. by apply elem_of_cons; left.
  - destruct (bool_decide_reflect (cred_key x ∈ s)) as [Hx | Hx]; [by apply IH |].
    destruct (IH ({[cred_key x]} ∪ s) c Hc) as [H | H].
    + apply elem_of_union in H as [H | H]; [| by left].
      apply elem_of_singleton in H. right. simpl. rewrite H. by apply elem_of_cons; left.
    + right. simpl. by apply elem_of_cons; right.
Qed.

Lemma first_by_key_first l : forall s c,
  c ∈ first_by_key s l ->
  exists l1 l2, l = (l1 ++ c :: l2)%list /\ cred_key c ∉ map cred_key l1.
Proof.
  induction l as [| x l IH]; intros s c Hc; simpl in Hc; [by apply elem_of_nil in Hc |].
  destruct (bool_decide_reflect (cred_key x ∈ s)) as [Hx | Hx].
  - pose proof (first_by_key_fresh _ _ _ Hc) as Hfresh.
    destruct (IH _ _ Hc) as (l1 & l2 & -> & Hl1).
    exists (x :: l1), l2. split; [done |]. simpl.
    intros Hin. apply elem_of_cons in Hin as [Hin | Hin]; [| done]. congruence.
  - apply elem_of_cons in Hc as [-> | Hc].
    + exists [], l. split; [done |]. simpl. apply not_elem_of_nil.
    + pose proof (first_by_key_fresh _ _ _ Hc) as Hfresh.
      destruct (IH _ _ Hc) as (l1 & l2 & -> & Hl1).
      exists (x :: l1), l2. split; [done |]. simpl.
      intros Hin. apply elem_of_cons in Hin as [Hin | Hin]; [| done]. set_solver.
Qed.

Lemma first_by_key_positions l : forall s n all,
  drop n all = l ->
  (forall k, k ∈ s <-> k ∈ map cred_key (take n all)) ->
  exists positions,
    StronglySorted lt positions
    /\ Forall (fun i => (n <= i)%nat) positions
    /\ (forall i, i ∈ positions <-> (n <= i)%nat /\ first_occurrence all i)
    /\ Forall2 (fun c i => all !! i = Some c) (first_by_key s l) positions.
Proof.
  induction l as [| c l IH]; intros s n all Hdrop Hs.
  - exists []. split; [constructor |]. split; [constructor |]. split; [| constructor].
    intros i. split.
    + intros Hi. by apply elem_of_nil in Hi.
    + intros [Hn (x & Hx & _)]. exfalso.
      apply lookup_lt_Some in Hx.
      assert (length (drop n all) = 0%nat) as Hlen by (by rewrite Hdrop).
      rewrite length_drop in Hlen. lia.
  - assert (Hn : all !! n = Some c).
    { pose proof (lookup_drop all n 0) as H. rewrite Hdrop in H. simpl in H.
      by rewrite Nat.add_0_r in H. }
    assert (Hrest : drop (S n) all = l).
    { pose proof (drop_S all c n Hn) as H. rewrite Hdrop in H. by injection H. }
    assert (Htake : take (S n) all = (take n all ++ [c])%list) by (by apply take_S_r).
    simpl. destruct (bool_decide_reflect (cred_key c ∈ s)) as [Hc | Hc].
    + destruct (IH s (S n) all Hrest) as (ps & Hsort & Hge & Hiff & Hall).
      { intros k. rewrite Htake, map_app, elem_of_app, <- Hs. simpl.
        rewrite list_elem_of_singleton. split; [by left | intros [H | ->]; done]. }
      exists ps. split; [done |]. split; [| split; [| done]].
      * eapply Forall_impl; [exact Hge |]. simpl. lia.
      * intros i. rewrite Hiff. split; [intros [Hi Hfirst]; split; [lia | done] |].
        intros [Hi Hfirst]. split; [| done].
        destruct (decide (i = n)) as [-> | Hne]; [| lia].
        destruct Hfirst as (x & Hx & Hfresh). rewrite Hn in Hx. injection Hx as <-.
        by apply Hs in Hc.
    + destruct (IH ({[cred_key c]} ∪ s) (S n) all Hrest) as (ps & Hsort & Hge & Hiff & Hall).
      { intros k. rewrite Htake, map_app, elem_of_app, <- Hs. simpl.
        rewrite list_elem_of_singleton, elem_of_union, elem_of_singleton. tauto. }
      exists (n :: ps). split; [| split; [| split]].
      * constructor; [done |]. eapply Forall_impl; [exact Hge |]. simpl. lia.
      * constructor; [lia |]. eapply Forall_impl; [exact Hge |]. simpl. lia.
      * intros i. rewrite elem_of_cons, Hiff. split.
        -- intros [-> | [Hi Hfirst]]; [| split; [lia | done]].
           split; [lia |]. exists c. split; [done |]. by rewrite <- Hs.
        -- intros [Hi Hfirst]. destruct (decide (i = n)) as [-> | Hne]; [by left |].
           right. split; [lia | done].
      * by constructor.
Qed.

(** C8.  With [use_defaults] enabled, [buildCredentialList] goes through the
    defaults of the vendor, then the generic defaults (when the vendor is
    not [unknown]), then the custom credentials, and keeps of this sequence
    exactly the entries at the positions where a [username:password] key
    occurs for the first time, in the order of their positions.  Hence the
    result is a sublist of the sequence, no two of its entries have the same
    key, and every key of the sequence occurs in it. *)
Theorem buildCredentialList_ordered_dedup target config :
  use_defaults config = true ->
  let all := (DEFAULT_CREDENTIALS (vendor target)
              ++ (if bool_decide (vendor target ≠ V_unknown)
                  then DEFAULT_CREDENTIALS V_unknown else [])
              ++ custom config)%list in
  let result := buildCredentialList target config in
  (exists positions,
     StronglySorted lt positions
     /\ (forall i, i ∈ positions <-> first_occurrence all i)
     /\ Forall2 (fun c i => all !! i = Some c) result positions)
  /\ sublist result all
  /\ NoDup (map cred_key result)
  /\ (forall c, c ∈ all -> cred_key c ∈ map cred_key result)
  /\ (forall c, c ∈ result ->
        exists l1 l2, all = (l1 ++ c :: l2)%list /\ cred_key c ∉ map cred_key l1).
Proof.
  intros Hdef all result.
  assert (Hall : candidates target config = all).
  { unfold candidates, all. rewrite Hdef. by rewrite <- app_assoc. }
  subst result. rewrite buildCredentialList_first_by_key, Hall.
  split.
  { destruct (first_by_key_positions all ∅ 0 all) as (ps & Hsort & _ & Hiff & Hres).
    - apply drop_0.
    - intros k. simpl. rewrite elem_of_empty. split; [done |].
      intros H. by apply elem_of_nil in H.
    - exists ps. split; [done |]. split; [| done].
      intros i. rewrite Hiff. split; [by intros [_ H] | intros H; split; [lia | done]]. }
  split; [apply first_by_key_sublist |].
  split; [apply first_by_key_NoDup |].
  split; [| apply first_by_key_first].
  intros c Hc. destruct (first_by_key_complete all ∅ c Hc) as [H | H]; [set_solver | done].
Qed.

Lemma buildCredentialList_ordered_dedup_witness :
  let all := (DEFAULT_CREDENTIALS (vendor hikvision_target)
              ++ (if bool_decide (vendor hikvision_target ≠ V_unknown)
                  then DEFAULT_CREDENTIALS V_unknown else [])
              ++ custom sample_config)%list in
  let result := buildCredentialList hikvision_target sample_config in
  (exists positions,
     StronglySorted lt positions
     /\ (forall i, i ∈ positions <-> first_occurrence all i)
     /\ Forall2 (fun c i => all !! i = Some c) result positions)
  /\ sublist result all
  /\ NoDup (map cred_key result)
  /\ (forall c, c ∈ all -> cred_key c ∈ map cred_key result)
  /\ (forall c, c ∈ result ->
        exists l1 l2, all = (l1 ++ c :: l2)%list /\ cred_key c ∉ map cred_key l1).
Proof.
  apply (buildCredentialList_ordered_dedup hikvision_target sample_config).
  reflexivity.
Defined.

Example buildCredentialList_hikvision :
  map cred_key
    (buildCredentialList
       {| ip := "192.0.2.10"; port := 80; vendor := V_hikvision;
          protocols := [P_http]; authType := A_digest |}
       sample_config)
  = ["admin:12345"; "admin:admin"; "admin:Admin12345"; "admin:hiklinux"; "admin:";
     "admin:admin123"; "admin:password"; "admin:123456"; "root:root"; "root:";
     "user:user"; "admin:1234"; "operator:secret"].
Proof. vm_compute. reflexivity. Qed.

(** ** Decimal rendering and [parseInt] *)

Lemma read_digits_acc d : forall acc : positive,
  Js.read_digits 10 (Some (Z.pos acc)) (NilEmpty.string_of_uint d)
  = Some (Z.pos (Pos.of_uint_acc d acc)).
Proof.
  induction d; intros acc; simpl; try reflexivity;
    rewrite <- IHd; f_equal; f_equal; vm_compute Js.code; lia.
Qed.

Lemma read_digits_zero d :
  Js.read_digits 10 (Some 0) (NilEmpty.string_of_uint d)
  = Some (Z.of_N (Pos.of_uint d)).
Proof.
  induction d; simpl; try reflexivity; try exact IHd;
    apply (read_digits_acc d 1) || apply (read_digits_acc d 2)
    || apply (read_digits_acc d 3) || apply (read_digits_acc d 4)
    || apply (read_digits_acc d 5) || apply (read_digits_acc d 6)
    || apply (read_digits_acc d 7) || apply (read_digits_acc d 8)
    || apply (read_digits_acc d 9).
Qed.

Lemma read_digits_pos (p : positive) :
  Js.read_digits 10 None (NilEmpty.string_of_uint (Pos.to_uint p)) = Some (Z.pos p).
Proof.
  pose proof (read_digits_zero (Pos.to_uint p)) as H.
  rewrite DecimalPos.Unsigned.of_to in H. simpl in H.
  destruct (Pos.to_uint p) eqn:E; simpl in *; try exact H.
  exfalso. pose proof (DecimalPos.Unsigned.of_to p) as H1. rewrite E in H1. discriminate H1.
Qed.

Lemma string_of_uint_digits d : all_digits (NilEmpty.string_of_uint d) = true.
Proof. induction d; simpl; try reflexivity; exact IHd. Qed.

Lemma digit_not_space c : Js.is_digit c = true -> Js.is_space c = false.
Proof. unfold Js.is_digit, Js.is_space. intros H. bool_props. lia. Qed.

Lemma digit_code c : Js.is_digit c = true -> 48 <= Js.code c <= 57.
Proof. unfold Js.is_digit. intros H. bool_props. lia. Qed.

Lemma ascii_eqb_code a b : Js.code a <> Js.code b -> Ascii.eqb a b = false.
Proof.
  intros H. destruct (Ascii.eqb_spec a b) as [-> | ?]; [done | done].
Qed.

Lemma parse_unsigned_digits s :
  all_digits s = true -> Js.parse_unsigned s = Js.read_digits 10 None s.
Proof.
  intros Hd. unfold Js.parse_unsigned.
  assert (Hx : Js.startsWith "0x" s || Js.startsWith "0X" s = false).
  { destruct s as [| c s]; [reflexivity |].
    destruct s as [| c2 s]; cbn [Js.startsWith]; [by rewrite !andb_false_r |].
    unfold all_digits in Hd. simpl in Hd.
    apply andb_prop in Hd as [_ Hd]. apply andb_prop in Hd as [Hc2 _].
    pose proof (digit_code c2 Hc2) as Hcode2.
    rewrite (ascii_eqb_code "x" c2), (ascii_eqb_code "X" c2)
      by (vm_compute (Js.code "x"); vm_compute (Js.code "X"); lia).
    by rewrite !andb_false_r. }
  by rewrite Hx.
Qed.

Lemma string_of_pos_digits p :
  NilZero.string_of_uint (Pos.to_uint p) = NilEmpty.string_of_uint (Pos.to_uint p)
  /\ exists c s, NilEmpty.string_of_uint (Pos.to_uint p) = String c s
                 /\ Js.is_digit c = true.
Proof.
  pose proof (read_digits_pos p) as Hr.
  pose proof (string_of_uint_digits (Pos.to_uint p)) as Hd.
  unfold NilZero.string_of_uint.
  destruct (Pos.to_uint p) eqn:E; try discriminate Hr;
    (split; [reflexivity |]); simpl; eexists _, _; (split; [reflexivity |]); reflexivity.
Qed.

Lemma parseInt_string_of_Z z : Js.parseInt (Js.string_of_Z z) = Some z.
Proof.
  unfold Js.string_of_Z. destruct z as [| p | p]; [reflexivity | |].
  - simpl. destruct (string_of_pos_digits p) as (-> & c & s & Hs & Hc).
    unfold Js.parseInt.
    pose proof (read_digits_pos p) as Hr.
    pose proof (parse_unsigned_digits _ (string_of_uint_digits (Pos.to_uint p))) as Hp.
    rewrite Hr in Hp. rewrite Hs in *.
    pose proof (digit_code c Hc) as Hcode.
    cbn [Js.trimStart]. rewrite (digit_not_space c Hc).
    rewrite (ascii_eqb_code c "-"), (ascii_eqb_code c "+")
      by (vm_compute (Js.code "-"); vm_compute (Js.code "+"); lia).
    by rewrite Hp.
  - simpl. destruct (string_of_pos_digits p) as (-> & c & s & Hs & Hc).
    unfold Js.parseInt.
    pose proof (read_digits_pos p) as Hr.
    pose proof (parse_unsigned_digits _ (string_of_uint_digits (Pos.to_uint p))) as Hp.
    rewrite Hr in Hp.
    cbn [Js.trimStart]. change (Js.is_space "-") with false. cbv iota.
    rewrite Ascii.eqb_refl. by rewrite Hp.
Qed.

(** ** Splitting a key at its colons *)

Lemma includes_colon_cons c s :
  Js.includes ":" (String c s) = Ascii.eqb ":" c || Js.includes ":" s.
Proof. cbn [Js.includes Js.startsWith]. by rewrite andb_true_r. Qed.

Lemma split_no_colon s : Js.includes ":" s = false -> Js.split ":" s = [s].
Proof.
  induction s as [| c s IH]; intros H; [reflexivity |].
  rewrite includes_colon_cons in H. apply orb_false_elim in H as [Hc Hs].
  cbn [Js.split]. rewrite Ascii.eqb_sym, Hc. by rewrite (IH Hs).
Qed.

Lemma split_app_colon a b :
  Js.includes ":" a = false ->
  Js.split ":" (a ++ ":" ++ b) = a :: Js.split ":" b.
Proof.
  induction a as [| c a IH]; intros H.
  - reflexivity.
  - rewrite includes_colon_cons in H. apply orb_false_elim in H as [Hc Ha].
    rewrite string_app_cons. cbn [Js.split]. rewrite Ascii.eqb_sym, Hc.
    by rewrite (IH Ha).
Qed.

Lemma digits_no_colon s : all_digits s = true -> Js.includes ":" s = false.
Proof.
  induction s as [| c s IH]; intros H; [reflexivity |].
  unfold all_digits in H. simpl in H. apply andb_prop in H as [Hc Hs].
  rewrite includes_colon_cons, (IH Hs), orb_false_r.
  apply ascii_eqb_code. pose proof (digit_code c Hc). vm_compute (Js.code ":"). lia.
Qed.

Lemma string_of_Z_no_colon z : Js.includes ":" (Js.string_of_Z z) = false.
Proof.
  unfold Js.string_of_Z. destruct z as [| p | p]; [reflexivity | |];
    cbn [Z.to_int NilZero.string_of_int];
    destruct (string_of_pos_digits p) as (-> & _).
  - apply digits_no_colon, string_of_uint_digits.
  - rewrite includes_colon_cons.
    by rewrite (digits_no_colon _ (string_of_uint_digits _)).
Qed.

Lemma owner_port_targetKey target :
  Js.includes ":" (ip target) = false ->
  owner_port (targetKey target) = Some (port target).
Proof.
  intros H. unfold owner_port, targetKey.
  rewrite (split_app_colon _ _ H), (split_no_colon _ (string_of_Z_no_colon _)).
  simpl. apply parseInt_string_of_Z.
Qed.

(** ** The election of the RTSP owner *)

Section OwnerElection.

Variable config : VeilcamsConfig.

Lemma targetKey_nonempty t : targetKey t <> "".
Proof. unfold targetKey. by destruct (ip t). Qed.

Lemma rtspFuzzOwner_snoc l t :
  rtspFuzzOwner config (l ++ [t]) = elect config (rtspFuzzOwner config l) t.
Proof. unfold rtspFuzzOwner. by rewrite fold_left_app. Qed.

(** Every owner is the key of a target that advertises RTSP at that
    address, and every such target has an owner at its address. *)
Lemma rtspFuzzOwner_sound l :
  (forall a key, rtspFuzzOwner config l !! a = Some key ->
     exists t, t ∈ l /\ advertises_rtsp config t = true /\ ip t = a /\ key = targetKey t)
  /\ (forall t, t ∈ l -> advertises_rtsp config t = true ->
        is_Some (rtspFuzzOwner config l !! ip t)).
Proof.
  induction l as [| t l [IH1 IH2]] using rev_ind.
  { split; [intros a key H; unfold rtspFuzzOwner in H; simpl in H;
             by rewrite lookup_empty in H |].
    intros t Ht. by apply elem_of_nil in Ht. }
  rewrite rtspFuzzOwner_snoc. set (owners := rtspFuzzOwner config l) in *.
  assert (Hins : forall a key,
             <[ip t := targetKey t]> owners !! a = Some key ->
             advertises_rtsp config t = true ->
             exists t0, t0 ∈ (l ++ [t])%list /\ advertises_rtsp config t0 = true /\ ip t0 = a
                        /\ key = targetKey t0).
  { intros a key H Ht. destruct (decide (ip t = a)) as [<- | Hne].
    - rewrite lookup_insert_eq in H. inversion H; subst key.
      exists t. split; [apply elem_of_app; right; by apply list_elem_of_singleton | done].
    - rewrite lookup_insert_ne in H by done.
      destruct (IH1 a key H) as (t0 & ? & ? & ? & ?).
      exists t0. split; [by apply elem_of_app; left | done]. }
  assert (Hold : forall a key,
             owners !! a = Some key ->
             exists t0, t0 ∈ (l ++ [t])%list /\ advertises_rtsp config t0 = true /\ ip t0 = a
                        /\ key = targetKey t0).
  { intros a key H. destruct (IH1 a key H) as (t0 & ? & ? & ? & ?).
    exists t0. split; [by apply elem_of_app; left | done]. }
  unfold elect. fold (advertises_rtsp config t).
  destruct (advertises_rtsp config t) eqn:Ht.
  - split.
    + intros a key H.
      destruct (owners !! ip t) as [existing |] eqn:Ho; [| by apply Hins].
      destruct (String.eqb existing ""); [by apply Hins |].
      destruct (_ && _); [by apply Hins | by apply Hold].
    + intros t0 Ht0 Hadv. apply elem_of_app in Ht0 as [Ht0 | Ht0].
      * pose proof (IH2 t0 Ht0 Hadv) as [k Hk].
        destruct (owners !! ip t) as [existing |] eqn:Ho.
        -- destruct (String.eqb existing "");
             [| destruct (_ && _)]; try (by exists k);
             (destruct (decide (ip t = ip t0)) as [He | Hne];
              [rewrite He, lookup_insert_eq; by eexists
              | rewrite lookup_insert_ne by done; by exists k]).
        -- destruct (decide (ip t = ip t0)) as [He | Hne];
             [rewrite He, lookup_insert_eq; by eexists
             | rewrite lookup_insert_ne by done; by exists k].
      * apply list_elem_of_singleton in Ht0 as ->.
        destruct (owners !! ip t) as [existing |] eqn:Ho.
        -- destruct (String.eqb existing "");
             [| destruct (_ && _)]; rewrite ?lookup_insert_eq, ?Ho; by eexists.
        -- rewrite lookup_insert_eq. by eexists.
  - split; [exact Hold |].
    intros t0 Ht0 Hadv. apply elem_of_app in Ht0 as [Ht0 | Ht0]; [by apply IH2 |].
    apply list_elem_of_singleton in Ht0 as ->. congruence.
Qed.

Lemma rtspPorts_include_targetKey t :
  Js.includes ":" (ip t) = false ->
  rtspPorts_include (owner_port (targetKey t)) = bool_decide (port t ∈ rtspPorts).
Proof. intros H. by rewrite owner_port_targetKey. Qed.

(** Once a target on a known RTSP port has been seen at an address, the
    owner of the address is on a known RTSP port. *)
Lemma rtspFuzzOwner_prefers a l :
  Js.includes ":" a = false ->
  (exists t, t ∈ l /\ ip t = a /\ advertises_rtsp config t = true /\ port t ∈ rtspPorts) ->
  exists key, rtspFuzzOwner config l !! a = Some key
              /\ rtspPorts_include (owner_port key) = true.
Proof.
  intros Ha. induction l as [| t l IH] using rev_ind.
  { intros (t & Ht & _). by apply elem_of_nil in Ht. }
  intros (t0 & Ht0 & Hip & Hadv & Hport).
  rewrite rtspFuzzOwner_snoc.
  destruct (rtspFuzzOwner_sound l) as [Hsound _].
  set (owners := rtspFuzzOwner config l) in *.
  unfold elect. fold (advertises_rtsp config t).
  apply elem_of_app in Ht0 as [Ht0 | Ht0].
  - destruct IH as (key & Hkey & Hinc); [by exists t0 |].
    destruct (advertises_rtsp config t) eqn:Ht; [| by exists key].
    destruct (decide (ip t = a)) as [He | Hne].
    + rewrite He, Hkey.
      destruct (Hsound a key Hkey) as (t1 & _ & _ & _ & ->).
      destruct (String.eqb_spec (targetKey t1) "") as [E | _];
        [by apply targetKey_nonempty in E |].
      rewrite Hinc, andb_false_r. by exists (targetKey t1).
    + destruct (owners !! ip t) as [existing |];
        [destruct (String.eqb existing ""); [| destruct (_ && _)] |];
        rewrite ?lookup_insert_ne by done; by exists key.
  - apply list_elem_of_singleton in Ht0 as ->. rewrite Hadv, Hip.
    assert (Hnew : rtspPorts_include (owner_port (targetKey t)) = true).
    { rewrite rtspPorts_include_targetKey by (by rewrite Hip).
      by apply bool_decide_eq_true. }
    destruct (owners !! a) as [existing |] eqn:Ho.
    + destruct (String.eqb existing "").
      { exists (targetKey t). by rewrite lookup_insert_eq. }
      rewrite (bool_decide_eq_true_2 _ Hport). simpl.
      destruct (rtspPorts_include (owner_port existing)) eqn:Hex; simpl.
      * by exists existing.
      * exists (targetKey t). by rewrite lookup_insert_eq.
    + exists (targetKey t). by rewrite lookup_insert_eq.
Qed.

End OwnerElection.

(** In a list without two equal keys, exactly one entry has a given key of
    the list. *)
Lemma filter_key_unique {A : Type} (f : A -> string) (l : list A) (x : A) :
  NoDup (map f l) -> x ∈ l ->
  length (List.filter (fun y => String.eqb (f y) (f x)) l) = 1%nat.
Proof.
  induction l as [| y l IH]; intros Hnd Hx; [by apply elem_of_nil in Hx |].
  simpl in Hnd. apply NoDup_cons in Hnd as [Hy Hnd].
  assert (Hnone : forall z, f z ∉ map f l ->
            List.filter (fun y => String.eqb (f y) (f z)) l = []).
  { clear. intros z Hz. induction l as [| y l IH]; [done |].
    simpl. simpl in Hz. apply not_elem_of_cons in Hz as [Hzy Hz].
    destruct (String.eqb_spec (f y) (f z)) as [E | _]; [congruence | by apply IH]. }
  simpl. apply elem_of_cons in Hx as [-> | Hx].
  - rewrite String.eqb_refl. simpl. by rewrite Hnone.
  - destruct (String.eqb_spec (f y) (f x)) as [E | _].
    + exfalso. apply Hy. rewrite E. apply list_elem_of_fmap. by exists x.
    + by apply IH.
Qed.

(** X20.  With RTSP enabled and target records that are distinct in their
    [ip:port] key, for every address at which some record advertises RTSP
    exactly one record among the targets runs the RTSP pass.  When the
    address holds no colon and one of its records that advertise RTSP has a
    port among 554, 8554, 8555 and 10554, the record that runs the pass has
    such a port. *)
Theorem rtsp_owner_unique config targets a :
  protocols_rtsp config = true ->
  NoDup (map targetKey targets) ->
  (exists t, t ∈ targets /\ ip t = a /\ protocols_include P_rtsp t = true) ->
  length (List.filter (fun t => String.eqb (ip t) a && fuzzes_rtsp config targets t)
            targets) = 1%nat
  /\ (Js.includes ":" a = false ->
      (exists t, t ∈ targets /\ ip t = a /\ protocols_include P_rtsp t = true
                 /\ port t ∈ rtspPorts) ->
      forall t, t ∈ targets -> ip t = a -> fuzzes_rtsp config targets t = true ->
                port t ∈ rtspPorts).
Proof.
  intros Hcfg Hnd (t0 & Ht0 & Hip0 & Hadv0).
  destruct (rtspFuzzOwner_sound config targets) as [Hsound Hsome].
  assert (Hadv : forall t, advertises_rtsp config t = protocols_include P_rtsp t).
  { intros t. unfold advertises_rtsp. by rewrite Hcfg. }
  destruct (Hsome t0 Ht0) as [key Hkey]; [by rewrite Hadv |].
  rewrite Hip0 in Hkey.
  destruct (Hsound a key Hkey) as (t1 & Ht1 & Hadv1 & Hip1 & ->).
  assert (Hfuzz : forall t, t ∈ targets ->
            String.eqb (ip t) a && fuzzes_rtsp config targets t
            = String.eqb (targetKey t) (targetKey t1)).
  { intros t Ht. unfold fuzzes_rtsp, skipRtsp. rewrite Hcfg, negb_involutive. simpl.
    destruct (String.eqb_spec (targetKey t) (targetKey t1)) as [E | E].
    - assert (t = t1) as ->.
      { apply list_elem_of_lookup in Ht as [i Hi]. apply list_elem_of_lookup in Ht1 as [j Hj].
        assert (i = j) as ->; [| congruence].
        eapply NoDup_lookup; [exact Hnd | |].
        - rewrite list_lookup_fmap, Hi. reflexivity.
        - rewrite list_lookup_fmap, Hj. simpl. by rewrite E. }
      rewrite Hip1, String.eqb_refl, Hkey. rewrite Hadv in Hadv1. rewrite Hadv1. simpl.
      by apply bool_decide_eq_true.
    - destruct (String.eqb_spec (ip t) a) as [Ea | Ea]; [| done]. simpl.
      rewrite Ea, Hkey. rewrite bool_decide_eq_false_2 by congruence.
      by rewrite andb_false_r. }
  split.
  - rewrite <- (filter_key_unique targetKey targets t1 Hnd Ht1).
    f_equal. apply filter_ext_in. intros t Ht. apply Hfuzz.
    by apply list_elem_of_In.
  - intros Ha (t2 & Ht2 & Hip2 & Hadv2 & Hport2) t Ht Hipt Hf.
    destruct (rtspFuzzOwner_prefers config a targets Ha) as (key & Hk & Hinc).
    { exists t2. by rewrite Hadv. }
    rewrite Hkey in Hk. inversion Hk; subst key.
    pose proof (Hfuzz t Ht) as Hft. rewrite Hf, Hipt, String.eqb_refl in Hft. simpl in Hft.
    symmetry in Hft. apply String.eqb_eq in Hft.
    rewrite <- Hft, rtspPorts_include_targetKey in Hinc by (by rewrite Hipt).
    by apply bool_decide_eq_true in Hinc.
Qed.

Lemma rtsp_owner_unique_witness :
  length (List.filter
            (fun t => String.eqb (ip t) "192.0.2.20" && fuzzes_rtsp sample_config scenario_F t)
            scenario_F) = 1%nat
  /\ (forall t, t ∈ scenario_F -> ip t = "192.0.2.20" ->
                fuzzes_rtsp sample_config scenario_F t = true -> port t ∈ rtspPorts).
Proof.
  destruct (rtsp_owner_unique sample_config scenario_F "192.0.2.20") as [Hone Hpref].
  - reflexivity.
  - apply (bool_decide_unpack _). vm_compute. exact I.
  - eexists. split; [apply list_elem_of_here |]. split; reflexivity.
  - split; [exact Hone |]. apply Hpref; [reflexivity |].
    eexists. split; [apply elem_of_cons; right; apply list_elem_of_here |].
    split; [reflexivity |]. split; [reflexivity |].
    apply (bool_decide_unpack _). vm_compute. exact I.
Defined.

Example scenario_F_owner :
  map port (List.filter (fuzzes_rtsp sample_config scenario_F) scenario_F) = [554].
Proof. vm_compute. reflexivity. Qed.

Example scenario_F_reversed :
  map port (List.filter (fuzzes_rtsp sample_config (rev scenario_F)) (rev scenario_F))
  = [554].
Proof. vm_compute. reflexivity. Qed.

(** C9.  At an IPv6 address the port of the owner is misread:
    [existingOwner.split(':')[1]] is the second group of the address, not
    the port.  For the two records of [2001:554::1] on ports 80 and 554,
    which both advertise RTSP, the port read back from the owner
    [2001:554::1:80] is 554, so the record on port 554 does not replace it:
    the record on port 80 runs the RTSP pass and the record on the known
    RTSP port skips it, where the claim elects the record on port 554. *)
Theorem rtsp_owner_misreads_ipv6_port :
  NoDup (map targetKey scenario_ipv6)
  /\ Forall (fun t => ip t = "2001:554::1" /\ protocols_include P_rtsp t = true)
       scenario_ipv6
  /\ map port scenario_ipv6 = [80; 554]
  /\ Js.split ":" "2001:554::1:80" = ["2001"; "554"; ""; "1"; "80"]
  /\ owner_port "2001:554::1:80" = Some 554
  /\ rtspFuzzOwner sample_config scenario_ipv6 !! "2001:554::1" = Some "2001:554::1:80"
  /\ map (fuzzes_rtsp sample_config scenario_ipv6) scenario_ipv6 = [true; false].
Proof.
  split; [apply (bool_decide_unpack _); vm_compute; exact I |].
  split; [repeat constructor |].
  repeat split; vm_compute; reflexivity.
Qed.

(** ** Bounded parallel execution *)

Section PoolProofs.

Import Pool.

Context {T : Type}.
Variable tasks : list (Outcome T).
Variable concurrency : Z.

Local Abbreviation State := (Pool.State T).

Lemma pool_inv_init : pool_inv tasks concurrency (init tasks concurrency).
Proof.
  split; simpl.
  - apply length_replicate.
  - apply length_replicate.
  - lia.
  - intros i o Hi. lia.
  - intros i _ Hi. by apply lookup_replicate_2.
  - intros i x H. apply lookup_replicate in H as [H _]. discriminate H.
  - intros k i H. apply lookup_replicate in H as [H _]. discriminate H.
  - intros k H. apply lookup_replicate in H as [H _]. discriminate H.
Qed.

Lemma array_set_in_range {A : Type} i (x : A) l :
  (i < length l)%nat -> array_set i x l = <[i := Some x]> l.
Proof. intros H. unfold array_set. apply Nat.ltb_lt in H. by rewrite H. Qed.

Lemma pool_inv_step s s' : pool_inv tasks concurrency s -> step tasks s s' -> pool_inv tasks concurrency s'.
Proof.
  intros [Hrl Hwl Hidx Hst Hwait Hfill Haw Hfin] [k Hk].
  unfold step_worker in Hk.
  destruct (workers s !! k) as [[| i |] |] eqn:Hw; try discriminate Hk.
  - (* at the loop head *)
    destruct (Nat.ltb_spec (index s) (length tasks)) as [Hlt | Hge];
      inversion Hk; subst s'; clear Hk; split; simpl.
    + done.
    + by rewrite length_insert.
    + lia.
    + intros i o Hi Ho. destruct (decide (i = index s)) as [-> | Hne].
      * right. exists k. apply list_lookup_insert_eq. by eapply lookup_lt_Some.
      * destruct (Hst i o) as [H | [k' Hk']]; [lia | done | by left |].
        right. exists k'. rewrite list_lookup_insert_ne; [done |]. congruence.
    + intros i Hi Hlen. apply Hwait; lia.
    + done.
    + intros k' i Hk'. destruct (decide (k = k')) as [<- | Hne].
      * rewrite list_lookup_insert_eq in Hk' by (by eapply lookup_lt_Some).
        inversion Hk'. lia.
      * rewrite list_lookup_insert_ne in Hk' by done. apply Haw in Hk'. lia.
    + intros k' Hk'. destruct (decide (k = k')) as [<- | Hne].
      * rewrite list_lookup_insert_eq in Hk' by (by eapply lookup_lt_Some). discriminate Hk'.
      * rewrite list_lookup_insert_ne in Hk' by done. apply Hfin in Hk'. lia.
    + done.
    + by rewrite length_insert.
    + done.
    + intros i o Hi Ho. destruct (Hst i o Hi Ho) as [H | [k' Hk']]; [by left |].
      right. exists k'. rewrite list_lookup_insert_ne; [done |]. congruence.
    + done.
    + done.
    + intros k' i Hk'. destruct (decide (k = k')) as [<- | Hne].
      * rewrite list_lookup_insert_eq in Hk' by (by eapply lookup_lt_Some). discriminate Hk'.
      * rewrite list_lookup_insert_ne in Hk' by done. by apply Haw in Hk'.
    + intros k' Hk'. destruct (decide (k = k')) as [<- | Hne]; [lia |].
      rewrite list_lookup_insert_ne in Hk' by done. by apply Hfin in Hk'.
  - (* the awaited task settles *)
    pose proof (Haw k i Hw) as Hi.
    destruct (tasks !! i) as [o |] eqn:Ho;
      [| apply lookup_ge_None in Ho; lia].
    rewrite array_set_in_range in Hk by lia.
    inversion Hk; subst s'; clear Hk; split; simpl.
    + by rewrite length_insert.
    + by rewrite length_insert.
    + done.
    + intros j o' Hj Ho'. destruct (decide (i = j)) as [<- | Hne].
      * left. rewrite list_lookup_insert_eq by lia. congruence.
      * rewrite list_lookup_insert_ne by done.
        destruct (Hst j o' Hj Ho') as [H | [k' Hk']]; [by left |].
        right. exists k'. rewrite list_lookup_insert_ne; [done |]. congruence.
    + intros j Hj Hlen. rewrite list_lookup_insert_ne by lia. by apply Hwait.
    + intros j x Hx. destruct (decide (i = j)) as [<- | Hne].
      * rewrite list_lookup_insert_eq in Hx by lia. inversion Hx. by exists o.
      * rewrite list_lookup_insert_ne in Hx by done. by apply Hfill.
    + intros k' j Hk'. destruct (decide (k = k')) as [<- | Hne].
      * rewrite list_lookup_insert_eq in Hk' by (by eapply lookup_lt_Some). discriminate Hk'.
      * rewrite list_lookup_insert_ne in Hk' by done. by apply Haw in Hk'.
    + intros k' Hk'. destruct (decide (k = k')) as [<- | Hne].
      * rewrite list_lookup_insert_eq in Hk' by (by eapply lookup_lt_Some). discriminate Hk'.
      * rewrite list_lookup_insert_ne in Hk' by done. by apply Hfin in Hk'.
Qed.

Lemma pool_inv_reachable s :
  rtc (step tasks) (init tasks concurrency) s -> pool_inv tasks concurrency s.
Proof.
  intros H.
  eapply (rtc_ind_r (fun s => pool_inv tasks concurrency s)); [apply pool_inv_init | | exact H].
  intros y z _ Hstep IH. by eapply pool_inv_step.
Qed.

(** *** What the invariant gives *)

Lemma in_flight_le_workers (s : State) : (in_flight s <= length (workers s))%nat.
Proof.
  unfold in_flight. induction (workers s) as [| w ws IH]; simpl; [lia |].
  destruct (is_awaiting w); simpl; lia.
Qed.

Lemma worker_count_le : 0 <= concurrency -> Z.of_nat (worker_count tasks concurrency) <= concurrency.
Proof. unfold worker_count. lia. Qed.

Lemma terminal_no_await (s : State) k i : terminal s -> workers s !! k = Some (Awaiting i) -> False.
Proof.
  intros Ht Hk. unfold terminal in Ht. rewrite Forall_lookup in Ht.
  by specialize (Ht k _ Hk).
Qed.

Lemma terminal_results (s : State) :
  1 <= concurrency -> pool_inv tasks concurrency s -> terminal s ->
  results s = map (fun o => Some (settle o)) tasks.
Proof.
  intros Hc [Hrl Hwl Hidx Hst Hwait Hfill Haw Hfin] Hterm.
  apply list_eq. intros i. rewrite list_lookup_fmap.
  destruct (tasks !! i) as [o |] eqn:Ho; simpl.
  - assert (Hlen : (i < length tasks)%nat) by (by eapply lookup_lt_Some).
    assert (Hw0 : workers s !! 0%nat = Some Finished).
    { destruct (workers s !! 0%nat) as [w |] eqn:Hw.
      - unfold terminal in Hterm. rewrite Forall_lookup in Hterm.
        by rewrite (Hterm _ _ Hw).
      - apply lookup_ge_None in Hw. rewrite Hwl in Hw. unfold worker_count in Hw. lia. }
    apply Hfin in Hw0.
    destruct (Hst i o) as [H | [k Hk]]; [lia | done | done |].
    by destruct (terminal_no_await _ _ _ Hterm Hk).
  - apply lookup_ge_None. apply lookup_ge_None in Ho. lia.
Qed.

Lemma not_terminal_step (s : State) : ~ terminal s -> exists s', step tasks s s'.
Proof.
  intros Hnt. unfold terminal in Hnt. apply not_Forall_Exists in Hnt; [| intros w; apply _ ].
  apply Exists_exists in Hnt as (w & Hin & Hw).
  apply list_elem_of_lookup in Hin as [k Hk].
  unfold step, step_worker. simpl in Hw.
  destruct w as [| i |]; [destruct (index s <? length tasks)%nat eqn:E | | done];
    eexists; exists k; rewrite Hk, ?E; reflexivity.
Qed.

(** *** Every run ends *)

Lemma weight_insert ws : forall k w w',
  ws !! k = Some w ->
  (sum_list (map weight (<[k := w']> ws)) + weight w
   = sum_list (map weight ws) + weight w')%nat.
Proof.
  induction ws as [| x ws IH]; intros k w w' Hk; [done |].
  destruct k as [| k]; simpl in *.
  - inversion Hk. lia.
  - specialize (IH k w w' Hk). lia.
Qed.

Lemma step_measure s s' :
  pool_inv tasks concurrency s -> step tasks s s' -> measure tasks s = S (measure tasks s').
Proof.
  intros [Hrl Hwl Hidx Hst Hwait Hfill Haw Hfin] [k Hk].
  unfold step_worker in Hk.
  destruct (workers s !! k) as [[| i |] |] eqn:Hw; try discriminate Hk.
  - destruct (Nat.ltb_spec (index s) (length tasks)) as [Hlt | Hge];
      inversion Hk; subst s'; clear Hk; unfold measure; simpl;
      pose proof (weight_insert (workers s) k AtLoopHead) as Hins.
    + specialize (Hins (Awaiting (index s)) Hw). simpl in Hins. lia.
    + specialize (Hins Finished Hw). simpl in Hins. lia.
  - inversion Hk; subst s'; clear Hk; unfold measure; simpl.
    pose proof (weight_insert (workers s) k (Awaiting i) AtLoopHead Hw) as Hins.
    simpl in Hins. lia.
Qed.

Lemma nsteps_measure n : forall s s',
  pool_inv tasks concurrency s -> nsteps (step tasks) n s s' -> measure tasks s = (n + measure tasks s')%nat.
Proof.
  induction n as [| n IH]; intros s s' Hinv Hn.
  - by inversion Hn.
  - inversion Hn as [| ? ? s1 ? Hstep Hrest]; subst.
    rewrite (step_measure _ _ Hinv Hstep).
    rewrite (IH s1 s'); [lia | by eapply pool_inv_step | done].
Qed.

Lemma first_active_None ws : first_active ws = None -> Forall (fun w => w = Finished) ws.
Proof.
  induction ws as [| w ws IH]; intros H; [constructor |].
  simpl in H. destruct w; simpl in H; try discriminate H.
  destruct (first_active ws); [discriminate H |]. constructor; [done | by apply IH].
Qed.

Lemma first_active_Some ws : forall k,
  first_active ws = Some k -> exists w, ws !! k = Some w /\ w <> Finished.
Proof.
  induction ws as [| w ws IH]; intros k H; [discriminate H |].
  simpl in H. destruct w; simpl in H.
  - inversion H. by exists AtLoopHead.
  - inversion H. by eexists.
  - destruct (first_active ws) as [k' |]; [| discriminate H].
    inversion H. destruct (IH k' eq_refl) as (w & Hw & Hne). by exists w.
Qed.

Lemma measure_zero_terminal s : measure tasks s = 0%nat -> terminal s.
Proof.
  unfold measure, terminal. intros H.
  assert (Hsum : sum_list (map weight (workers s)) = 0%nat) by lia.
  clear H. induction (workers s) as [| w ws IH]; [constructor |].
  simpl in Hsum. constructor; [destruct w; simpl in Hsum; (done || lia) | apply IH; lia].
Qed.

Lemma run_terminates fuel : forall s,
  pool_inv tasks concurrency s -> (measure tasks s <= fuel)%nat ->
  terminal (run tasks fuel s) /\ rtc (step tasks) s (run tasks fuel s).
Proof.
  induction fuel as [| fuel IH]; intros s Hinv Hm.
  - simpl. split; [apply measure_zero_terminal; lia | done].
  - simpl. destruct (first_active (workers s)) as [k |] eqn:Hfa.
    + destruct (first_active_Some _ _ Hfa) as (w & Hw & Hne).
      assert (Hstep : exists s', step_worker tasks k s = Some s').
      { unfold step_worker. rewrite Hw.
        destruct w as [| i |]; [destruct (index s <? length tasks)%nat | | done]; by eexists. }
      destruct Hstep as [s' Hs']. rewrite Hs'.
      assert (Hst : step tasks s s') by (by exists k).
      destruct (IH s') as [Hterm Hrtc].
      * by eapply pool_inv_step.
      * rewrite (step_measure _ _ Hinv Hst) in Hm. lia.
      * split; [done |]. by eapply rtc_l.
    + split; [by apply first_active_None | done].
Qed.

Lemma terminal_forallb (s : State) : terminal s -> forallb is_finished (workers s) = true.
Proof.
  unfold terminal. intros H. induction H as [| w ws Hw H IH]; [done |].
  simpl. by rewrite Hw, IH.
Qed.

End PoolProofs.

(** C10.  For every list of tasks and every cap of at least 1, in every
    state that a run of [parallelLimit] can reach, whatever the order in
    which the workers move: the array has the length of the input, at most
    cap tasks are in flight, and a filled slot holds the settlement of the
    task of its index, fulfilled with the value or rejected with the reason.
    A run that is not over can move on, no run has more than
    [2 * length tasks + cap] steps, and when all workers are done every slot
    is filled, so a rejected task stops no other task.  The run in which the
    first free worker always moves returns that array.  With a cap of 0 or
    less no worker exists, nothing can move, and the array is returned with
    all its slots empty. *)
Theorem parallelLimit_contract {T : Type} (tasks : list (Outcome T)) (cap : Z) :
  (1 <= cap ->
     (forall s, rtc (Pool.step tasks) (Pool.init tasks cap) s ->
        length (Pool.results s) = length tasks
        /\ Z.of_nat (Pool.in_flight s) <= cap
        /\ (forall i x, Pool.results s !! i = Some (Some x) ->
              exists o, tasks !! i = Some o /\ x = Pool.settle o)
        /\ (Pool.terminal s ->
              Pool.results s = map (fun o => Some (Pool.settle o)) tasks)
        /\ (~ Pool.terminal s -> exists s', Pool.step tasks s s'))
     /\ (forall n s, nsteps (Pool.step tasks) n (Pool.init tasks cap) s ->
           Z.of_nat n <= 2 * Z.of_nat (length tasks) + cap)
     /\ (forall fuel, (2 * length tasks + Z.to_nat cap <= fuel)%nat ->
           Pool.parallelLimit tasks cap fuel
           = Some (map (fun o => Some (Pool.settle o)) tasks)))
  /\ (cap <= 0 ->
        Pool.workers (Pool.init tasks cap) = []
        /\ (forall s', ~ Pool.step tasks (Pool.init tasks cap) s')
        /\ (forall fuel, Pool.parallelLimit tasks cap fuel
                         = Some (replicate (length tasks) None))).
Proof.
  split.
  - intros Hcap.
    assert (Hm0 : (measure tasks (Pool.init tasks cap)
                   <= 2 * length tasks + Z.to_nat cap)%nat).
    { unfold measure. simpl.
      assert (Hsum : forall n, sum_list (map weight (replicate n Pool.AtLoopHead)) = n).
      { induction n as [| n IH]; [done |]. simpl. by rewrite IH. }
      rewrite Hsum. unfold Pool.worker_count. lia. }
    split; [| split].
    + intros s Hs. pose proof (pool_inv_reachable tasks cap s Hs) as Hinv.
      split; [apply Hinv |].
      split.
      { pose proof (in_flight_le_workers s) as Hfl.
        rewrite (inv_workers_len _ _ _ Hinv) in Hfl.
        pose proof (worker_count_le tasks cap). lia. }
      split; [apply Hinv |].
      split; [by apply (terminal_results tasks cap) | apply not_terminal_step].
    + intros n s Hn.
      pose proof (nsteps_measure tasks cap n _ _ (pool_inv_init tasks cap) Hn). lia.
    + intros fuel Hfuel. unfold Pool.parallelLimit.
      destruct (run_terminates tasks cap fuel (Pool.init tasks cap)) as [Hterm Hrtc];
        [apply pool_inv_init | lia |].
      rewrite (terminal_forallb _ Hterm). f_equal.
      apply (terminal_results tasks cap); [done | by apply pool_inv_reachable | done].
  - intros Hcap.
    assert (Hw : Pool.workers (Pool.init tasks cap) = []).
    { simpl. unfold Pool.worker_count. by replace (Z.to_nat _) with 0%nat by lia. }
    split; [done |]. split.
    + intros s' [k Hk]. unfold Pool.step_worker in Hk. rewrite Hw in Hk. discriminate Hk.
    + intros fuel. unfold Pool.parallelLimit.
      assert (Hrun : Pool.run tasks fuel (Pool.init tasks cap) = Pool.init tasks cap).
      { destruct fuel; [done |]. cbn [Pool.run]. by rewrite Hw. }
      rewrite Hrun, Hw. reflexivity.
Qed.

Lemma parallelLimit_contract_witness :
  Pool.parallelLimit sample_tasks 2 12
  = Some [Some (Pool.fulfilled 1); Some (Pool.rejected "boom"); Some (Pool.fulfilled 3);
          Some (Pool.fulfilled 4); Some (Pool.rejected "late")]
  /\ Pool.parallelLimit sample_tasks 0 12 = Some (replicate 5 None).
Proof.
  split.
  - apply (proj1 (parallelLimit_contract sample_tasks 2)); [lia | simpl; lia].
  - apply (proj2 (parallelLimit_contract sample_tasks 0)). lia.
Defined.

(** ** The testing phase of the workflow *)

Ltac closed_fact :=
  first [ reflexivity | by apply (bool_decide_unpack _); vm_compute ].

Ltac wf_step H :=
  cbv beta iota zeta delta
    [bind ret Workflow.start Workflow.update Workflow.invoke Workflow.set_phase
     Workflow.set_status Workflow.mark_completed Workflow.mark_failed
     Workflow.settle_branch Workflow.state Workflow.session Workflow.invoked
     Workflow.currentPhase Workflow.currentModule Workflow.completedModules
     Workflow.failedModules Workflow.moduleStatuses Workflow.startTime] in H.

Section TestingPhase.

Import Workflow.

Context {Session : Type}.
Variable acts : Activities Session.

Lemma testing_phase input sessionId now elapsed (s0 : Session)
    d s1 fps s2 credS s3 cveS s4 protoS s5 :
  let base := base_of input sessionId in
  runDiscoveryActivity acts base (targets input) s0 = (Returned d, s1) ->
  hosts d <> [] ->
  runFingerprintActivity acts base d s1 = (Returned fps, s2) ->
  runCredentialTesterActivity acts base fps s2 = (credS, s3) ->
  runCveScannerActivity acts base fps s3 = (cveS, s4) ->
  runProtocolFuzzerActivity acts base fps s4 = (protoS, s5) ->
  let credR := value_or zero_credential credS in
  let cveR := value_or zero_cve cveS in
  let protoR := value_or zero_protocol protoS in
  let '(o, r) := veilcamsPipelineWorkflow acts input sessionId now elapsed (start s0) in
  branch_recorded "credential-tester" credS (state r)
  /\ branch_recorded "cve-scanner" cveS (state r)
  /\ branch_recorded "protocol-fuzzer" protoS (state r)
  /\ (("exploitation" ∈ invoked r) <-> 0 < vulnerabilitiesFound cveR)
  /\ last (invoked r) = Some "report"
  /\ exists exR s6,
       (is_Some exR <-> 0 < vulnerabilitiesFound cveR)
       /\ let rin := {| ri_base := base; ri_discoveryResult := d;
                        ri_fingerprints := fps; ri_credentialResult := credR;
                        ri_cveResult := cveR; ri_protocolResult := protoR;
                        ri_exploitationResult := exR; ri_startTime := now;
                        ri_totalDurationMs := elapsed |} in
          session r = snd (runReportActivity acts rin s6)
          /\ (is_Returned o <-> is_Returned (fst (runReportActivity acts rin s6))).
Proof.
  intros base Hd Hhosts Hf Hc Hv Hp credR cveR protoR.
  destruct (veilcamsPipelineWorkflow acts input sessionId now elapsed (start s0))
    as [o r] eqn:Hrun.
  unfold veilcamsPipelineWorkflow in Hrun.
  fold (base_of input sessionId) in Hrun. fold base in Hrun.
  wf_step Hrun. rewrite Hd in Hrun.
  wf_step Hrun. rewrite bool_decide_eq_false_2 in Hrun by exact Hhosts.
  wf_step Hrun. rewrite Hf in Hrun.
  wf_step Hrun. rewrite Hc in Hrun.
  wf_step Hrun. rewrite Hv in Hrun.
  wf_step Hrun. rewrite Hp in Hrun.
  wf_step Hrun.
  destruct credS as [cv|cm], cveS as [vv|vm], protoS as [pv|pm]; wf_step Hrun;
    subst credR cveR protoR; cbn [value_or].
  all: match type of Hrun with
       | context [0 <? vulnerabilitiesFound ?c] =>
           destruct (0 <? vulnerabilitiesFound c) eqn:Hvuln
       end; try (cbn in Hvuln; discriminate Hvuln); wf_step Hrun.
  all: try match type of Hrun with
       | context [runExploitationActivity acts ?b ?f ?c ?s] =>
           destruct (runExploitationActivity acts b f c s) as [[ex|em] s6] eqn:He
       end; wf_step Hrun.
  all: match type of Hrun with
       | context [runReportActivity acts ?i ?s] =>
           destruct (runReportActivity acts i s) as [[rep|rm] s7] eqn:Hr
       end; wf_step Hrun.
  all: injection Hrun as <- <-.
  all: cbn [state session invoked branch_recorded completedModules failedModules
            moduleStatuses app].
  all: first [apply Z.ltb_lt in Hvuln | apply Z.ltb_ge in Hvuln].
  all: repeat match goal with
       | |- _ /\ _ => split
       | |- _ ∈ _ => closed_fact
       | |- _ ∉ _ => closed_fact
       | |- _ !! _ = _ => closed_fact
       | |- last _ = _ => reflexivity
       | |- (_ ∈ _) <-> (0 < _) =>
           split; [intros Hin; first [exact Hvuln | exfalso; revert Hin; closed_fact]
                  | intros Hpos; first [closed_fact | exfalso; cbn in *; lia]]
       end.
  all: first [ exists (Some ex), s6; rewrite Hr
              | exists (Some zero_exploitation), s6; rewrite Hr
              | exists None, s5; rewrite Hr ].
  all: cbn [fst snd is_Returned vulnerabilitiesFound zero_cve] in *.
  all: split; [split; [intros HS; first [exact Hvuln | by destruct HS]
                      | intros Hpos; first [lia | by eexists]]
              | split; [reflexivity | tauto]].
Qed.

End TestingPhase.

(** C6.  Once discovery has found hosts and fingerprinting has returned,
    whatever the three testers settle to: the workflow state records each
    branch on its own, as completed when it fulfilled and as failed when it
    rejected; the report activity is the last one invoked, and it receives
    the value of every fulfilled branch and the zeroed result of every
    rejected one; the exploitation activity is invoked exactly when the CVE
    result so obtained counts at least one vulnerability, and the workflow
    returns exactly when the report activity does. *)
Theorem testing_branches_isolated {Session : Type} (acts : Workflow.Activities Session)
    input sessionId now elapsed (s0 : Session) d s1 fps s2 credS s3 cveS s4 protoS s5 :
  let base := base_of input sessionId in
  Workflow.runDiscoveryActivity acts base (targets input) s0 = (Returned d, s1) ->
  hosts d <> [] ->
  Workflow.runFingerprintActivity acts base d s1 = (Returned fps, s2) ->
  Workflow.runCredentialTesterActivity acts base fps s2 = (credS, s3) ->
  Workflow.runCveScannerActivity acts base fps s3 = (cveS, s4) ->
  Workflow.runProtocolFuzzerActivity acts base fps s4 = (protoS, s5) ->
  let credR := value_or zero_credential credS in
  let cveR := value_or zero_cve cveS in
  let protoR := value_or zero_protocol protoS in
  let '(o, r) :=
    Workflow.veilcamsPipelineWorkflow acts input sessionId now elapsed (Workflow.start s0) in
  branch_recorded "credential-tester" credS (Workflow.state r)
  /\ branch_recorded "cve-scanner" cveS (Workflow.state r)
  /\ branch_recorded "protocol-fuzzer" protoS (Workflow.state r)
  /\ (("exploitation" ∈ Workflow.invoked r) <-> 0 < vulnerabilitiesFound cveR)
  /\ last (Workflow.invoked r) = Some "report"
  /\ exists exR s6,
       (is_Some exR <-> 0 < vulnerabilitiesFound cveR)
       /\ let rin := {| ri_base := base; ri_discoveryResult := d;
                        ri_fingerprints := fps; ri_credentialResult := credR;
                        ri_cveResult := cveR; ri_protocolResult := protoR;
                        ri_exploitationResult := exR; ri_startTime := now;
                        ri_totalDurationMs := elapsed |} in
          Workflow.session r = snd (Workflow.runReportActivity acts rin s6)
          /\ (is_Returned o
              <-> is_Returned (fst (Workflow.runReportActivity acts rin s6))).
Proof. exact (testing_phase acts input sessionId now elapsed s0
                d s1 fps s2 credS s3 cveS s4 protoS s5). Qed.

Lemma testing_branches_isolated_witness :
  let acts := Activities.activities scanner_fails sample_now in
  let base := base_of sample_input "veilcams-1" in
  let '(o, r) :=
    Workflow.veilcamsPipelineWorkflow acts sample_input "veilcams-1" sample_now 7
      (Workflow.start Audit.empty_dir) in
  branch_recorded "credential-tester" (Returned sample_credentials) (Workflow.state r)
  /\ branch_recorded "cve-scanner" (Thrown "scanner crashed" : Outcome CveModuleResult)
       (Workflow.state r)
  /\ branch_recorded "protocol-fuzzer" (Returned sample_protocol) (Workflow.state r)
  /\ (("exploitation" ∈ Workflow.invoked r) <-> 0 < vulnerabilitiesFound zero_cve)
  /\ last (Workflow.invoked r) = Some "report"
  /\ exists exR s6,
       (is_Some exR <-> 0 < vulnerabilitiesFound zero_cve)
       /\ let rin := {| ri_base := base; ri_discoveryResult := sample_discovery;
                        ri_fingerprints := sample_fingerprints;
                        ri_credentialResult := sample_credentials;
                        ri_cveResult := zero_cve; ri_protocolResult := sample_protocol;
                        ri_exploitationResult := exR; ri_startTime := sample_now;
                        ri_totalDurationMs := 7 |} in
          Workflow.session r = snd (Workflow.runReportActivity acts rin s6)
          /\ (is_Returned o
              <-> is_Returned (fst (Workflow.runReportActivity acts rin s6))).
Proof.
  intros acts base.
  eapply (testing_branches_isolated acts sample_input "veilcams-1" sample_now 7
            Audit.empty_dir sample_discovery _ sample_fingerprints _
            (Returned sample_credentials) _ (Thrown "scanner crashed") _
            (Returned sample_protocol) _).
  - vm_compute; reflexivity.
  - discriminate.
  - vm_compute; reflexivity.
  - vm_compute; reflexivity.
  - vm_compute; reflexivity.
  - vm_compute; reflexivity.
Defined.

(** ** The status of the session after a run *)

(** Every activity but the report leaves [session.json] with the status
    [running]: it is written anew by [initialize], and [startModule] and
    [endModule] keep the status that they reload. *)
Lemma activity_leaves_running {R : Type} sessionId now module (work : Outcome R) d :
  Activities.final_status
    (snd (Activities.activity sessionId now module work Activities.nothing d))
  = Some Audit.S_running.
Proof.
  destruct work as [result | message].
  all: unfold Activities.activity, Activities.final_status.
  all: cbv beta iota zeta delta
         [bind ret Audit.AuditSession.initialize Audit.AuditSession.startModule
          Audit.AuditSession.endModule Audit.MetricsTracker.startModule
          Audit.MetricsTracker.endModule Audit.set_metrics Audit.flushSync
          Audit.reload Audit.log_line Audit.new_session Audit.new_metrics
          Activities.nothing Audit.metrics Audit.dir Audit.session_json
          Audit.workflow_log Audit.modules Audit.sm_status].
  all: rewrite lookup_insert_eq; reflexivity.
Qed.

(** The report activity leaves the status [completed] when the report was
    generated, and [running] when it was not. *)
Lemma report_activity_status mods now input d :
  Activities.final_status (snd (Activities.runReportActivity mods now input d))
  = Some (match fst (Activities.runReportActivity mods now input d) with
          | Returned _ => Audit.S_completed
          | Thrown _ => Audit.S_running
          end).
Proof.
  unfold Activities.runReportActivity, Activities.activity, Activities.final_status.
  destruct (Activities.generateReport mods input) as [report | message].
  all: cbv beta iota zeta delta
         [bind ret Audit.AuditSession.initialize Audit.AuditSession.startModule
          Audit.AuditSession.endModule Audit.AuditSession.finalize
          Audit.MetricsTracker.startModule Audit.MetricsTracker.endModule
          Audit.MetricsTracker.finalize Audit.set_metrics Audit.flushSync
          Audit.reload Audit.log_line Audit.new_session Audit.new_metrics
          Audit.metrics Audit.dir Audit.session_json
          Audit.workflow_log Audit.modules Audit.sm_status].
  all: rewrite lookup_insert_eq; reflexivity.
Qed.

Section SessionStatus.

Import Workflow.

Variable acts : Activities Audit.SessionDir.

Local Abbreviation status_of :=
  (fun d => Activities.final_status d).

Hypothesis discovery_running : forall base ts d,
  status_of (snd (runDiscoveryActivity acts base ts d)) = Some Audit.S_running.
Hypothesis fingerprint_running : forall base dr d,
  status_of (snd (runFingerprintActivity acts base dr d)) = Some Audit.S_running.
Hypothesis report_status : forall input d,
  status_of (snd (runReportActivity acts input d))
  = Some (match fst (runReportActivity acts input d) with
          | Returned _ => Audit.S_completed
          | Thrown _ => Audit.S_running
          end).

Lemma workflow_status input sessionId now elapsed d0 :
  let '(o, r) := veilcamsPipelineWorkflow acts input sessionId now elapsed (start d0) in
  status_of (session r)
  = Some (match o with
          | Returned _ => Audit.S_completed
          | Thrown _ => Audit.S_running
          end).
Proof.
  destruct (veilcamsPipelineWorkflow acts input sessionId now elapsed (start d0))
    as [o r] eqn:Hrun.
  unfold veilcamsPipelineWorkflow in Hrun.
  wf_step Hrun.
  repeat
    (match type of Hrun with
     | context [runDiscoveryActivity acts ?b ?t ?d] =>
         pose proof (discovery_running b t d) as Hlast;
         destruct (runDiscoveryActivity acts b t d) as [[? | ?] ?]
     | context [runFingerprintActivity acts ?b ?t ?d] =>
         clear Hlast; pose proof (fingerprint_running b t d) as Hlast;
         destruct (runFingerprintActivity acts b t d) as [[? | ?] ?]
     | context [runCredentialTesterActivity acts ?b ?t ?d] =>
         destruct (runCredentialTesterActivity acts b t d) as [[? | ?] ?]
     | context [runCveScannerActivity acts ?b ?t ?d] =>
         destruct (runCveScannerActivity acts b t d) as [[? | ?] ?]
     | context [runProtocolFuzzerActivity acts ?b ?t ?d] =>
         destruct (runProtocolFuzzerActivity acts b t d) as [[? | ?] ?]
     | context [runExploitationActivity acts ?b ?t ?c ?d] =>
         destruct (runExploitationActivity acts b t c d) as [[? | ?] ?]
     | context [runReportActivity acts ?i ?d] =>
         clear Hlast; pose proof (report_status i d) as Hlast;
         destruct (runReportActivity acts i d) as [[? | ?] ?]
     | context [bool_decide ?P] => destruct (bool_decide P)
     | context [0 <? ?x] => destruct (0 <? x)
     end; wf_step Hrun).
  all: injection Hrun as <- <-; exact Hlast.
Qed.

End SessionStatus.

(** C7.  The status that a run leaves in [session.json] is [completed] when
    the workflow returns and [running] when it throws: [markFailed] is
    called by no activity and by no workflow, so the status [failed] is never
    written.  A run whose discovery fails ends with the status [running]. *)
Theorem failed_run_leaves_session_running :
  (forall mods clock input sessionId now elapsed d0,
     let '(o, r) :=
       Workflow.veilcamsPipelineWorkflow (Activities.activities mods clock) input
         sessionId now elapsed (Workflow.start d0) in
     Activities.final_status (Workflow.session r)
     = Some (match o with
             | Returned _ => Audit.S_completed
             | Thrown _ => Audit.S_running
             end))
  /\ (let '(o, r) := pipeline_run discovery_fails sample_input "veilcams-1" sample_now 7 in
      o = Thrown "Discovery phase failed: nmap not found"
      /\ Workflow.failedModules (Workflow.state r) = ["discovery"]
      /\ Activities.final_status (Workflow.session r) = Some Audit.S_running
      /\ terminal_status (Activities.final_status (Workflow.session r)) = false).
Proof.
  split.
  - intros mods clock input sessionId now elapsed d0.
    apply (workflow_status (Activities.activities mods clock)).
    + intros base ts d. apply activity_leaves_running.
    + intros base dr d. apply activity_leaves_running.
    + intros rin d. apply report_activity_status.
  - vm_compute. repeat split; reflexivity.
Qed.

(** ** The other paths of the workflow *)

(** The case analysis of a run: every activity call is replaced by what it
    settles to, in the order of the calls. *)
Ltac wf_cases H :=
  repeat
    (match type of H with
     | context [Workflow.runDiscoveryActivity ?a ?b ?t ?d] =>
         destruct (Workflow.runDiscoveryActivity a b t d) as [[? | ?] ?]
     | context [Workflow.runFingerprintActivity ?a ?b ?t ?d] =>
         destruct (Workflow.runFingerprintActivity a b t d) as [[? | ?] ?]
     | context [Workflow.runCredentialTesterActivity ?a ?b ?t ?d] =>
         destruct (Workflow.runCredentialTesterActivity a b t d) as [[? | ?] ?]
     | context [Workflow.runCveScannerActivity ?a ?b ?t ?d] =>
         destruct (Workflow.runCveScannerActivity a b t d) as [[? | ?] ?]
     | context [Workflow.runProtocolFuzzerActivity ?a ?b ?t ?d] =>
         destruct (Workflow.runProtocolFuzzerActivity a b t d) as [[? | ?] ?]
     | context [Workflow.runExploitationActivity ?a ?b ?t ?c ?d] =>
         destruct (Workflow.runExploitationActivity a b t c d) as [[? | ?] ?]
     | context [Workflow.runReportActivity ?a ?i ?d] =>
         destruct (Workflow.runReportActivity a i d) as [[? | ?] ?]
     | context [bool_decide ?P] => destruct (bool_decide P)
     | context [0 <? ?x] => destruct (0 <? x)
     end; wf_step H).

(** X1.  When the discovery activity fails, the workflow throws the message
    of the failure behind the words of the phase, records discovery as
    failed and invokes no other activity. *)
Theorem discovery_failure_aborts {Session : Type} (acts : Workflow.Activities Session)
    input sessionId now elapsed (s0 : Session) message s1 :
  Workflow.runDiscoveryActivity acts (base_of input sessionId) (targets input) s0
  = (Thrown message, s1) ->
  Workflow.veilcamsPipelineWorkflow acts input sessionId now elapsed (Workflow.start s0)
  = (Thrown ("Discovery phase failed: " ++ message),
     {| Workflow.state :=
          {| Workflow.currentPhase := "discovery";
             Workflow.currentModule := Some "discovery";
             Workflow.completedModules := [];
             Workflow.failedModules := ["discovery"];
             Workflow.moduleStatuses := {[ "discovery" := "failed" ]};
             Workflow.startTime := now |};
        Workflow.session := s1;
        Workflow.invoked := ["discovery"] |}).
Proof.
  intros Hd. unfold Workflow.veilcamsPipelineWorkflow.
  fold (base_of input sessionId).
  cbv beta iota zeta delta
    [bind ret Workflow.start Workflow.update Workflow.invoke Workflow.set_phase
     Workflow.set_status Workflow.mark_completed Workflow.mark_failed
     Workflow.state Workflow.session Workflow.invoked
     Workflow.currentPhase Workflow.currentModule Workflow.completedModules
     Workflow.failedModules Workflow.moduleStatuses Workflow.startTime].
  rewrite Hd.
  cbv beta iota zeta delta
    [bind ret Workflow.update Workflow.set_status Workflow.mark_failed
     Workflow.state Workflow.session Workflow.invoked
     Workflow.currentPhase Workflow.currentModule Workflow.completedModules
     Workflow.failedModules Workflow.moduleStatuses Workflow.startTime].
  rewrite insert_insert_eq. reflexivity.
Qed.

Lemma discovery_failure_aborts_witness :
  fst (pipeline_run discovery_fails sample_input "veilcams-1" sample_now 7)
  = Thrown "Discovery phase failed: nmap not found"
  /\ Workflow.invoked (snd (pipeline_run discovery_fails sample_input "veilcams-1"
                             sample_now 7))
     = ["discovery"].
Proof.
  unfold pipeline_run.
  rewrite (discovery_failure_aborts (Activities.activities discovery_fails sample_now)
             sample_input "veilcams-1" sample_now 7 Audit.empty_dir "nmap not found"
             (snd (Activities.runDiscoveryActivity discovery_fails sample_now
                     (base_of sample_input "veilcams-1") (targets sample_input)
                     Audit.empty_dir))).
  - split; reflexivity.
  - vm_compute. reflexivity.
Defined.

(** X2.  When discovery finds no host, the workflow goes straight to the
    report: the report activity is the only other activity invoked, it
    receives no fingerprint and the zeroed results, the workflow returns
    when the report does and throws the error of the report, as it is,
    when it does not; the state records no status for the report. *)
Theorem empty_discovery_reports_only {Session : Type}
    (acts : Workflow.Activities Session) input sessionId now elapsed (s0 : Session) d s1 :
  Workflow.runDiscoveryActivity acts (base_of input sessionId) (targets input) s0
  = (Returned d, s1) ->
  hosts d = [] ->
  let report :=
    Workflow.runReportActivity acts
      (empty_report_input (base_of input sessionId) d now elapsed) s1 in
  let '(o, r) :=
    Workflow.veilcamsPipelineWorkflow acts input sessionId now elapsed (Workflow.start s0) in
  o = match fst report with
      | Returned _ => Returned tt
      | Thrown message => Thrown message
      end
  /\ Workflow.session r = snd report
  /\ Workflow.invoked r = ["discovery"; "report"]
  /\ Workflow.completedModules (Workflow.state r) = ["discovery"]
  /\ Workflow.failedModules (Workflow.state r) = []
  /\ Workflow.moduleStatuses (Workflow.state r) !! "report" = None
  /\ Workflow.currentPhase (Workflow.state r) = "reporting".
Proof.
  intros Hd Hhosts report.
  destruct (Workflow.veilcamsPipelineWorkflow acts input sessionId now elapsed
              (Workflow.start s0)) as [o r] eqn:Hrun.
  unfold Workflow.veilcamsPipelineWorkflow in Hrun.
  fold (base_of input sessionId) in Hrun.
  wf_step Hrun. rewrite Hd in Hrun.
  wf_step Hrun. rewrite bool_decide_eq_true_2 in Hrun by exact Hhosts.
  wf_step Hrun.
  fold (empty_report_input (base_of input sessionId) d now elapsed) in Hrun.
  fold report in Hrun.
  destruct report as [[text | message] s2]; wf_step Hrun; injection Hrun as <- <-.
  all: cbn [fst snd Workflow.state Workflow.session Workflow.invoked
            Workflow.completedModules Workflow.failedModules Workflow.moduleStatuses
            Workflow.currentPhase app].
  all: repeat split; closed_fact.
Qed.

Lemma empty_discovery_reports_only_witness :
  Workflow.invoked (snd (pipeline_run no_hosts sample_input "veilcams-1" sample_now 7))
  = ["discovery"; "report"]
  /\ fst (pipeline_run no_hosts sample_input "veilcams-1" sample_now 7) = Returned tt.
Proof.
  pose (acts := Activities.activities no_hosts sample_now).
  pose (base := base_of sample_input "veilcams-1").
  assert (Hd : Workflow.runDiscoveryActivity acts base (targets sample_input)
                 Audit.empty_dir
               = (Returned {| hosts := []; scanDurationMs := 12; targetsScanned := 1 |},
                  snd (Workflow.runDiscoveryActivity acts base (targets sample_input)
                         Audit.empty_dir)))
    by (vm_compute; reflexivity).
  pose proof (empty_discovery_reports_only acts sample_input "veilcams-1" sample_now 7
                Audit.empty_dir _ _ Hd eq_refl) as H.
  unfold pipeline_run. fold acts.
  destruct (Workflow.veilcamsPipelineWorkflow acts sample_input "veilcams-1" sample_now 7
              (Workflow.start Audit.empty_dir)) as [o r].
  destruct H as (Ho & _ & Hi & _).
  split; [exact Hi |]. rewrite Ho. vm_compute. reflexivity.
Defined.

(** X3.  When fingerprinting fails after a discovery that found hosts, the
    workflow throws the message of the failure behind the words of the
    phase, records fingerprint as failed, and invokes none of the testers
    and no report. *)
Theorem fingerprint_failure_aborts {Session : Type} (acts : Workflow.Activities Session)
    input sessionId now elapsed (s0 : Session) d s1 message s2 :
  Workflow.runDiscoveryActivity acts (base_of input sessionId) (targets input) s0
  = (Returned d, s1) ->
  hosts d <> [] ->
  Workflow.runFingerprintActivity acts (base_of input sessionId) d s1
  = (Thrown message, s2) ->
  let '(o, r) :=
    Workflow.veilcamsPipelineWorkflow acts input sessionId now elapsed (Workflow.start s0) in
  o = Thrown ("Fingerprinting phase failed: " ++ message)
  /\ Workflow.session r = s2
  /\ Workflow.invoked r = ["discovery"; "fingerprint"]
  /\ Workflow.completedModules (Workflow.state r) = ["discovery"]
  /\ Workflow.failedModules (Workflow.state r) = ["fingerprint"]
  /\ Workflow.moduleStatuses (Workflow.state r) !! "discovery" = Some "completed"
  /\ Workflow.moduleStatuses (Workflow.state r) !! "fingerprint" = Some "failed".
Proof.
  intros Hd Hhosts Hf.
  destruct (Workflow.veilcamsPipelineWorkflow acts input sessionId now elapsed
              (Workflow.start s0)) as [o r] eqn:Hrun.
  unfold Workflow.veilcamsPipelineWorkflow in Hrun.
  fold (base_of input sessionId) in Hrun.
  wf_step Hrun. rewrite Hd in Hrun.
  wf_step Hrun. rewrite bool_decide_eq_false_2 in Hrun by exact Hhosts.
  wf_step Hrun. rewrite Hf in Hrun.
  wf_step Hrun. injection Hrun as <- <-.
  cbn [Workflow.state Workflow.session Workflow.invoked Workflow.completedModules
       Workflow.failedModules Workflow.moduleStatuses app].
  repeat split; closed_fact.
Qed.

Lemma fingerprint_failure_aborts_witness :
  fst (pipeline_run fingerprint_fails sample_input "veilcams-1" sample_now 7)
  = Thrown "Fingerprinting phase failed: probe timed out"
  /\ Workflow.invoked (snd (pipeline_run fingerprint_fails sample_input "veilcams-1"
                             sample_now 7))
     = ["discovery"; "fingerprint"].
Proof.
  pose (acts := Activities.activities fingerprint_fails sample_now).
  pose (base := base_of sample_input "veilcams-1").
  pose (s1 := snd (Workflow.runDiscoveryActivity acts base (targets sample_input)
                     Audit.empty_dir)).
  assert (Hd : Workflow.runDiscoveryActivity acts base (targets sample_input)
                 Audit.empty_dir = (Returned sample_discovery, s1))
    by (vm_compute; reflexivity).
  assert (Hf : Workflow.runFingerprintActivity acts base sample_discovery s1
               = (Thrown "probe timed out",
                  snd (Workflow.runFingerprintActivity acts base sample_discovery s1)))
    by (vm_compute; reflexivity).
  assert (Hhosts : hosts sample_discovery <> []) by discriminate.
  pose proof (fingerprint_failure_aborts acts sample_input "veilcams-1" sample_now 7
                Audit.empty_dir _ _ _ _ Hd Hhosts Hf) as H.
  unfold pipeline_run. fold acts.
  destruct (Workflow.veilcamsPipelineWorkflow acts sample_input "veilcams-1" sample_now 7
              (Workflow.start Audit.empty_dir)) as [o r].
  destruct H as (Ho & _ & Hi & _).
  split; [exact Ho | exact Hi].
Defined.

(** X4.  A failure of the exploitation activity is absorbed: when the CVE
    scanner reports a vulnerability and the exploitation activity throws,
    the workflow records exploitation as failed, still invokes the report
    activity, last, passes it the zeroed exploitation result, and returns
    exactly when the report does. *)
Theorem exploitation_failure_isolated {Session : Type}
    (acts : Workflow.Activities Session) input sessionId now elapsed (s0 : Session)
    d s1 fps s2 credS s3 cve s4 protoS s5 message s6 :
  let base := base_of input sessionId in
  Workflow.runDiscoveryActivity acts base (targets input) s0 = (Returned d, s1) ->
  hosts d <> [] ->
  Workflow.runFingerprintActivity acts base d s1 = (Returned fps, s2) ->
  Workflow.runCredentialTesterActivity acts base fps s2 = (credS, s3) ->
  Workflow.runCveScannerActivity acts base fps s3 = (Returned cve, s4) ->
  Workflow.runProtocolFuzzerActivity acts base fps s4 = (protoS, s5) ->
  0 < vulnerabilitiesFound cve ->
  Workflow.runExploitationActivity acts base fps cve s5 = (Thrown message, s6) ->
  let report :=
    Workflow.runReportActivity acts
      {| ri_base := base; ri_discoveryResult := d; ri_fingerprints := fps;
         ri_credentialResult := value_or zero_credential credS;
         ri_cveResult := cve;
         ri_protocolResult := value_or zero_protocol protoS;
         ri_exploitationResult := Some zero_exploitation;
         ri_startTime := now; ri_totalDurationMs := elapsed |} s6 in
  let '(o, r) :=
    Workflow.veilcamsPipelineWorkflow acts input sessionId now elapsed (Workflow.start s0) in
  (is_Returned o <-> is_Returned (fst report))
  /\ Workflow.session r = snd report
  /\ last (Workflow.invoked r) = Some "report"
  /\ ("exploitation" ∈ Workflow.failedModules (Workflow.state r))
  /\ ("exploitation" ∉ Workflow.completedModules (Workflow.state r))
  /\ Workflow.moduleStatuses (Workflow.state r) !! "exploitation" = Some "failed".
Proof.
  intros base Hd Hhosts Hf Hc Hv Hp Hvuln He report.
  destruct (Workflow.veilcamsPipelineWorkflow acts input sessionId now elapsed
              (Workflow.start s0)) as [o r] eqn:Hrun.
  unfold Workflow.veilcamsPipelineWorkflow in Hrun.
  fold (base_of input sessionId) in Hrun. fold base in Hrun.
  wf_step Hrun. rewrite Hd in Hrun.
  wf_step Hrun. rewrite bool_decide_eq_false_2 in Hrun by exact Hhosts.
  wf_step Hrun. rewrite Hf in Hrun.
  wf_step Hrun. rewrite Hc in Hrun.
  wf_step Hrun. rewrite Hv in Hrun.
  wf_step Hrun. rewrite Hp in Hrun.
  wf_step Hrun.
  apply Z.ltb_lt in Hvuln.
  destruct credS as [cv | cm], protoS as [pv | pm]; wf_step Hrun;
    rewrite Hvuln in Hrun; wf_step Hrun; rewrite He in Hrun; wf_step Hrun.
  all: cbn [value_or] in report; fold report in Hrun.
  all: destruct report as [[text | rm] s7]; wf_step Hrun; injection Hrun as <- <-.
  all: cbn [fst snd is_Returned Workflow.state Workflow.session Workflow.invoked
            Workflow.completedModules Workflow.failedModules Workflow.moduleStatuses app].
  all: repeat match goal with
       | |- _ /\ _ => split
       | |- _ <-> _ => tauto
       | |- _ => closed_fact
       end.
Qed.

Lemma exploitation_failure_isolated_witness :
  fst (pipeline_run exploitation_fails sample_input "veilcams-1" sample_now 7)
  = Returned tt
  /\ last (Workflow.invoked (snd (pipeline_run exploitation_fails sample_input
                                   "veilcams-1" sample_now 7)))
     = Some "report"
  /\ Workflow.moduleStatuses
       (Workflow.state (snd (pipeline_run exploitation_fails sample_input "veilcams-1"
                               sample_now 7)))
     !! "exploitation" = Some "failed".
Proof.
  pose (acts := Activities.activities exploitation_fails sample_now).
  pose (base := base_of sample_input "veilcams-1").
  pose (s1 := snd (Workflow.runDiscoveryActivity acts base (targets sample_input)
                     Audit.empty_dir)).
  pose (s2 := snd (Workflow.runFingerprintActivity acts base sample_discovery s1)).
  pose (s3 := snd (Workflow.runCredentialTesterActivity acts base sample_fingerprints s2)).
  pose (s4 := snd (Workflow.runCveScannerActivity acts base sample_fingerprints s3)).
  pose (s5 := snd (Workflow.runProtocolFuzzerActivity acts base sample_fingerprints s4)).
  pose (s6 := snd (Workflow.runExploitationActivity acts base sample_fingerprints
                     sample_cves s5)).
  assert (Hd : Workflow.runDiscoveryActivity acts base (targets sample_input)
                 Audit.empty_dir = (Returned sample_discovery, s1))
    by (vm_compute; reflexivity).
  assert (Hhosts : hosts sample_discovery <> []) by discriminate.
  assert (Hf : Workflow.runFingerprintActivity acts base sample_discovery s1
               = (Returned sample_fingerprints, s2)) by (vm_compute; reflexivity).
  assert (Hc : Workflow.runCredentialTesterActivity acts base sample_fingerprints s2
               = (Returned sample_credentials, s3)) by (vm_compute; reflexivity).
  assert (Hv : Workflow.runCveScannerActivity acts base sample_fingerprints s3
               = (Returned sample_cves, s4)) by (vm_compute; reflexivity).
  assert (Hp : Workflow.runProtocolFuzzerActivity acts base sample_fingerprints s4
               = (Returned sample_protocol, s5)) by (vm_compute; reflexivity).
  assert (Hvuln : 0 < vulnerabilitiesFound sample_cves) by (simpl; lia).
  assert (He : Workflow.runExploitationActivity acts base sample_fingerprints
                 sample_cves s5 = (Thrown "msfconsole not found", s6))
    by (vm_compute; reflexivity).
  pose proof (exploitation_failure_isolated acts sample_input "veilcams-1" sample_now 7
                Audit.empty_dir _ _ _ _ _ _ _ _ _ _ _ _
                Hd Hhosts Hf Hc Hv Hp Hvuln He) as H.
  unfold pipeline_run. fold acts.
  destruct (Workflow.veilcamsPipelineWorkflow acts sample_input "veilcams-1" sample_now 7
              (Workflow.start Audit.empty_dir)) as [o r].
  destruct H as (Ho & _ & Hlast & _ & _ & Hstatus).
  split; [| split; [exact Hlast | exact Hstatus]].
  cbn [fst]. destruct o as [[] | m]; [reflexivity |].
  exfalso. apply Ho. vm_compute. exact I.
Defined.

(** X5.  At the end of every run, whatever the activities do: the
    activities were invoked in the order of [MODULE_ORDER]; no module is
    recorded twice, or as both completed and failed; every recorded module
    was invoked and has the status of its list; and no status in the state
    is left at [running]. *)
Theorem workflow_state_settled {Session : Type} (acts : Workflow.Activities Session)
    input sessionId now elapsed (s0 : Session) :
  let '(o, r) :=
    Workflow.veilcamsPipelineWorkflow acts input sessionId now elapsed (Workflow.start s0) in
  let st := Workflow.state r in
  sublist (Workflow.invoked r) MODULE_ORDER
  /\ NoDup (Workflow.completedModules st ++ Workflow.failedModules st)
  /\ Forall (fun m => m ∈ Workflow.invoked r)
       (Workflow.completedModules st ++ Workflow.failedModules st)
  /\ Forall (fun m => Workflow.moduleStatuses st !! m = Some "completed")
       (Workflow.completedModules st)
  /\ Forall (fun m => Workflow.moduleStatuses st !! m = Some "failed")
       (Workflow.failedModules st)
  /\ map_Forall (fun _ status => settled_status status = true)
       (Workflow.moduleStatuses st).
Proof.
  destruct (Workflow.veilcamsPipelineWorkflow acts input sessionId now elapsed
              (Workflow.start s0)) as [o r] eqn:Hrun.
  unfold Workflow.veilcamsPipelineWorkflow in Hrun.
  wf_step Hrun. wf_cases Hrun.
  all: injection Hrun as <- <-.
  all: cbn [Workflow.state Workflow.session Workflow.invoked Workflow.completedModules
            Workflow.failedModules Workflow.moduleStatuses app].
  all: split;
         [unfold MODULE_ORDER;
          repeat first [apply sublist_nil | apply sublist_skip | apply sublist_cons] |].
  all: repeat split; by apply (bool_decide_unpack _); vm_compute.
Qed.

(** ** The loop of [testHost] *)

Lemma only_last_succeeds_snoc rs r :
  Forall (fun x => success x = false) rs -> only_last_succeeds (rs ++ [r]).
Proof.
  intros Hall i x Hi Hx. rewrite length_app. simpl.
  destruct (decide (i < length rs)%nat) as [Hlt | Hge].
  - rewrite lookup_app_l in Hi by done.
    rewrite Forall_lookup in Hall. rewrite (Hall i x Hi) in Hx. discriminate.
  - apply lookup_lt_Some in Hi. rewrite length_app in Hi. simpl in Hi. lia.
Qed.

Lemma testHost_loop_bound
    (tH tR : FingerprintResult -> Credential -> M CredentialTestResult)
    (target : FingerprintResult) (config : VeilcamsConfig) :
  forall todo attempts found results w rs w',
    attempts = Z.of_nat (length results) ->
    only_last_succeeds results ->
    (found = false -> Forall (fun r => success r = false) results) ->
    testHost_loop tH tR target config todo attempts found results w = (rs, w') ->
    only_last_succeeds rs
    /\ Z.of_nat (length rs)
       <= Z.max (Z.of_nat (length results)) (max_attempts_per_host config + 1)
    /\ (length rs <= length results + 2 * length todo)%nat.
Proof.
  induction todo as [| c rest IH]; intros attempts found results w rs w' Hatt Hlast Hfail H.
  { apply ret_inv in H as [-> ->]. split; [done |]. split; simpl; lia. }
  simpl in H.
  destruct (max_attempts_per_host config <=? attempts) eqn:Hmax.
  { apply ret_inv in H as [-> ->]. split; [done |]. split; simpl; lia. }
  destruct found.
  { apply ret_inv in H as [-> ->]. split; [done |]. split; simpl; lia. }
  apply Z.leb_gt in Hmax. specialize (Hfail eq_refl).
  assert (Hrtsp : forall results1 w1,
             (length results <= length results1 <= length results + 1)%nat ->
             Forall (fun r => success r = false) results1 ->
             (if protocols_include P_rtsp target && protocols_rtsp config
              then
                let* rtspResult := tR target c in
                testHost_loop tH tR target config rest (Z.of_nat (length results1) + 1)
                  (success rtspResult) (results1 ++ [rtspResult])%list
              else testHost_loop tH tR target config rest (Z.of_nat (length results1))
                     false results1) w1
             = (rs, w') ->
             only_last_succeeds rs
             /\ Z.of_nat (length rs)
                <= Z.max (Z.of_nat (length results)) (max_attempts_per_host config + 1)
             /\ (length rs <= length results + 2 * length (c :: rest))%nat).
  { intros results1 w1 Hlen Hfail1 H1.
    destruct (protocols_include P_rtsp target && protocols_rtsp config).
    - apply bind_inv in H1 as (r & w2 & Hr & H1).
      apply IH in H1 as (Ho & Hb & Hl).
      + split; [done |]. rewrite length_app in Hb, Hl. simpl in *. split; lia.
      + rewrite length_app. simpl. lia.
      + by apply only_last_succeeds_snoc.
      + intros Hs. apply Forall_app. split; [done |]. by constructor.
    - apply IH in H1 as (Ho & Hb & Hl).
      + split; [done |]. simpl in *. split; lia.
      + done.
      + intros i x Hi Hx. rewrite Forall_lookup in Hfail1.
        rewrite (Hfail1 i x Hi) in Hx. discriminate.
      + done. }
  destruct (protocols_include P_http target || protocols_include P_https target).
  - apply bind_inv in H as (h & w1 & Hh & H).
    destruct (success h) eqn:Hs.
    + apply IH in H as (Ho & Hb & Hl).
      * split; [done |]. rewrite length_app in Hb, Hl. simpl in *. split; lia.
      * rewrite length_app. simpl. lia.
      * by apply only_last_succeeds_snoc.
      * discriminate.
    + apply (Hrtsp (results ++ [h])%list w1).
      * rewrite length_app. simpl. lia.
      * apply Forall_app. split; [done |]. by constructor.
      * rewrite length_app. simpl.
        replace (Z.of_nat (length results + 1)) with (attempts + 1) by lia. exact H.
  - apply (Hrtsp results w).
    + lia.
    + done.
    + rewrite <- Hatt. exact H.
Qed.

(** X6.  In both testers [testHost] stops at the first success: only the
    last result can have [success = true].  It makes at most two attempts
    per credential, and at most one attempt more than
    [max_attempts_per_host]: the cap is tested once per credential, before
    its HTTP and its RTSP attempt.  With a cap of 1, a target that speaks
    HTTP and RTSP and a host where every attempt fails, two attempts are
    made. *)
Theorem testHost_attempts_bounded :
  (forall net target config w,
     let rs := fst (BaselineTester.testHost net target config w) in
     let rs' := fst (PlainTester.testHost net target config w) in
     (only_last_succeeds rs
      /\ Z.of_nat (length rs) <= Z.max 0 (max_attempts_per_host config + 1)
      /\ (length rs <= 2 * length (buildCredentialList target config))%nat)
     /\ (only_last_succeeds rs'
         /\ Z.of_nat (length rs') <= Z.max 0 (max_attempts_per_host config + 1)
         /\ (length rs' <= 2 * length (buildCredentialList target config))%nat))
  /\ length (fst (BaselineTester.testHost closed_host (sample_target A_basic) one_attempt
                    initial_world)) = 2%nat.
Proof.
  split; [| vm_compute; reflexivity].
  intros net target config w rs rs'. subst rs rs'.
  assert (Hnil : only_last_succeeds []).
  { intros i r Hi. by rewrite lookup_nil in Hi. }
  split.
  - destruct (BaselineTester.testHost net target config w) as [rs w'] eqn:H.
    apply testHost_loop_bound in H; [exact H | done | done | by constructor].
  - destruct (PlainTester.testHost net target config w) as [rs w'] eqn:H.
    apply testHost_loop_bound in H; [exact H | done | done | by constructor].
Qed.

(** ** What the activities leave in [session.json] *)

(** What an activity other than the report leaves in [session.json]. *)
Lemma activity_session_file {R : Type} sessionId now module (work : Outcome R) d :
  exists m md,
    Audit.session_json
      (snd (Activities.activity sessionId now module work Activities.nothing d))
    = Some m
    /\ Audit.sessionId m = sessionId
    /\ Audit.sm_status m = Audit.S_running
    /\ Audit.summary m = None
    /\ Audit.modules m = {[ module := md ]}
    /\ Audit.mm_phase md = Audit.MODULE_PHASE_MAP module
    /\ Audit.mm_attempt md = 1
    /\ Audit.mm_status md
       = match work with
         | Returned _ => Audit.M_completed
         | Thrown _ => Audit.M_failed
         end
    /\ Audit.mm_error md
       = match work with
         | Returned _ => None
         | Thrown message => if String.eqb message "" then None else Some message
         end.
Proof.
  destruct work as [result | message].
  all: unfold Activities.activity.
  all: cbv beta iota zeta delta
         [bind ret Audit.AuditSession.initialize Audit.AuditSession.startModule
          Audit.AuditSession.endModule Audit.MetricsTracker.startModule
          Audit.MetricsTracker.endModule Audit.set_metrics Audit.flushSync
          Audit.reload Audit.log_line Audit.new_session Audit.new_metrics
          Activities.nothing Audit.metrics Audit.dir Audit.session_json
          Audit.workflow_log Audit.modules Audit.sm_status Audit.sessionId
          Audit.sm_startTime Audit.sm_endTime Audit.sm_error Audit.summary].
  all: rewrite lookup_insert_eq.
  all: cbv beta iota zeta delta
         [bind ret Audit.set_metrics Audit.flushSync Audit.log_line
          Audit.metrics Audit.dir Audit.session_json
          Audit.workflow_log Audit.modules Audit.sm_status Audit.sessionId
          Audit.sm_startTime Audit.sm_endTime Audit.sm_error Audit.summary
          Audit.mm_name Audit.mm_phase Audit.mm_startTime Audit.mm_attempt
          Audit.mm_error truthy snd].
  all: rewrite insert_insert_eq.
  all: eexists _, _; split; [reflexivity |]; cbn.
  all: do 3 (split; [reflexivity |]).
  all: split; [apply insert_empty |]; cbn.
  - repeat split.
  - destruct (String.eqb message ""); repeat split.
Qed.


Lemma activity_outcome {R : Type} sessionId now module (work : Outcome R) after d :
  fst (Activities.activity sessionId now module work after d) = work.
Proof.
  unfold Activities.activity.
  destruct work as [result | message].
  all: cbv beta iota zeta delta
         [bind ret Audit.AuditSession.initialize Audit.AuditSession.startModule
          Audit.AuditSession.endModule Audit.MetricsTracker.startModule
          Audit.MetricsTracker.endModule Audit.set_metrics Audit.flushSync
          Audit.reload Audit.log_line Audit.new_session Audit.new_metrics
          Audit.metrics Audit.dir Audit.session_json
          Audit.workflow_log Audit.modules Audit.sm_status].
  all: rewrite lookup_insert_eq.
  all: cbv beta iota zeta delta
         [bind ret Audit.set_metrics Audit.flushSync Audit.log_line
          Audit.metrics Audit.dir Audit.session_json
          Audit.workflow_log Audit.modules Audit.sm_status].
  - match goal with |- context [after result ?a] => destruct (after result a) end.
    reflexivity.
  - reflexivity.
Qed.

Lemma activity_lists_only {R : Type} sessionId now module (work : Outcome R) d :
  lists_only module (returned work)
    (snd (Activities.activity sessionId now module work Activities.nothing d)).
Proof.
  destruct (activity_session_file sessionId now module work d)
    as (m & md & Hm & _ & _ & _ & Hmods & _ & _ & Hst & _).
  exists m, md. split; [done |]. split; [done |]. by destruct work.
Qed.

Lemma report_activity_lists_only mods now input d :
  lists_only "report" (returned (fst (Activities.runReportActivity mods now input d)))
    (snd (Activities.runReportActivity mods now input d)).
Proof.
  unfold Activities.runReportActivity, Activities.activity, lists_only.
  destruct (Activities.generateReport mods input) as [report | message].
  all: cbv beta iota zeta delta
         [bind ret Audit.AuditSession.initialize Audit.AuditSession.startModule
          Audit.AuditSession.endModule Audit.AuditSession.finalize
          Audit.MetricsTracker.startModule Audit.MetricsTracker.endModule
          Audit.MetricsTracker.finalize Audit.set_metrics Audit.flushSync
          Audit.reload Audit.log_line Audit.new_session Audit.new_metrics
          Audit.metrics Audit.dir Audit.session_json
          Audit.workflow_log Audit.modules Audit.sm_status].
  all: rewrite lookup_insert_eq.
  all: cbv beta iota zeta delta
         [bind ret Audit.set_metrics Audit.flushSync Audit.log_line Audit.reload
          Audit.metrics Audit.dir Audit.session_json
          Audit.workflow_log Audit.modules Audit.sm_status snd fst returned].
  all: rewrite insert_insert_eq.
  all: eexists _, _; split; [reflexivity |]; cbn; split; [apply insert_empty | reflexivity].
Qed.

Section LastActivity.

Context {Session : Type}.
Variable acts : Workflow.Activities Session.
Variable Q : string -> bool -> Session -> Prop.

Hypothesis discovery_leaves : forall base ts d,
  Q "discovery" (returned (fst (Workflow.runDiscoveryActivity acts base ts d)))
    (snd (Workflow.runDiscoveryActivity acts base ts d)).
Hypothesis fingerprint_leaves : forall base dr d,
  Q "fingerprint" (returned (fst (Workflow.runFingerprintActivity acts base dr d)))
    (snd (Workflow.runFingerprintActivity acts base dr d)).
Hypothesis report_leaves : forall input d,
  Q "report" (returned (fst (Workflow.runReportActivity acts input d)))
    (snd (Workflow.runReportActivity acts input d)).

(** A run ends with a failed discovery, a failed fingerprinting, or the
    report, and returns exactly when this last activity does. *)
Lemma workflow_last input sessionId now elapsed s0 :
  let '(o, r) :=
    Workflow.veilcamsPipelineWorkflow acts input sessionId now elapsed (Workflow.start s0) in
  exists name,
    last (Workflow.invoked r) = Some name /\ Q name (returned o) (Workflow.session r).
Proof.
  destruct (Workflow.veilcamsPipelineWorkflow acts input sessionId now elapsed
              (Workflow.start s0)) as [o r] eqn:Hrun.
  unfold Workflow.veilcamsPipelineWorkflow in Hrun.
  wf_step Hrun.
  repeat
    (match type of Hrun with
     | context [Workflow.runDiscoveryActivity acts ?b ?t ?d] =>
         pose proof (discovery_leaves b t d) as Hlast;
         destruct (Workflow.runDiscoveryActivity acts b t d) as [[? | ?] ?]
     | context [Workflow.runFingerprintActivity acts ?b ?t ?d] =>
         clear Hlast; pose proof (fingerprint_leaves b t d) as Hlast;
         destruct (Workflow.runFingerprintActivity acts b t d) as [[? | ?] ?]
     | context [Workflow.runCredentialTesterActivity acts ?b ?t ?d] =>
         destruct (Workflow.runCredentialTesterActivity acts b t d) as [[? | ?] ?]
     | context [Workflow.runCveScannerActivity acts ?b ?t ?d] =>
         destruct (Workflow.runCveScannerActivity acts b t d) as [[? | ?] ?]
     | context [Workflow.runProtocolFuzzerActivity acts ?b ?t ?d] =>
         destruct (Workflow.runProtocolFuzzerActivity acts b t d) as [[? | ?] ?]
     | context [Workflow.runExploitationActivity acts ?b ?t ?c ?d] =>
         destruct (Workflow.runExploitationActivity acts b t c d) as [[? | ?] ?]
     | context [Workflow.runReportActivity acts ?i ?d] =>
         clear Hlast; pose proof (report_leaves i d) as Hlast;
         destruct (Workflow.runReportActivity acts i d) as [[? | ?] ?]
     | context [bool_decide ?P] => destruct (bool_decide P)
     | context [0 <? ?x] => destruct (0 <? x)
     end; wf_step Hrun).
  all: injection Hrun as <- <-; eexists; split; [reflexivity | exact Hlast].
Qed.

End LastActivity.

(** X8.  After every run of the pipeline over the activities of the worker,
    whatever the modules do and whatever the session directory held before,
    [session.json] lists one module only, that of the activity invoked last;
    the module is listed as completed when the workflow returns and as
    failed when it throws.  The modules that ran before it are no longer in
    the file. *)
Theorem session_json_lists_last_module mods clock input sessionId now elapsed d0 :
  let '(o, r) :=
    Workflow.veilcamsPipelineWorkflow (Activities.activities mods clock) input
      sessionId now elapsed (Workflow.start d0) in
  exists name,
    last (Workflow.invoked r) = Some name
    /\ lists_only name (returned o) (Workflow.session r).
Proof.
  apply (workflow_last (Activities.activities mods clock) lists_only).
  - intros base ts d. cbn [Workflow.runDiscoveryActivity Activities.activities].
    unfold Activities.runDiscoveryActivity.
    rewrite activity_outcome. apply activity_lists_only.
  - intros base dr d. cbn [Workflow.runFingerprintActivity Activities.activities].
    unfold Activities.runFingerprintActivity.
    rewrite activity_outcome. apply activity_lists_only.
  - intros rin d. apply report_activity_lists_only.
Qed.

(** ** The calls of the RTSP test with the probe *)

Lemma testRtspAuth_open_calls net target c w r w' :
  stream_open net target ->
  rtsp_cache_agrees target w ->
  BaselineTester.testRtspAuth net target c w = (r, w') ->
  rtspUnauthCache w' !! unauth_key target = Some true
  /\ calls w'
     = (calls w ++ match rtspUnauthCache w !! unauth_key target with
                   | Some _ => []
                   | None => [CallRtsp (unauth_probe target)]
                   end)%list.
Proof.
  intros Hopen Hw H. unfold BaselineTester.testRtspAuth in H.
  apply bind_inv in H as (ts & w0 & Hts & H). unfold isoNow in Hts.
  inversion Hts; subst w0; clear Hts.
  unfold try_catch in H. apply bind_inv in H as (o & w2 & Ho & H).
  apply bind_inv in Ho as (b & w1 & Hb & Ho).
  pose proof (isRtspUnauthenticated_open _ _ _ _ _ Hopen Hw Hb) as [-> _].
  apply ret_inv in Ho as [-> ->]. apply ret_inv in H as [-> ->].
  destruct (rtspUnauthCache w !! unauth_key target) as [b0 |] eqn:Hk.
  - rewrite (isRtspUnauthenticated_cached _ _ _ _ Hk) in Hb. inversion Hb; subst.
    rewrite app_nil_r. done.
  - destruct (isRtspUnauthenticated_probe net target _ Hk) as (b1 & Hp & _).
    rewrite Hp in Hb. inversion Hb; subst. simpl. split; [apply lookup_insert_eq | done].
Qed.

(** X9.  With the probe, a stream that is open to everyone is asked once:
    however many credentials [testRtspAuth] tests against it, the only call
    that is sent is the DESCRIBE without credentials, once, and not at all
    when the answer is in the cache; no credential is sent to the host. *)
Theorem open_stream_probed_once net target cs : forall w rs w',
  stream_open net target ->
  rtsp_cache_agrees target w ->
  for_each (BaselineTester.testRtspAuth net target) cs w = (rs, w') ->
  calls w'
  = (calls w ++ match cs, rtspUnauthCache w !! unauth_key target with
                | _ :: _, None => [CallRtsp (unauth_probe target)]
                | _, _ => []
                end)%list.
Proof.
  induction cs as [| c cs IH]; intros w rs w' Hopen Hw H.
  { apply ret_inv in H as [-> ->]. by rewrite app_nil_r. }
  simpl in H. apply bind_inv in H as (r & w1 & Hr & H).
  apply bind_inv in H as (rs1 & w2 & Hrs & H). apply ret_inv in H as [-> ->].
  destruct (testRtspAuth_open_calls _ _ _ _ _ _ Hopen Hw Hr) as [Hc1 Hcalls].
  destruct (testRtspAuth_open _ _ _ _ _ _ Hopen Hw Hr) as (_ & _ & Hw1).
  rewrite (IH _ _ _ Hopen Hw1 Hrs), Hc1, Hcalls.
  destruct cs; by rewrite app_nil_r.
Qed.

Lemma open_stream_probed_once_witness :
  calls (snd (for_each (BaselineTester.testRtspAuth open_host (sample_target A_basic))
                sample_credentials_list initial_world))
  = [CallRtsp (unauth_probe (sample_target A_basic))].
Proof.
  apply (open_stream_probed_once open_host (sample_target A_basic) sample_credentials_list
           initial_world
           (fst (for_each (BaselineTester.testRtspAuth open_host (sample_target A_basic))
                   sample_credentials_list initial_world))).
  - intros hist. eexists. split; reflexivity.
  - intros b Hb. discriminate Hb.
  - apply surjective_pairing.
Defined.

Lemma rtsp_open_stream_suppressed_witness :
  Forall (fun r => success r = false
                   /\ Js.includes "unauthenticated access is the real finding"
                        (evidence r) = true)
    (fst (for_each (BaselineTester.testRtspAuth open_host (sample_target A_basic))
            sample_credentials_list initial_world)).
Proof.
  apply (rtsp_open_stream_suppressed open_host (sample_target A_basic)
           sample_credentials_list initial_world _
           (snd (for_each (BaselineTester.testRtspAuth open_host (sample_target A_basic))
                   sample_credentials_list initial_world))).
  - intros hist. eexists. split; reflexivity.
  - intros b Hb. discriminate Hb.
  - apply surjective_pairing.
Defined.

(** X10.  A success of [testRtspAuth] with the probe is a success of the
    credential: the probe without credentials is recorded as denied for the
    stream, and the DESCRIBE with the credential answered 200. *)
Theorem rtsp_success_is_genuine net target c w r w' :
  BaselineTester.testRtspAuth net target c w = (r, w') ->
  success r = true ->
  rtspUnauthCache w' !! unauth_key target = Some false
  /\ responseCode r = Some 200
  /\ r_protocol r = "rtsp"
  /\ r_credential r = c.
Proof.
  intros H Hs.
  destruct (testRtspAuth_success net target c w r w' H Hs) as [Hcache Hcode].
  split; [done |]. split; [done |].
  unfold BaselineTester.testRtspAuth in H.
  apply bind_inv in H as (ts & w0 & Hts & H).
  unfold try_catch in H. apply bind_inv in H as (o & w2 & Ho & H).
  apply bind_inv in Ho as (b & w1 & Hb & Ho).
  destruct b.
  - apply ret_inv in Ho as [-> ->]. apply ret_inv in H as [-> ->]. done.
  - unfold bindT, bind, rtspDescribe in Ho. simpl in Ho.
    destruct (rtsp_reply net (calls w1) _) as [reply | msg];
      apply ret_inv in Ho as [-> ->]; apply ret_inv in H as [-> ->]; done.
Qed.

Lemma rtsp_success_is_genuine_witness :
  success (fst (BaselineTester.testRtspAuth guarded_stream (sample_target A_basic)
                  (cred "admin" "12345") initial_world)) = true
  /\ responseCode (fst (BaselineTester.testRtspAuth guarded_stream (sample_target A_basic)
                          (cred "admin" "12345") initial_world)) = Some 200.
Proof.
  assert (Hs : success (fst (BaselineTester.testRtspAuth guarded_stream
                               (sample_target A_basic) (cred "admin" "12345")
                               initial_world)) = true) by (vm_compute; reflexivity).
  split; [exact Hs |].
  apply (rtsp_success_is_genuine guarded_stream (sample_target A_basic)
           (cred "admin" "12345") initial_world _
           (snd (BaselineTester.testRtspAuth guarded_stream (sample_target A_basic)
                   (cred "admin" "12345") initial_world))).
  - apply surjective_pairing.
  - exact Hs.
Defined.

(** ** The credential list without the defaults *)

(** X11.  With [use_defaults] disabled, [buildCredentialList] keeps of the
    custom credentials exactly the entries at the positions where a
    [username:password] key occurs for the first time, in their order; the
    vendor of the target plays no part.  When there is no custom credential
    either, [testHost] makes no attempt and sends nothing. *)
Theorem custom_credentials_only target config :
  use_defaults config = false ->
  (exists positions,
     StronglySorted lt positions
     /\ (forall i, i ∈ positions <-> first_occurrence (custom config) i)
     /\ Forall2 (fun c i => custom config !! i = Some c)
          (buildCredentialList target config) positions)
  /\ (forall other, buildCredentialList other config = buildCredentialList target config)
  /\ (custom config = [] ->
      forall net w,
        BaselineTester.testHost net target config w = ([], w)
        /\ PlainTester.testHost net target config w = ([], w)).
Proof.
  intros Hdef.
  assert (Hcand : forall t, candidates t config = custom config).
  { intros t. unfold candidates. by rewrite Hdef. }
  split; [| split].
  - rewrite buildCredentialList_first_by_key, Hcand.
    destruct (first_by_key_positions (custom config) ∅ 0 (custom config))
      as (ps & Hsort & _ & Hiff & Hres).
    + apply drop_0.
    + intros k. simpl. rewrite elem_of_empty. split; [done |].
      intros H. by apply elem_of_nil in H.
    + exists ps. split; [done |]. split; [| done].
      intros i. rewrite Hiff. split; [by intros [_ H] | intros H; split; [lia | done]].
  - intros other. by rewrite !buildCredentialList_first_by_key, !Hcand.
  - intros Hnone net w.
    unfold BaselineTester.testHost, PlainTester.testHost.
    rewrite buildCredentialList_first_by_key, Hcand, Hnone. done.
Qed.

Lemma custom_credentials_only_witness :
  (exists positions,
     StronglySorted lt positions
     /\ (forall i, i ∈ positions <-> first_occurrence (custom custom_only) i)
     /\ Forall2 (fun c i => custom custom_only !! i = Some c)
          (buildCredentialList hikvision_target custom_only) positions)
  /\ buildCredentialList hikvision_target custom_only
     = [cred "operator" "secret"; cred "viewer" "viewer"].
Proof.
  split; [| vm_compute; reflexivity].
  apply (custom_credentials_only hikvision_target custom_only). reflexivity.
Defined.

(** ** The passes of [fuzzHost] *)

Lemma for_each_calls {A B : Type} (f : A -> M B) (g : A -> Call) :
  (forall x w, calls (snd (f x w)) = (calls w ++ [g x])%list) ->
  forall xs w, calls (snd (for_each f xs w)) = (calls w ++ map g xs)%list.
Proof.
  intros Hf xs. induction xs as [| x xs IH]; intros w; simpl.
  - by rewrite app_nil_r.
  - unfold bind. pose proof (Hf x w) as Hx. destruct (f x w) as [y w1]. simpl in Hx.
    pose proof (IH w1) as Hxs. destruct (for_each f xs w1) as [ys w2]. simpl in *.
    by rewrite Hxs, Hx, <- app_assoc.
Qed.

Lemma for_each_Forall2 {A B : Type} (f : A -> M B) (P : A -> B -> Prop) :
  (forall x w, P x (fst (f x w))) ->
  forall xs w, Forall2 P xs (fst (for_each f xs w)).
Proof.
  intros Hf xs. induction xs as [| x xs IH]; intros w; simpl; [constructor |].
  unfold bind. pose proof (Hf x w) as Hx. destruct (f x w) as [y w1]. simpl in Hx.
  pose proof (IH w1) as Hxs. destruct (for_each f xs w1) as [ys w2]. simpl in *.
  by constructor.
Qed.

Lemma pushed_Forall (Q : string -> Fuzzer.Finding -> Prop) xs found :
  Forall2 (fun x o => forall f, o = Some f -> Q x f) xs found ->
  Forall (fun f => exists x, x ∈ xs /\ Q x f) (Fuzzer.pushed found)
  /\ (length (Fuzzer.pushed found) <= length xs)%nat.
Proof.
  induction 1 as [| x o xs found Hx _ [IH1 IH2]]; [split; [constructor | simpl; lia] |].
  destruct o as [f |].
  - change (Fuzzer.pushed (Some f :: found)) with (f :: Fuzzer.pushed found).
    split; [| simpl; lia]. constructor.
    + exists x. split; [apply list_elem_of_here | by apply Hx].
    + eapply Forall_impl; [exact IH1 |]. intros g (y & Hy & Hq).
      exists y. split; [by apply elem_of_cons; right | done].
  - change (Fuzzer.pushed (None :: found)) with (Fuzzer.pushed found).
    split; [| simpl; lia]. eapply Forall_impl; [exact IH1 |]. intros g (y & Hy & Hq).
    exists y. split; [by apply elem_of_cons; right | done].
Qed.

Section Probes.

Variable net : Network.
Variable target : FingerprintResult.

Lemma probeRtspPath_call p w :
  calls (snd (Fuzzer.probeRtspPath net target p w))
  = (calls w ++ [CallRtsp (Describe (ip target) 554 p None)])%list.
Proof.
  unfold Fuzzer.probeRtspPath, bind, rtspDescribe, isoNow, ret. simpl.
  destruct (rtsp_reply net (calls w) _) as [reply | msg]; [| done].
  destruct (statusCode reply =? 200); [done |].
  by destruct (statusCode reply =? 401).
Qed.

Lemma probeRtspPath_finding p w f :
  fst (Fuzzer.probeRtspPath net target p w) = Some f ->
  Fuzzer.f_ip f = ip target /\ Fuzzer.f_path f = p /\ Fuzzer.f_type f = "rtsp_stream"
  /\ Fuzzer.f_port f = 554 /\ Fuzzer.f_protocol f = "rtsp"
  /\ ((Fuzzer.f_severity f = "high" /\ Fuzzer.f_authenticated f = false)
      \/ (Fuzzer.f_severity f = "info" /\ Fuzzer.f_authenticated f = true)).
Proof.
  unfold Fuzzer.probeRtspPath, bind, rtspDescribe, isoNow, ret. simpl.
  destruct (rtsp_reply net (calls w) _) as [reply | msg]; [| done].
  destruct (statusCode reply =? 200); simpl.
  { intros H. inversion H; subst; clear H. simpl. repeat split. by left. }
  destruct (statusCode reply =? 401); simpl; [| done].
  intros H. inversion H; subst; clear H. simpl. repeat split. by right.
Qed.

Lemma http_probe_call (probe : string -> M (option Fuzzer.Finding)) :
  probe = Fuzzer.probeSnapshot net target \/ probe = Fuzzer.probeConfigPath net target
  \/ probe = Fuzzer.probeAdminPath net target ->
  forall p w,
    calls (snd (probe p w))
    = (calls w ++ [CallHttp (Get (baseUrl_of target ++ p) None [])])%list.
Proof.
  intros [-> | [-> | ->]] p w.
  all: unfold Fuzzer.probeSnapshot, Fuzzer.probeConfigPath, Fuzzer.probeAdminPath,
         bind, httpGet, isoNow, ret; simpl.
  all: destruct (http_reply net (calls w) _) as [resp | msg]; [| done].
  all: match goal with |- context [if ?b then _ else _] => by destruct b end.
Qed.

Lemma probeSnapshot_finding p w f :
  fst (Fuzzer.probeSnapshot net target p w) = Some f ->
  Fuzzer.f_ip f = ip target /\ Fuzzer.f_path f = p /\ Fuzzer.f_type f = "snapshot_endpoint"
  /\ Fuzzer.f_port f = port target /\ Fuzzer.f_protocol f = scheme_of target
  /\ Fuzzer.f_severity f = "medium" /\ Fuzzer.f_authenticated f = false.
Proof.
  unfold Fuzzer.probeSnapshot, bind, httpGet, isoNow, ret. simpl.
  destruct (http_reply net (calls w) _) as [resp | msg]; [| done].
  match goal with |- context [if ?b then _ else _] => destruct b end; [| done].
  simpl. intros H. inversion H; subst; clear H. done.
Qed.

Lemma probeConfigPath_finding p w f :
  fst (Fuzzer.probeConfigPath net target p w) = Some f ->
  Fuzzer.f_ip f = ip target /\ Fuzzer.f_path f = p /\ Fuzzer.f_type f = "config_disclosure"
  /\ Fuzzer.f_port f = port target /\ Fuzzer.f_protocol f = scheme_of target
  /\ (Fuzzer.f_severity f = "critical" \/ Fuzzer.f_severity f = "high")
  /\ Fuzzer.f_authenticated f = false.
Proof.
  unfold Fuzzer.probeConfigPath, bind, httpGet, isoNow, ret. simpl.
  destruct (http_reply net (calls w) _) as [resp | msg]; [| done].
  match goal with |- context [if ?b then _ else _] => destruct b end; [| done].
  simpl. intros H. inversion H; subst; clear H. simpl.
  repeat split. destruct (Regex.test _ _); [by left | by right].
Qed.

Lemma probeAdminPath_finding p w f :
  fst (Fuzzer.probeAdminPath net target p w) = Some f ->
  Fuzzer.f_ip f = ip target /\ Fuzzer.f_path f = p /\ Fuzzer.f_type f = "unauthenticated_access"
  /\ Fuzzer.f_port f = port target /\ Fuzzer.f_protocol f = scheme_of target
  /\ Fuzzer.f_severity f = "medium" /\ Fuzzer.f_authenticated f = false.
Proof.
  unfold Fuzzer.probeAdminPath, bind, httpGet, isoNow, ret. simpl.
  destruct (http_reply net (calls w) _) as [resp | msg]; [| done].
  match goal with |- context [if ?b then _ else _] => destruct b end; [| done].
  simpl. intros H. inversion H; subst; clear H. done.
Qed.

End Probes.

Lemma fuzz_loop_spec (probe : string -> M (option Fuzzer.Finding)) (xs : list string)
    (g : string -> Call) (Q : string -> Fuzzer.Finding -> Prop) :
  (forall x w, calls (snd (probe x w)) = (calls w ++ [g x])%list) ->
  (forall x w f, fst (probe x w) = Some f -> Q x f) ->
  forall w,
    let '(r, w') :=
      (let* found := for_each probe xs in
       ret {| Fuzzer.hf_findings := Fuzzer.pushed found;
              Fuzzer.hf_pathsTested := Z.of_nat (length xs) |}) w in
    calls w' = (calls w ++ map g xs)%list
    /\ Fuzzer.hf_pathsTested r = Z.of_nat (length xs)
    /\ Forall (fun f => exists x, x ∈ xs /\ Q x f) (Fuzzer.hf_findings r)
    /\ (length (Fuzzer.hf_findings r) <= length xs)%nat.
Proof.
  intros Hcall Hfind w. unfold bind, ret.
  pose proof (for_each_calls probe g Hcall xs w) as Hc.
  pose proof (for_each_Forall2 probe (fun x o => forall f, o = Some f -> Q x f)
                (fun x w => Hfind x w) xs w) as Hf.
  destruct (for_each probe xs w) as [found w']. simpl in *.
  destruct (pushed_Forall Q xs found Hf) as [H1 H2]. done.
Qed.

Section FuzzHost.

Variable net : Network.
Variable target : FingerprintResult.

Lemma pass_step (condition : bool) (fuzz : M Fuzzer.HostFuzzResult) (sent : list Call)
    w0 requests sofar w :
  (forall w1,
     let '(r, w') := fuzz w1 in
     calls w' = (calls w1 ++ sent)%list
     /\ Fuzzer.hf_pathsTested r = Z.of_nat (length sent)
     /\ Forall (finding_of_pass target) (Fuzzer.hf_findings r)
     /\ (length (Fuzzer.hf_findings r) <= length sent)%nat) ->
  after_passes target w0 requests sofar w ->
  after_passes target w0 (requests ++ if condition then sent else [])
    (fst (Fuzzer.pass condition fuzz sofar w))
    (snd (Fuzzer.pass condition fuzz sofar w)).
Proof.
  intros Hfuzz (Hc & Hn & Hf & Hl). unfold Fuzzer.pass.
  destruct condition.
  - unfold bind, ret. specialize (Hfuzz w). destruct (fuzz w) as [r w'].
    destruct Hfuzz as (Hc' & Hn' & Hf' & Hl').
    cbn [fst snd Fuzzer.hf_findings Fuzzer.hf_pathsTested].
    split; [by rewrite Hc', Hc, <- app_assoc |].
    split; [rewrite Hn, Hn', length_app; cbn [Fuzzer.hf_pathsTested]; lia |].
    split; [by apply Forall_app |]. cbn [Fuzzer.hf_findings]. rewrite !length_app. lia.
  - unfold ret. cbn [fst snd]. rewrite app_nil_r. done.
Qed.

Lemma fuzzRtspPaths_spec w1 :
  let '(r, w') := Fuzzer.fuzzRtspPaths net target w1 in
  calls w' = (calls w1 ++ Fuzzer.rtspRequests target)%list
  /\ Fuzzer.hf_pathsTested r = Z.of_nat (length (Fuzzer.rtspRequests target))
  /\ Forall (finding_of_pass target) (Fuzzer.hf_findings r)
  /\ (length (Fuzzer.hf_findings r) <= length (Fuzzer.rtspRequests target))%nat.
Proof.
  unfold Fuzzer.rtspRequests. rewrite length_map.
  pose proof (fuzz_loop_spec _ (Fuzzer.rtspPaths_of target) _ _
                (probeRtspPath_call net target) (probeRtspPath_finding net target) w1) as H.
  unfold Fuzzer.fuzzRtspPaths. cbv zeta. revert H.
  destruct (bind _ _ w1) as [r w']. intros (Hc & Hn & Hf & Hl).
  split; [done |]. split; [done |]. split; [| done].
  eapply Forall_impl; [exact Hf |]. cbv beta.
  intros f (p & Hp & Hip & Hpath & Hty & Hport & Hproto & Hsev).
  split; [done |]. left. by rewrite Hpath.
Qed.

Lemma fuzzSnapshotEndpoints_spec w1 :
  let sent := map (fun p => CallHttp (Get (baseUrl_of target ++ p) None []))
                (Fuzzer.snapshotEndpoints_of target) in
  let '(r, w') := Fuzzer.fuzzSnapshotEndpoints net target w1 in
  calls w' = (calls w1 ++ sent)%list
  /\ Fuzzer.hf_pathsTested r = Z.of_nat (length sent)
  /\ Forall (finding_of_pass target) (Fuzzer.hf_findings r)
  /\ (length (Fuzzer.hf_findings r) <= length sent)%nat.
Proof.
  cbv zeta. rewrite length_map.
  pose proof (fuzz_loop_spec _ (Fuzzer.snapshotEndpoints_of target) _ _
                (http_probe_call net target _ (or_introl eq_refl))
                (probeSnapshot_finding net target) w1) as H.
  unfold Fuzzer.fuzzSnapshotEndpoints. cbv zeta. revert H.
  destruct (bind _ _ w1) as [r w']. intros (Hc & Hn & Hf & Hl).
  split; [done |]. split; [done |]. split; [| done].
  eapply Forall_impl; [exact Hf |]. cbv beta.
  intros f (p & Hp & Hip & Hpath & Hty & Hport & Hproto & Hsev & Hauth).
  split; [done |]. right. repeat (split; [done |]). left. by rewrite Hpath.
Qed.

Lemma fuzzConfigPaths_spec w1 :
  let sent := map (fun p => CallHttp (Get (baseUrl_of target ++ p) None []))
                CONFIG_DISCLOSURE_PATHS in
  let '(r, w') := Fuzzer.fuzzConfigPaths net target w1 in
  calls w' = (calls w1 ++ sent)%list
  /\ Fuzzer.hf_pathsTested r = Z.of_nat (length sent)
  /\ Forall (finding_of_pass target) (Fuzzer.hf_findings r)
  /\ (length (Fuzzer.hf_findings r) <= length sent)%nat.
Proof.
  cbv zeta. rewrite length_map.
  pose proof (fuzz_loop_spec _ CONFIG_DISCLOSURE_PATHS _ _
                (http_probe_call net target _ (or_intror (or_introl eq_refl)))
                (probeConfigPath_finding net target) w1) as H.
  unfold Fuzzer.fuzzConfigPaths. revert H.
  destruct (bind _ _ w1) as [r w']. intros (Hc & Hn & Hf & Hl).
  split; [done |]. split; [done |]. split; [| done].
  eapply Forall_impl; [exact Hf |]. cbv beta.
  intros f (p & Hp & Hip & Hpath & Hty & Hport & Hproto & Hsev & Hauth).
  split; [done |]. right. repeat (split; [done |]). right. left. by rewrite Hpath.
Qed.

Lemma fuzzAdminEndpoints_spec w1 :
  let sent := map (fun p => CallHttp (Get (baseUrl_of target ++ p) None []))
                Fuzzer.adminPaths in
  let '(r, w') := Fuzzer.fuzzAdminEndpoints net target w1 in
  calls w' = (calls w1 ++ sent)%list
  /\ Fuzzer.hf_pathsTested r = Z.of_nat (length sent)
  /\ Forall (finding_of_pass target) (Fuzzer.hf_findings r)
  /\ (length (Fuzzer.hf_findings r) <= length sent)%nat.
Proof.
  cbv zeta. rewrite length_map.
  pose proof (fuzz_loop_spec _ Fuzzer.adminPaths _ _
                (http_probe_call net target _ (or_intror (or_intror eq_refl)))
                (probeAdminPath_finding net target) w1) as H.
  unfold Fuzzer.fuzzAdminEndpoints. revert H.
  destruct (bind _ _ w1) as [r w']. intros (Hc & Hn & Hf & Hl).
  split; [done |]. split; [done |]. split; [| done].
  eapply Forall_impl; [exact Hf |]. cbv beta.
  intros f (p & Hp & Hip & Hpath & Hty & Hport & Hproto & Hsev & Hauth).
  split; [done |]. right. repeat (split; [done |]). right. right. by rewrite Hpath.
Qed.

Lemma fuzzHost_spec config skipRtsp w :
  let requests :=
    ((if protocols_rtsp config && protocols_include P_rtsp target && negb skipRtsp
      then Fuzzer.rtspRequests target else [])
     ++ (if protocols_http config then Fuzzer.httpRequests target else []))%list in
  let '(r, w') := Fuzzer.fuzzHost net target config skipRtsp w in
  calls w' = (calls w ++ requests)%list
  /\ Fuzzer.hf_pathsTested r = Z.of_nat (length requests)
  /\ Forall (finding_of_pass target) (Fuzzer.hf_findings r)
  /\ (length (Fuzzer.hf_findings r) <= length requests)%nat.
Proof.
  cbv zeta. unfold Fuzzer.fuzzHost. cbv zeta. unfold bind at 1 2 3.
  assert (H0 : after_passes target w [] {| Fuzzer.hf_findings := []; Fuzzer.hf_pathsTested := 0 |} w).
  { split; [by rewrite app_nil_r |]. split; [done |]. split; [constructor | done]. }
  pose proof (pass_step (protocols_rtsp config && protocols_include P_rtsp target
                         && negb skipRtsp) _ _ _ _ _ _ fuzzRtspPaths_spec H0) as H1.
  destruct (Fuzzer.pass _ (Fuzzer.fuzzRtspPaths net target) _ w) as [r1 w1].
  pose proof (pass_step (protocols_http config) _ _ _ _ _ _ fuzzSnapshotEndpoints_spec H1)
    as H2.
  destruct (Fuzzer.pass _ (Fuzzer.fuzzSnapshotEndpoints net target) _ _) as [r2 w2].
  pose proof (pass_step (protocols_http config) _ _ _ _ _ _ fuzzConfigPaths_spec H2) as H3.
  destruct (Fuzzer.pass _ (Fuzzer.fuzzConfigPaths net target) _ _) as [r3 w3].
  pose proof (pass_step (protocols_http config) _ _ _ _ _ _ fuzzAdminEndpoints_spec H3) as H4.
  destruct (Fuzzer.pass _ (Fuzzer.fuzzAdminEndpoints net target) _ _) as [r4 w4].
  cbn [fst snd] in H4.
  assert (Hreq : forall (a : list Call),
            (((([] ++ a)
               ++ (if protocols_http config
                   then map (fun p => CallHttp (Get (baseUrl_of target ++ p) None []))
                          (Fuzzer.snapshotEndpoints_of target) else []))
              ++ (if protocols_http config
                  then map (fun p => CallHttp (Get (baseUrl_of target ++ p) None []))
                         CONFIG_DISCLOSURE_PATHS else []))
             ++ (if protocols_http config
                 then map (fun p => CallHttp (Get (baseUrl_of target ++ p) None []))
                        Fuzzer.adminPaths else []))%list
            = (a ++ (if protocols_http config then Fuzzer.httpRequests target else []))%list).
  { intros a. unfold Fuzzer.httpRequests. destruct (protocols_http config).
    - by rewrite !map_app, app_nil_l, <- !app_assoc.
    - by rewrite !app_nil_r. }
  unfold after_passes in H4. rewrite Hreq in H4. exact H4.
Qed.

End FuzzHost.

(** X12.  The requests of [fuzzHost] depend on the target, the
    configuration and [skipRtsp] only, not on any answer: a DESCRIBE
    without credentials for each distinct RTSP path of the vendor and of
    the generic list when RTSP is enabled, advertised and not skipped, then
    a GET without credentials for each distinct snapshot endpoint, each
    configuration path and each admin path when HTTP is enabled, in this
    order.  [pathsTested] is the number of these requests, and there are
    no more findings than requests. *)
Theorem fuzzHost_requests net target config skipRtsp w :
  let requests :=
    ((if protocols_rtsp config && protocols_include P_rtsp target && negb skipRtsp
      then Fuzzer.rtspRequests target else [])
     ++ (if protocols_http config then Fuzzer.httpRequests target else []))%list in
  let '(r, w') := Fuzzer.fuzzHost net target config skipRtsp w in
  calls w' = (calls w ++ requests)%list
  /\ Fuzzer.hf_pathsTested r = Z.of_nat (length requests)
  /\ (length (Fuzzer.hf_findings r) <= length requests)%nat.
Proof.
  pose proof (fuzzHost_spec net target config skipRtsp w) as H. cbv zeta in *.
  destruct (Fuzzer.fuzzHost net target config skipRtsp w) as [r w'].
  destruct H as (Hc & Hn & _ & Hl). done.
Qed.

(** X13.  Every finding of [fuzzHost] carries the address of the target and
    the path of the request that found it.  A finding of the RTSP pass has
    port 554 and protocol [rtsp], whatever the port of the target, and is
    either of severity [high] and not authenticated or of severity [info]
    and authenticated; every other finding has the port and the scheme of
    the target, is not authenticated, and has severity [medium] for a
    snapshot or an admin path and [critical] or [high] for a configuration
    path.  For a target on port 8554 the DESCRIBE requests go to port
    554. *)
Theorem fuzzHost_findings_classified :
  (forall net target config skipRtsp w,
     Forall (finding_of_pass target)
       (Fuzzer.hf_findings (fst (Fuzzer.fuzzHost net target config skipRtsp w))))
  /\ calls (snd (Fuzzer.fuzzHost closed_host rtsp_8554_target sample_config false
                    initial_world))
     = (map (fun p => CallRtsp (Describe "192.0.2.30" 554 p None))
          (Fuzzer.rtspPaths_of rtsp_8554_target)
        ++ map (fun p => CallHttp (Get ("http://192.0.2.30:8554" ++ p) None []))
             (Fuzzer.snapshotEndpoints_of rtsp_8554_target
              ++ CONFIG_DISCLOSURE_PATHS ++ Fuzzer.adminPaths))%list.
Proof.
  split; [| vm_compute; reflexivity].
  intros net target config skipRtsp w.
  pose proof (fuzzHost_spec net target config skipRtsp w) as H. cbv zeta in *.
  destruct (Fuzzer.fuzzHost net target config skipRtsp w) as [r w'].
  destruct H as (_ & _ & Hf & _). done.
Qed.

Example fuzzHost_hikvision_paths :
  Fuzzer.hf_pathsTested
    (fst (Fuzzer.fuzzHost closed_host hikvision_target sample_config true initial_world))
  = 10 + 17 + 25
  /\ length (Fuzzer.rtspPaths_of hikvision_target) = 21%nat.
Proof. vm_compute. split; reflexivity. Qed.

Lemma string_app_inj (a b c : string) : a ++ b = a ++ c -> b = c.
Proof.
  induction a as [| ch a IH]; [done |].
  rewrite !string_app_cons. intros H. injection H as H. by apply IH.
Qed.

Lemma rtspPaths_NoDup target : NoDup (Fuzzer.rtspPaths_of target).
Proof.
  unfold Fuzzer.rtspPaths_of. destruct (vendor target).
  all: apply (bool_decide_unpack _); vm_compute; exact I.
Qed.

Lemma httpPaths_NoDup target :
  NoDup (Fuzzer.snapshotEndpoints_of target ++ CONFIG_DISCLOSURE_PATHS ++ Fuzzer.adminPaths).
Proof.
  unfold Fuzzer.snapshotEndpoints_of. destruct (vendor target).
  all: apply (bool_decide_unpack _); vm_compute; exact I.
Qed.

(** X14.  [fuzzHost] sends no request twice: the RTSP paths and the
    snapshot endpoints are made distinct by the code, and for every vendor
    the snapshot endpoints, the configuration paths and the admin paths
    have no path in common. *)
Theorem fuzzHost_sends_each_once net target config skipRtsp w :
  NoDup (drop (length (calls w))
           (calls (snd (Fuzzer.fuzzHost net target config skipRtsp w)))).
Proof.
  pose proof (fuzzHost_spec net target config skipRtsp w) as H. cbv zeta in H.
  destruct (Fuzzer.fuzzHost net target config skipRtsp w) as [r w'].
  destruct H as (Hc & _). cbn [snd]. rewrite Hc, drop_app_length.
  assert (Hr : NoDup (Fuzzer.rtspRequests target)).
  { unfold Fuzzer.rtspRequests. apply NoDup_fmap_2; [| apply rtspPaths_NoDup].
    intros p q Hpq. by injection Hpq. }
  assert (Hh : NoDup (Fuzzer.httpRequests target)).
  { unfold Fuzzer.httpRequests. apply NoDup_fmap_2; [| apply httpPaths_NoDup].
    intros p q Hpq. injection Hpq as Hpq. by apply string_app_inj in Hpq. }
  apply NoDup_app. split; [| split].
  - destruct (_ && _); [done | constructor].
  - intros c Hc1 Hc2.
    destruct (_ && _); [| by apply elem_of_nil in Hc1].
    destruct (protocols_http config); [| by apply elem_of_nil in Hc2].
    unfold Fuzzer.rtspRequests in Hc1. unfold Fuzzer.httpRequests in Hc2.
    apply list_elem_of_fmap in Hc1 as (p & -> & _).
    apply list_elem_of_fmap in Hc2 as (q & Hq & _). discriminate Hq.
  - destruct (protocols_http config); [done | constructor].
Qed.

(** ** Discovery *)

Lemma dedup_from_positions l : forall s n all,
  drop n all = l ->
  (forall k, k ∈ s <-> k ∈ map hostKey (take n all)) ->
  exists positions,
    StronglySorted lt positions
    /\ Forall (fun i => (n <= i)%nat) positions
    /\ (forall i, i ∈ positions <-> (n <= i)%nat /\ first_host_at all i)
    /\ Forall2 (fun c i => all !! i = Some c) (dedup_from s l) positions.
Proof.
  induction l as [| c l IH]; intros s n all Hdrop Hs.
  - exists []. split; [constructor |]. split; [constructor |]. split; [| constructor].
    intros i. split.
    + intros Hi. by apply elem_of_nil in Hi.
    + intros [Hn (x & Hx & _)]. exfalso.
      apply lookup_lt_Some in Hx.
      assert (length (drop n all) = 0%nat) as Hlen by (by rewrite Hdrop).
      rewrite length_drop in Hlen. lia.
  - assert (Hn : all !! n = Some c).
    { pose proof (lookup_drop all n 0) as H. rewrite Hdrop in H. simpl in H.
      by rewrite Nat.add_0_r in H. }
    assert (Hrest : drop (S n) all = l).
    { pose proof (drop_S all c n Hn) as H. rewrite Hdrop in H. by injection H. }
    assert (Htake : take (S n) all = (take n all ++ [c])%list) by (by apply take_S_r).
    simpl. destruct (bool_decide_reflect (hostKey c ∈ s)) as [Hc | Hc].
    + destruct (IH s (S n) all Hrest) as (ps & Hsort & Hge & Hiff & Hall).
      { intros k. rewrite Htake, map_app, elem_of_app, <- Hs. simpl.
        rewrite list_elem_of_singleton. split; [by left | intros [H | ->]; done]. }
      exists ps. split; [done |]. split; [| split; [| done]].
      * eapply Forall_impl; [exact Hge |]. simpl. lia.
      * intros i. rewrite Hiff. split; [intros [Hi Hfirst]; split; [lia | done] |].
        intros [Hi Hfirst]. split; [| done].
        destruct (decide (i = n)) as [-> | Hne]; [| lia].
        destruct Hfirst as (x & Hx & Hfresh). rewrite Hn in Hx. injection Hx as <-.
        by apply Hs in Hc.
    + destruct (IH ({[hostKey c]} ∪ s) (S n) all Hrest) as (ps & Hsort & Hge & Hiff & Hall).
      { intros k. rewrite Htake, map_app, elem_of_app, <- Hs. simpl.
        rewrite list_elem_of_singleton, elem_of_union, elem_of_singleton. tauto. }
      exists (n :: ps). split; [| split; [| split]].
      * constructor; [done |]. eapply Forall_impl; [exact Hge |]. simpl. lia.
      * constructor; [lia |]. eapply Forall_impl; [exact Hge |]. simpl. lia.
      * intros i. rewrite elem_of_cons, Hiff. split.
        -- intros [-> | [Hi Hfirst]]; [| split; [lia | done]].
           split; [lia |]. exists c. split; [done |]. by rewrite <- Hs.
        -- intros [Hi Hfirst]. destruct (decide (i = n)) as [-> | Hne]; [by left |].
           right. split; [lia | done].
      * by constructor.
Qed.

Lemma dedup_from_fresh l : forall s x, x ∈ dedup_from s l -> hostKey x ∉ s.
Proof.
  induction l as [| y l IH]; intros s x Hx; simpl in Hx; [by apply elem_of_nil in Hx |].
  destruct (bool_decide_reflect (hostKey y ∈ s)) as [Hy | Hy]; [by apply IH |].
  apply elem_of_cons in Hx as [-> | Hx]; [done |].
  apply IH in Hx. intros Hin. apply Hx. apply elem_of_union. by right.
Qed.

Lemma dedup_from_NoDup l : forall s, NoDup (map hostKey (dedup_from s l)).
Proof.
  induction l as [| h l IH]; intros s; simpl; [constructor |].
  destruct (bool_decide_reflect (hostKey h ∈ s)) as [Hh | Hh]; [apply IH |].
  simpl. constructor; [| apply IH].
  intros Hin. apply list_elem_of_fmap in Hin as (x & Hk & Hx).
  apply dedup_from_fresh in Hx. apply Hx. apply elem_of_union. left.
  by apply elem_of_singleton.
Qed.

(** X15.  [runDiscovery] returns of the hosts that its scans pushed exactly
    those at the positions where an [ip:port] key occurs for the first time,
    in their order, so that no two hosts of the result have the same key;
    [targetsScanned] counts the targets. *)
Theorem runDiscovery_hosts_distinct sc targets elapsed :
  let all := allHosts sc targets in
  let result := runDiscovery sc targets elapsed in
  (exists positions,
     StronglySorted lt positions
     /\ (forall i, i ∈ positions <-> first_host_at all i)
     /\ Forall2 (fun h i => all !! i = Some h) (hosts result) positions)
  /\ NoDup (map hostKey (hosts result))
  /\ targetsScanned result = Z.of_nat (length targets).
Proof.
  intros all result. split; [| split; [| reflexivity]].
  - destruct (dedup_from_positions all ∅ 0 all) as (ps & Hsort & _ & Hiff & Hres).
    + apply drop_0.
    + intros k. simpl. rewrite elem_of_empty. split; [done |].
      intros H. by apply elem_of_nil in H.
    + exists ps. split; [done |]. split; [| done].
      intros i. rewrite Hiff. split; [by intros [_ H] | intros H; split; [lia | done]].
  - apply dedup_from_NoDup.
Qed.

(** X16.  Up to ten ports given for a single host are taken on trust:
    [runDiscovery] runs no scan for such a target and reports each of the
    ports as open, as [rtsp] when it is 554, 8554, 8555 or 10554 and as
    [http] otherwise, whatever listens there. *)
Theorem user_ports_trusted sc n host ports :
  host <> "" -> ports <> [] -> (length ports <= 10)%nat ->
  scanTarget sc n {| ts_host := Some host; ts_range := None; ts_ports := ports |}
  = map (fun p => {| dh_ip := host; dh_port := p;
                     dh_service := if bool_decide (p ∈ rtspPorts) then "rtsp" else "http";
                     dh_banner := "" |}) ports.
Proof.
  intros Hhost Hports Hlen. unfold scanTarget. cbn [ts_host ts_range ts_ports default truthy].
  destruct (String.eqb_spec host "") as [E | _]; [done |].
  rewrite (bool_decide_eq_true_2 (ports ≠ [])) by done.
  rewrite (bool_decide_eq_false_2 (ports = [])) by done.
  replace (Z.of_nat (length ports) <=? 10) with true by (symmetry; apply Z.leb_le; lia).
  done.
Qed.

Lemma user_ports_trusted_witness :
  hosts (runDiscovery silent_scanner overlapping_targets 12)
  = [ {| dh_ip := "192.0.2.11"; dh_port := 80; dh_service := "http"; dh_banner := "" |};
      {| dh_ip := "192.0.2.11"; dh_port := 554; dh_service := "rtsp"; dh_banner := "" |};
      {| dh_ip := "192.0.2.11"; dh_port := 8080; dh_service := "http"; dh_banner := "" |} ].
Proof.
  unfold runDiscovery, allHosts, overlapping_targets. cbn [hosts imap concat].
  rewrite !(user_ports_trusted silent_scanner); try done; try (simpl; lia).
Defined.

(** ** The port read back from an owner key *)

(** X17.  For a record whose address holds no colon, the port that the
    election reads back from the key [ip:port] of an owner, by
    [parseInt(key.split(':')[1])], is the port of the record. *)
Theorem owner_port_round_trip target :
  Js.includes ":" (ip target) = false ->
  owner_port (targetKey target) = Some (port target).
Proof. apply owner_port_targetKey. Qed.

Lemma owner_port_round_trip_witness :
  owner_port (targetKey rtsp_8554_target) = Some 8554.
Proof. apply (owner_port_round_trip rtsp_8554_target). reflexivity. Defined.

(* ===================================================================== *)
(** * Part III: test vectors of the model                                 *)
(* ===================================================================== *)

Example authIndicators_signout : Regex.test authIndicators "please signout now" = true.
Proof. vm_compute. reflexivity. Qed.
Example authIndicators_sign_out_spaced : Regex.test authIndicators "Sign Out" = true.
Proof. vm_compute. reflexivity. Qed.
Example authIndicators_line_break : Regex.test authIndicators "sign
out" = false.
Proof. vm_compute. reflexivity. Qed.
Example string_of_Z_samples : Js.string_of_Z 401 = "401" /\ Js.string_of_Z (-1) = "-1" /\ Js.string_of_Z 0 = "0".
Proof. vm_compute. auto. Qed.

Example md5_empty : md5hex "" = "d41d8cd98f00b204e9800998ecf8427e".
Proof. vm_compute. reflexivity. Qed.
Example md5_abc : md5hex "abc" = "900150983cd24fb0d6963f7d28e17f72".
Proof. vm_compute. reflexivity. Qed.
Example md5_long : md5hex "12345678901234567890123456789012345678901234567890123456789012345678901234567890" = "57edf4a22be3c955ac49da2e2107b67a".
Proof. vm_compute. reflexivity. Qed.

Example parse_realm : parseWwwAuthenticate (sample_challenge (Js.dq ++ "auth" ++ Js.dq)) !! "realm" = Some "IP Camera".
Proof. vm_compute. reflexivity. Qed.
Example parse_unquoted_qop : parseWwwAuthenticate (sample_challenge "auth,auth-int") !! "qop" = Some "auth,auth-int,".
Proof. vm_compute. reflexivity. Qed.
Example parse_type : parseWwwAuthenticate (sample_challenge "auth") !! "type" = Some "digest".
Proof. vm_compute. reflexivity. Qed.
Example parse_algorithm : parseWwwAuthenticate (sample_challenge "auth") !! "algorithm" = Some "MD5".
Proof. vm_compute. reflexivity. Qed.
Example parseInt_samples : Js.parseInt "554" = Some 554 /\ Js.parseInt "" = None /\ Js.parseInt " -12ab" = Some (-12) /\ Js.parseInt "0x1f" = Some 31.
Proof. vm_compute. auto. Qed.
Example split_samples : Js.split ":" "10.0.0.1:554" = ["10.0.0.1"; "554"] /\ Js.split ":" "" = [""] /\ Js.split ":" "a::b" = ["a";"";"b"].
Proof. vm_compute. auto. Qed.
